(** * Nexora vulnerability scanner: scan orchestration and PDF report

    A shallow embedding of [scanner.py] (target validation, tool adapters,
    command runner, orchestrator) and of the report half of [app.py]
    (open-port extraction, risk estimate, PDF assembly), with the
    properties of the specification proved against it.

    Python values are modelled as the code sees them:
    - [str] is a list of Unicode code points ([list N]);
    - [bytes] is a [list byte];
    - [int] is [Z], lengths are [nat];
    - values read back from JSON are a [pyval], with [dict] as a [gmap];
    - where the order of the keys of a [dict] matters to a statement, the
      readers of the report are embedded once more on values that keep
      it ([Ordered]), and proved to agree with the first embedding;
    - an exception is the [Raise] branch of [outcome];
    - the operating system (PATH lookup, subprocesses, DNS, clock) is an
      explicit world threaded through a state-and-exception monad. *)

From Stdlib Require Import ZArith NArith Lia Strings.String Strings.Byte.
From stdpp Require Import base option list gmap.

#[local] Set Warnings "-register-all".
#[local] Open Scope Z_scope.

(** ** Python strings and bytes *)

Module Py.

Abbreviation pystr := (list N).
Abbreviation bytes := (list byte).

(** Code points of a source literal: the Rocq literal gives the UTF-8
    bytes of the text, which are decoded the way the Python parser decodes
    its (UTF-8) source file. *)
Fixpoint utf8_decode (bs : list N) : pystr :=
  match bs with
  | [] => []
  | b0 :: r0 =>
    if (b0 <? 128)%N then b0 :: utf8_decode r0
    else if (b0 <? 224)%N then
      match r0 with
      | b1 :: r1 => ((b0 - 192) * 64 + (b1 - 128))%N :: utf8_decode r1
      | _ => [65533%N]
      end
    else if (b0 <? 240)%N then
      match r0 with
      | b1 :: b2 :: r2 =>
        ((b0 - 224) * 4096 + (b1 - 128) * 64 + (b2 - 128))%N :: utf8_decode r2
      | _ => [65533%N]
      end
    else
      match r0 with
      | b1 :: b2 :: b3 :: r3 =>
        ((b0 - 240) * 262144 + (b1 - 128) * 4096 + (b2 - 128) * 64 + (b3 - 128))%N
          :: utf8_decode r3
      | _ => [65533%N]
      end
  end.

Definition lit (s : string) : pystr :=
  utf8_decode (Byte.to_N <$> list_byte_of_string s).

(** A [bytes] literal with ASCII content only. *)
Definition blit (s : string) : bytes := list_byte_of_string s.

Definition nl : pystr := [10%N].

(** [str.isspace] on one code point (the whitespace table of CPython). *)
Definition isspace (c : N) : bool :=
  ((9 <=? c) && (c <=? 13) || (28 <=? c) && (c <=? 32)
   || (c =? 133) || (c =? 160) || (c =? 5760)
   || (8192 <=? c) && (c <=? 8202)
   || (c =? 8232) || (c =? 8233) || (c =? 8239) || (c =? 8287)
   || (c =? 12288))%N.

Fixpoint lstrip (s : pystr) : pystr :=
  match s with
  | [] => []
  | c :: t => if isspace c then lstrip t else s
  end.

Definition rstrip (s : pystr) : pystr := rev (lstrip (rev s)).

(** [s.strip()] *)
Definition strip (s : pystr) : pystr := rstrip (lstrip s).

(** Line boundaries of [str.splitlines]. *)
Definition is_linebreak (c : N) : bool :=
  ((10 <=? c) && (c <=? 13) || (28 <=? c) && (c <=? 30)
   || (c =? 133) || (c =? 8232) || (c =? 8233))%N.

(** [s.splitlines()]: [cur] holds the current line, reversed. A "\r\n"
    pair is one boundary; no empty last line is produced. *)
Fixpoint splitlines_from (cur s : pystr) : list pystr :=
  match s with
  | [] => match cur with [] => [] | _ => [rev cur] end
  | c :: t =>
    if (c =? 13)%N then
      match t with
      | 10%N :: t' => rev cur :: splitlines_from [] t'
      | _ => rev cur :: splitlines_from [] t
      end
    else if is_linebreak c then rev cur :: splitlines_from [] t
    else splitlines_from (c :: cur) t
  end.

Definition splitlines (s : pystr) : list pystr := splitlines_from [] s.

Fixpoint startswith (p s : pystr) : bool :=
  match p, s with
  | [], _ => true
  | a :: p', b :: s' => (a =? b)%N && startswith p' s'
  | _ :: _, [] => false
  end.

(** [sub in s] for strings. *)
Fixpoint str_in (sub s : pystr) : bool :=
  startswith sub s ||
  match s with
  | [] => false
  | _ :: t => str_in sub t
  end.

(** [sep.join(parts)] *)
Fixpoint str_join (sep : pystr) (parts : list pystr) : pystr :=
  match parts with
  | [] => []
  | [p] => p
  | p :: rest => p ++ sep ++ str_join sep rest
  end.

(** [s.replace(c, by)] for a one-character pattern [c]. *)
Definition replace_char (c : N) (by_ : pystr) (s : pystr) : pystr :=
  x ← s; if (x =? c)%N then by_ else [x].

(** [s.lower()] on the ASCII letters. The only caller applies it to a
    string that matched [DOMAIN_PATTERN], which holds ASCII only, and
    there this is what Python computes. *)
Definition lower (s : pystr) : pystr :=
  (λ c, if (65 <=? c) && (c <=? 90) then c + 32 else c)%N <$> s.

(** Decimal digits of a natural number, least significant first; [fuel]
    bounds the number of digits. *)
Fixpoint digits_rev (fuel : nat) (n : N) : pystr :=
  match fuel with
  | O => []
  | S f =>
    if (n <? 10)%N then [(48 + n)%N]
    else (48 + n mod 10)%N :: digits_rev f (n / 10)%N
  end.

(** [str(n)] for [n >= 0]: a number has no more decimal digits than bits. *)
Definition str_of_N (n : N) : pystr := rev (digits_rev (S (N.size_nat n)) n).

(** [str(z)] for an [int]. *)
Definition str_of_Z (z : Z) : pystr :=
  if z <? 0 then 45%N :: str_of_N (Z.to_N (- z)) else str_of_N (Z.to_N z).

Definition str_of_nat (n : nat) : pystr := str_of_N (N.of_nat n).

(** [f"{n:010d}"] for [n >= 0]: zero-padded on the left to width 10, and
    never truncated. *)
Definition format_010d (n : nat) : pystr :=
  let s := str_of_nat n in replicate (10 - length s)%nat 48%N ++ s.

(** Exceptions, by class. [OtherError] stands for any class the program
    has no handler for. *)
Inductive exn :=
| ValueError (msg : pystr)
| AttributeError
| TypeError
| UnicodeEncodeError
| TimeoutExpired
| OSError
| OtherError.

Inductive outcome (A : Type) :=
| Ok (a : A)
| Raise (e : exn).
Arguments Ok {A} a.
Arguments Raise {A} e.

Definition obind {A B} (m : outcome A) (f : A → outcome B) : outcome B :=
  match m with
  | Ok a => f a
  | Raise e => Raise e
  end.

(** [s.encode("latin-1", errors="replace")] *)
Definition encode_latin1_replace (s : pystr) : bytes :=
  (λ c, match Byte.of_N c with Some b => b | None => "?"%byte end) <$> s.

(** [s.encode("ascii")] *)
Fixpoint encode_ascii (s : pystr) : outcome bytes :=
  match s with
  | [] => Ok []
  | c :: t =>
    if (c <? 128)%N then
      match Byte.of_N c with
      | Some b => obind (encode_ascii t) (λ bs, Ok (b :: bs))
      | None => Raise UnicodeEncodeError
      end
    else Raise UnicodeEncodeError
  end.

(** Values produced by [json.loads]. A JSON number with a fraction is
    read as a [float]; the code never looks inside a number, only at
    whether a value is a [dict], a [list] or a [str], so [VInt] stands for
    both. *)
Inductive pyval :=
| VNone
| VBool (b : bool)
| VInt (z : Z)
| VStr (s : pystr)
| VList (l : list pyval)
| VDict (d : gmap pystr pyval).

(** [v.get(k, default)]: only a [dict] has the method. *)
Definition py_get (v : pyval) (k : pystr) (dflt : pyval) : outcome pyval :=
  match v with
  | VDict d => Ok (default dflt (d !! k))
  | _ => Raise AttributeError
  end.

End Py.

Import Py.

#[global] Instance outcome_ret : MRet outcome := @Ok.
#[global] Instance outcome_bind : MBind outcome := λ A B f m, obind m f.

(** [for x in xs: acc = body(acc, x)] where the body may raise. *)
Fixpoint for_each {A B} (body : A → B → outcome A) (xs : list B) (acc : A)
  : outcome A :=
  match xs with
  | [] => Ok acc
  | x :: rest => acc' ← body acc x; for_each body rest acc'
  end.

(** [enumerate(xs, start)] *)
Fixpoint enumerate {A} (start : Z) (xs : list A) : list (Z * A) :=
  match xs with
  | [] => []
  | x :: rest => (start, x) :: enumerate (start + 1) rest
  end.

(** ** Regular expressions, as far as [DOMAIN_PATTERN] uses them *)

Module Re.

Inductive re :=
| Bol                                   (* ^ *)
| Eol                                   (* $ *)
| Any                                   (* . *)
| Chr (c : N)                           (* one literal character *)
| Cls (ranges : list (N * N))           (* [a-bc-d...] *)
| Cat (r1 r2 : re)                      (* r1 r2 *)
| Rep (r : re) (lo : nat) (hi : option nat)   (* r{lo,hi}; hi = None for r+ *)
| Ahead (r : re)                        (* (?=r) *)
| NotAhead (r : re).                    (* (?!r) *)

(** A position in the subject: the number of characters consumed and the
    characters still ahead. *)
Definition pos := (nat * pystr)%type.

Definition in_ranges (ranges : list (N * N)) (c : N) : bool :=
  existsb (λ '(a, b), (a <=? c) && (c <=? b))%N ranges.

(** One character satisfying [p]. *)
Definition one (p : N → bool) (st : pos) (k : pos → bool) : bool :=
  match st with
  | (i, c :: t) => p c && k (S i, t)
  | (_, []) => false
  end.

(** At least [lo] and at most [n] rounds of [step], then [k]. All ways of
    splitting the subject are tried, as a backtracking matcher does. *)
Fixpoint rep_loop (step : pos → (pos → bool) → bool) (n lo : nat)
    (st : pos) (k : pos → bool) : bool :=
  match lo with O => k st | S _ => false end ||
  match n with
  | O => false
  | S n' => step st (λ st', rep_loop step n' (pred lo) st' k)
  end.

(** [run r st k]: some match of [r] from [st] ends at a position that [k]
    accepts. [^] holds at the start of the subject, [$] at its end and
    before a final newline, [.] is any character but a newline. An
    unbounded repetition needs no more rounds beyond [lo] than there are
    characters ahead. *)
Fixpoint run (r : re) (st : pos) (k : pos → bool) : bool :=
  match r with
  | Bol => (fst st =? 0)%nat && k st
  | Eol => match snd st with [] | [10%N] => k st | _ => false end
  | Any => one (λ c, negb (c =? 10)%N) st k
  | Chr c => one (λ x, (x =? c)%N) st k
  | Cls ranges => one (in_ranges ranges) st k
  | Cat r1 r2 => run r1 st (λ st', run r2 st' k)
  | Rep r lo hi =>
    let n := match hi with
             | Some hi => hi
             | None => (lo + length (snd st))%nat
             end in
    rep_loop (run r) n lo st k
  | Ahead r => run r st (λ _, true) && k st
  | NotAhead r => negb (run r st (λ _, true)) && k st
  end.

(** [pattern.match(s) is not None] *)
Definition matches (r : re) (s : pystr) : bool := run r (O, s) (λ _, true).

End Re.

(** ** scanner.py: validation, adapters, orchestration *)

Module Scanner.

Import Re.

Record ScanConfig := {
  target : pystr;
  target_type : pystr;
  scan_mode : pystr;
  tools : list pystr;
}.

Definition letter_digit_hyphen : list (N * N) :=
  [(65, 90); (97, 122); (48, 57); (45, 45)]%N.
Definition letter : list (N * N) := [(65, 90); (97, 122)]%N.

(** [^(?=.{1,253}$)(?!-)([A-Za-z0-9-]{1,63}\.)+[A-Za-z]{2,63}$] *)
Definition DOMAIN_PATTERN : re :=
  Cat Bol
 (Cat (Ahead (Cat (Rep Any 1 (Some 253%nat)) Eol))
 (Cat (NotAhead (Chr 45))
 (Cat (Rep (Cat (Rep (Cls letter_digit_hyphen) 1 (Some 63%nat)) (Chr 46)) 1 None)
 (Cat (Rep (Cls letter) 2 (Some 63%nat))
      Eol)))).

(** The result of [urlparse], as far as it is read. *)
Record ParseResult := {
  scheme : pystr;
  netloc : pystr;
  hostname : option pystr;
}.

(** [subprocess.CompletedProcess] with captured text output. *)
Record CompletedProcess := {
  returncode : Z;
  stdout : pystr;
  stderr : pystr;
}.

(** What the program asks of its surroundings, in the order it asks;
    [EAdapter] marks the orchestrator handing over to a tool adapter. *)
Inductive event :=
| EWhich (name : pystr)
| ERun (cmd : list pystr)
| EResolve (host : pystr)
| ENow
| EAdapter (tool : pystr).

Definition is_external (ev : event) : bool :=
  match ev with
  | EAdapter _ => false
  | _ => true
  end.

Section World.

Context {W : Type}.

(** The library and system calls of [scanner.py]. The pure ones are
    functions; the others read and may change the world [W]. A call
    that raises returns [Raise]. *)
Record Env := {
  ip_address : pystr → outcome ();                       (* ipaddress.ip_address *)
  urlparse : pystr → outcome ParseResult;                (* urllib.parse.urlparse *)
  which : pystr → W → option pystr * W;                  (* shutil.which *)
  subprocess_run : list pystr → W → outcome CompletedProcess * W;
    (* subprocess.run(cmd, capture_output=True, text=True, timeout=120, check=False) *)
  gethostbyname : pystr → W → outcome pystr * W;         (* socket.gethostbyname *)
  utcnow_isoformat : W → pystr * W;  (* datetime.now(timezone.utc).isoformat() *)
}.

Variable env : Env.

Record Sys := { world : W; trace : list event }.

(** Computations that use the world and may raise. *)
Definition M (A : Type) : Type := Sys → outcome A * Sys.

Definition ret {A} (a : A) : M A := λ s, (Ok a, s).
Definition raise {A} (e : exn) : M A := λ s, (Raise e, s).
Definition bind {A B} (m : M A) (f : A → M B) : M B :=
  λ s, match m s with
       | (Ok a, s') => f a s'
       | (Raise e, s') => (Raise e, s')
       end.
Definition lift {A} (o : outcome A) : M A := λ s, (o, s).

(** [try: m except <classes of handler>: ...] *)
Definition try_except {A} (m : M A) (handler : exn → option (M A)) : M A :=
  λ s, match m s with
       | (Ok a, s') => (Ok a, s')
       | (Raise e, s') =>
         match handler e with
         | Some h => h s'
         | None => (Raise e, s')
         end
       end.

Definition emit (ev : event) : M () :=
  λ s, (Ok (), {| world := world s; trace := trace s ++ [ev] |}).

(** A call into the surroundings: recorded, then answered by [env]. *)
Definition call {A} (ev : event) (f : W → outcome A * W) : M A :=
  λ s, let '(r, w) := f (world s) in
       (r, {| world := w; trace := trace s ++ [ev] |}).

(** [for x in xs: acc = body(acc, x)] in [M]. *)
Fixpoint for_each_M {A B} (body : A → B → M A) (xs : list B) (acc : A) : M A :=
  match xs with
  | [] => ret acc
  | x :: rest => bind (body acc x) (for_each_M body rest)
  end.

#[local] Notation "x <~ m ; k" := (bind m (λ x, k))
  (at level 20, m at level 100, k at level 200, only parsing).
#[local] Notation "m ;; k" := (bind m (λ _, k))
  (at level 100, k at level 200, right associativity, only parsing).

(** Truth value of [x] for [x : str | None]. *)
Definition truthy (x : option pystr) : bool :=
  match x with
  | Some (_ :: _) => true
  | _ => false
  end.

(** [s[-n:]] for [n > 0]: the slice starts at [max(len(s) - n, 0)]. *)
Definition slice_last (n : Z) (s : pystr) : pystr :=
  drop (Z.to_nat (Z.of_nat (length s) - n)) s.

Definition shutil_which (name : pystr) : M (option pystr) :=
  call (EWhich name) (λ w, let '(r, w') := which env name w in (Ok r, w')).

Definition validate_target (target target_type : pystr) : outcome pystr :=
  let target := strip target in
  if bool_decide (target = []) then
    Raise (ValueError (lit "กรุณาระบุเป้าหมาย"))
  else if bool_decide (target_type = lit "ip") then
    _ ← ip_address env target;
    Ok target
  else if bool_decide (target_type = lit "domain") then
    if negb (matches DOMAIN_PATTERN target) then
      Raise (ValueError (lit "โดเมนไม่ถูกต้อง"))
    else Ok (lower target)
  else if bool_decide (target_type = lit "url") then
    parsed ← urlparse env target;
    if negb (bool_decide (scheme parsed ∈ [lit "http"; lit "https"]))
       || bool_decide (netloc parsed = [])
    then Raise (ValueError (lit "URL ต้องขึ้นต้นด้วย http:// หรือ https://"))
    else Ok target
  else Raise (ValueError (lit "ประเภทเป้าหมายไม่ถูกต้อง")).

Definition _run_command (cmd : list pystr) : M (gmap pystr pyval) :=
  try_except
    (completed <~ call (ERun cmd) (subprocess_run env cmd);
     ret (list_to_map
       [(lit "command", VStr (str_join (lit " ") cmd));
        (lit "return_code", VInt (returncode completed));
        (lit "stdout", VStr (slice_last 6000 (stdout completed)));
        (lit "stderr", VStr (slice_last 3000 (stderr completed)))]))
    (λ e, match e with
          | TimeoutExpired =>
            Some (ret (list_to_map
              [(lit "command", VStr (str_join (lit " ") cmd));
               (lit "return_code", VInt (-1));
               (lit "stdout", VStr (lit ""));
               (lit "stderr", VStr (lit "คำสั่งหมดเวลา (timeout)"))]))
          | _ => None
          end).

Definition resolve_target (target : pystr) : M pystr :=
  try_except
    (call (EResolve target) (gethostbyname env target))
    (λ e, match e with
          | OSError => Some (ret (lit "unresolved"))
          | _ => None
          end).

(** The part of [run_nmap] after the host has been settled. The phase
    table is a dict iterated in insertion order, hence a list of pairs. *)
Definition run_nmap_phases (nmap_bin target_for_nmap scan_mode : pystr)
  : M (gmap pystr pyval) :=
  let phases := [] in
  let phase_commands :=
    [(lit "host_discovery", [nmap_bin; lit "-sn"; target_for_nmap]);
     (lit "port_service_detection",
      [nmap_bin; lit "-sV"; lit "--top-ports"; lit "100"; target_for_nmap])] in
  let phase_commands :=
    if bool_decide (scan_mode ∈ [lit "balanced"; lit "deep"]) then
      phase_commands ++
        [(lit "vulnerability_nse",
          [nmap_bin; lit "-sV"; lit "--script"; lit "vulners"; target_for_nmap])]
    else phase_commands in
  phases <~ for_each_M (λ phases '(phase, cmd),
      output <~ _run_command cmd;
      ret (phases ++ [VDict (output ∪ {[ lit "phase" := VStr phase ]})]))
    phase_commands phases;
  target_resolved <~ resolve_target target_for_nmap;
  ret (list_to_map
    [(lit "status", VStr (lit "completed"));
     (lit "target_resolved", VStr target_resolved);
     (lit "phases", VList phases)]).

Definition run_nmap (target target_type scan_mode : pystr) : M (gmap pystr pyval) :=
  nmap_bin <~ shutil_which (lit "nmap");
  match nmap_bin with
  | Some (c :: b) =>
    let nmap_bin := c :: b in
    let target_for_nmap := target in
    if bool_decide (target_type = lit "url") then
      parsed <~ lift (urlparse env target);
      match hostname parsed with
      | Some (h :: ost) => run_nmap_phases nmap_bin (h :: ost) scan_mode
      | _ =>
        ret (list_to_map
          [(lit "status", VStr (lit "error"));
           (lit "reason", VStr (lit "ไม่สามารถแยก host จาก URL"))])
      end
    else run_nmap_phases nmap_bin target_for_nmap scan_mode
  | _ =>
    ret (list_to_map
      [(lit "status", VStr (lit "skipped"));
       (lit "reason", VStr (lit "ไม่พบ nmap ในระบบ"));
       (lit "hint",
        VStr (lit "ติดตั้ง nmap ก่อนใช้งานจริง หรือรันทดสอบใน Kali Linux"))])
  end.

Definition run_zap (target target_type scan_mode : pystr) : M (gmap pystr pyval) :=
  if negb (bool_decide (target_type = lit "url")) then
    ret (list_to_map
      [(lit "status", VStr (lit "skipped"));
       (lit "reason", VStr (lit "OWASP ZAP ใช้กับ URL เท่านั้น"))])
  else
    zap_bin <~ (first <~ shutil_which (lit "zap.sh");
                if truthy first then ret first else shutil_which (lit "zaproxy"));
    match zap_bin with
    | Some (c :: b) =>
      ret (list_to_map
        [(lit "status", VStr (lit "available"));
         (lit "binary", VStr (c :: b));
         (lit "note",
          VStr (lit "พบ ZAP ในระบบ แต่ตัวอย่างนี้ไม่ได้เรียก active scan จริงเพื่อความปลอดภัย"))])
    | _ =>
      ret (list_to_map
        [(lit "status", VStr (lit "simulated"));
         (lit "reason", VStr (lit "ไม่พบ OWASP ZAP ในระบบ"));
         (lit "simulated_checks",
          VList [VStr (lit "Passive scan (headers, cookies, TLS)");
                 VStr (lit "Spider + Active scan ตามโหมดที่เลือก")]);
         (lit "note",
          VStr (lit "โหมด " ++ scan_mode
                  ++ lit ": แนะนำรันผ่าน ZAP API เพื่อเก็บรายงานจริง"))])
    end.

Definition run_arachni (target target_type scan_mode : pystr)
  : M (gmap pystr pyval) :=
  if negb (bool_decide (target_type = lit "url")) then
    ret (list_to_map
      [(lit "status", VStr (lit "skipped"));
       (lit "reason", VStr (lit "Arachni ใช้กับ URL เท่านั้น"))])
  else
    arachni_bin <~ shutil_which (lit "arachni");
    match arachni_bin with
    | Some (c :: b) =>
      ret (list_to_map
        [(lit "status", VStr (lit "available"));
         (lit "binary", VStr (c :: b));
         (lit "note", VStr (lit "พบ Arachni ในระบบ แต่ปิดการยิงจริงในเดโม"))])
    | _ =>
      ret (list_to_map
        [(lit "status", VStr (lit "simulated"));
         (lit "reason", VStr (lit "ไม่พบ Arachni ในระบบ"));
         (lit "simulated_checks", VList [VStr (lit "XSS"); VStr (lit "SQL Injection")]);
         (lit "note",
          VStr (lit "สามารถต่อยอดด้วย arachni_reporter เพื่อ export JSON"))])
    end.

Definition utc_now : M pystr :=
  call ENow (λ w, let '(t, w') := utcnow_isoformat env w in (Ok t, w')).

(** [findings[tool] = adapter(...)] when [tool in config.tools]. *)
Definition run_adapter (config : ScanConfig) (tool : pystr)
    (adapter : M (gmap pystr pyval)) (findings : gmap pystr pyval)
  : M (gmap pystr pyval) :=
  if bool_decide (tool ∈ tools config) then
    emit (EAdapter tool);;
    finding <~ adapter;
    ret (<[tool := VDict finding]> findings)
  else ret findings.

Definition run_scan (config : ScanConfig) : M (gmap pystr pyval) :=
  started_at <~ utc_now;
  normalized_target <~ lift (validate_target (target config) (target_type config));
  let findings : gmap pystr pyval := ∅ in
  findings <~ run_adapter config (lit "nmap")
    (run_nmap normalized_target (target_type config) (scan_mode config)) findings;
  findings <~ run_adapter config (lit "zap")
    (run_zap normalized_target (target_type config) (scan_mode config)) findings;
  findings <~ run_adapter config (lit "arachni")
    (run_arachni normalized_target (target_type config) (scan_mode config)) findings;
  finished_at <~ utc_now;
  ret (list_to_map
    [(lit "target", VStr normalized_target);
     (lit "target_type", VStr (target_type config));
     (lit "scan_mode", VStr (scan_mode config));
     (lit "tools", VList (VStr <$> tools config));
     (lit "started_at", VStr started_at);
     (lit "finished_at", VStr finished_at);
     (lit "findings", VDict findings)]).

End World.

Arguments Env : clear implicits.
Arguments Sys : clear implicits.

End Scanner.

(** ** app.py: risk estimate and PDF report *)

Module App.

(** The dict returned by [storage.get_scan]: it always has these keys;
    [id] comes from an INTEGER column, the text fields from TEXT columns,
    and [result] is whatever [json.loads] read back. Hence
    [scan.get("result", {})] below always finds the key. *)
Record ScanRecord := {
  scan_id : Z;
  target : pystr;
  target_type : pystr;
  scan_mode : pystr;
  tools : list pystr;
  created_at : pystr;
  result : pyval;
}.

Definition _escape_pdf_text (value : pystr) : pystr :=
  replace_char 41 (lit "\)")
    (replace_char 40 (lit "\(")
      (replace_char 92 (lit "\\") value)).

Definition _draw_text_line (y : Z) (text : pystr) (size x : Z) : pystr :=
  let safe := _escape_pdf_text (take 160 text) in
  lit "BT /F1 " ++ str_of_Z size ++ lit " Tf " ++ str_of_Z x ++ lit " "
    ++ str_of_Z y ++ lit " Td (" ++ safe ++ lit ") Tj ET".

(** [for phase in v]: a list yields its items, a dict its keys, a string
    its characters; anything else is not iterable. The order of the keys
    of a dict is immaterial here: every key is a [str], and the loop body
    fails on the first one whichever it is. *)
Definition py_iter (v : pyval) : outcome (list pyval) :=
  match v with
  | VList l => Ok l
  | VDict d => Ok (VStr ∘ fst <$> map_to_list d)
  | VStr s => Ok ((λ c, VStr [c]) <$> s)
  | _ => Raise TypeError
  end.

(** [v.splitlines()]: only a [str] has the method. *)
Definition py_splitlines (v : pyval) : outcome (list pystr) :=
  match v with
  | VStr s => Ok (splitlines s)
  | _ => Raise AttributeError
  end.

(** [v == "..."] for a string literal. *)
Definition py_eq_str (v : pyval) (s : pystr) : bool :=
  match v with
  | VStr s' => bool_decide (s' = s)
  | _ => false
  end.

Definition is_port_line (stripped : pystr) : bool :=
  str_in (lit "/tcp") stripped && str_in (lit "open") stripped.

Definition _extract_port_lines (scan : ScanRecord) : outcome (list pystr) :=
  findings ← py_get (result scan) (lit "findings") (VDict ∅);
  nmap ← py_get findings (lit "nmap") (VDict ∅);
  phases ← py_get nmap (lit "phases") (VList []) ≫= py_iter;
  ports ← for_each (λ ports phase,
      stdout ← py_get phase (lit "stdout") (VStr []);
      lines ← py_splitlines stdout;
      Ok (fold_left (λ ports line,
            let stripped := strip line in
            if is_port_line stripped then ports ++ [stripped] else ports)
          lines ports))
    phases [];
  Ok (take 8 ports).

Definition _estimate_risk (scan : ScanRecord) : outcome (pystr * list pystr) :=
  ports ← _extract_port_lines scan;
  findings ← py_get (result scan) (lit "findings") (VDict ∅);
  let issue_count := Z.of_nat (length ports) in
  zap_status ← py_get findings (lit "zap") (VDict ∅)
                 ≫= λ zap, py_get zap (lit "status") VNone;
  let issue_count :=
    if py_eq_str zap_status (lit "available") then issue_count + 2
    else issue_count in
  arachni_status ← py_get findings (lit "arachni") (VDict ∅)
                     ≫= λ arachni, py_get arachni (lit "status") VNone;
  let issue_count :=
    if py_eq_str arachni_status (lit "available") then issue_count + 2
    else issue_count in
  let level :=
    if 6 <=? issue_count then lit "HIGH"
    else if 3 <=? issue_count then lit "MEDIUM"
    else lit "LOW" in
  let vulns :=
    fold_left (λ vulns '(idx, port_line),
        let severity :=
          if negb (idx mod 2 =? 0) then lit "LOW" else lit "MEDIUM" in
        vulns ++ [lit "[" ++ severity ++ lit "] " ++ port_line])
      (enumerate 1 (take 4 ports)) [] in
  let vulns :=
    match vulns with
    | [] => vulns ++ [lit "No obvious high-risk service found from available scan output"]
    | _ => vulns
    end in
  Ok (level, vulns).

(** The PDF objects of the report; the last one carries the content
    stream and declares its length. *)
Definition pdf_objects (stream_data : bytes) : outcome (list bytes) :=
  let objects := [] in
  let objects := objects ++
    [blit "1 0 obj << /Type /Catalog /Pages 2 0 R >> endobj" ++ [x0a]] in
  let objects := objects ++
    [blit "2 0 obj << /Type /Pages /Kids [3 0 R] /Count 1 >> endobj" ++ [x0a]] in
  let objects := objects ++
    [blit "3 0 obj << /Type /Page /Parent 2 0 R /MediaBox [0 0 595 842] /Resources << /Font << /F1 4 0 R >> >> /Contents 5 0 R >> endobj"
       ++ [x0a]] in
  let objects := objects ++
    [blit "4 0 obj << /Type /Font /Subtype /Type1 /BaseFont /Helvetica >> endobj"
       ++ [x0a]] in
  declaration ← encode_ascii
    (lit "5 0 obj << /Length " ++ str_of_nat (length stream_data)
       ++ lit " >> stream" ++ nl);
  let objects := objects ++
    [declaration ++ stream_data ++ [x0a] ++ blit "endstream endobj" ++ [x0a]] in
  Ok objects.

Definition pdf_header : bytes :=
  blit "%PDF-1.4" ++ [x0a] ++ [x25; xe2; xe3; xcf; xd3] ++ [x0a].

(** [for obj in objects: offsets.append(len(pdf)); pdf.extend(obj)] *)
Definition place_objects (objects : list bytes) (pdf : bytes) (offsets : list nat)
  : bytes * list nat :=
  fold_left (λ '(pdf, offsets) obj, (pdf ++ obj, offsets ++ [length pdf]))
    objects (pdf, offsets).

(** The lines of the cross-reference section, before they are joined. *)
Definition xref_lines (objects : list bytes) (offsets : list nat) : list pystr :=
  let xref :=
    [lit "xref" ++ nl ++ lit "0 " ++ str_of_nat (length objects + 1) ++ nl;
     lit "0000000000 65535 f " ++ nl] in
  fold_left (λ xref offset, xref ++ [format_010d offset ++ lit " 00000 n " ++ nl])
    (drop 1 offsets) xref.

Definition trailer_text (objects : list bytes) (xref_offset : nat) : pystr :=
  lit "trailer" ++ nl ++ lit "<< /Size " ++ str_of_nat (length objects + 1)
    ++ lit " /Root 1 0 R >>" ++ nl
    ++ lit "startxref" ++ nl ++ str_of_nat xref_offset ++ nl
    ++ lit "%%EOF" ++ nl.

(** Header, objects, cross-reference section and trailer. *)
Definition pdf_assemble (objects : list bytes) : outcome bytes :=
  let header := pdf_header in
  let pdf := header in
  let offsets := [0%nat] in
  let '(pdf, offsets) := place_objects objects pdf offsets in
  let xref_offset := length pdf in
  let xref := xref_lines objects offsets in
  xref_bytes ← encode_ascii (concat xref);
  let pdf := pdf ++ xref_bytes in
  let trailer := trailer_text objects xref_offset in
  trailer_bytes ← encode_ascii trailer;
  let pdf := pdf ++ trailer_bytes in
  Ok pdf.

Section Report.

(** [str.upper], a total function on strings; the report uses it on the
    stored scan mode only, and nothing proved below depends on what it
    returns. *)
Variable upper : pystr → pystr.

(** The instructions of the content stream, in the order the code appends
    them. *)
Definition report_content (scan : ScanRecord) : outcome (list pystr) :=
  let target := target scan in
  let scan_id := scan_id scan in
  let created := created_at scan in
  let status := lit "COMPLETED" in
  let mode := upper (scan_mode scan) in
  '(risk_level, vuln_lines) ← _estimate_risk scan;
  port_lines ← _extract_port_lines scan;
  let content := [] in
  (* Header block *)
  let content := content ++
    [lit "0.05 0.10 0.22 rg";
     lit "30 770 535 45 re f";
     lit "0 0 0 rg";
     _draw_text_line 795 (lit "CYBERSECURITY ASSESSMENT REPORT") 18 45;
     _draw_text_line 778 (lit "CONFIDENTIAL SECURITY DOCUMENT") 10 45] in
  (* Table of contents *)
  let content := content ++
    [_draw_text_line 745 (lit "Table of Contents (Sarabany / TOC)") 14 45;
     _draw_text_line 728 (lit "1. Scan Information") 11 55;
     _draw_text_line 712 (lit "2. Host Discovery Results") 11 55;
     _draw_text_line 696 (lit "3. Port & Service Detection Results") 11 55;
     _draw_text_line 680 (lit "4. Vulnerability Findings") 11 55;
     _draw_text_line 664 (lit "5. Risk Summary") 11 55;
     _draw_text_line 648 (lit "6. Observations and Limitations") 11 55;
     _draw_text_line 632 (lit "7. Recommendations") 11 55] in
  (* Section 1 *)
  let content := content ++
    [_draw_text_line 602 (lit "1. SCAN INFORMATION") 15 45;
     _draw_text_line 584 (lit "Target: " ++ target) 11 55;
     _draw_text_line 568 (lit "Scan ID: " ++ str_of_Z scan_id) 11 55;
     _draw_text_line 584 (lit "Date: " ++ created) 11 300;
     _draw_text_line 568 (lit "Status: " ++ status) 11 300;
     _draw_text_line 552 (lit "Mode: " ++ mode) 11 300] in
  (* Section 2 *)
  let content := content ++
    [_draw_text_line 524 (lit "2. HOST DISCOVERY RESULTS") 15 45;
     _draw_text_line 506
       (lit "System checked host " ++ target
          ++ lit ". Reachability depends on network policy/firewall.") 11 55] in
  (* Section 3 *)
  let content := content ++
    [_draw_text_line 478 (lit "3. PORT & SERVICE DETECTION RESULTS") 15 45] in
  let y := 460 in
  let '(content, y) :=
    match port_lines with
    | _ :: _ =>
      let content := content ++
        [_draw_text_line y (lit "Open ports and services:") 11 55] in
      let y := y - 16 in
      fold_left (λ '(content, y) line,
          (content ++ [_draw_text_line y (lit "- " ++ line) 10 68], y - 14))
        (take 6 port_lines) (content, y)
    | [] =>
      let content := content ++
        [_draw_text_line y (lit "No open-port line parsed from current output.") 11 55] in
      (content, y - 16)
    end in
  (* Section 4 *)
  let y := y - 8 in
  let content := content ++
    [_draw_text_line y (lit "4. VULNERABILITY FINDINGS") 15 45] in
  let y := y - 20 in
  let '(content, y) :=
    fold_left (λ '(content, y) line,
        (content ++ [_draw_text_line y (lit "- " ++ line) 10 55], y - 14))
      (take 6 vuln_lines) (content, y) in
  (* Page 2 style continuation *)
  let content := content ++
    [lit "0.05 0.10 0.22 rg";
     lit "30 365 535 30 re f";
     _draw_text_line 375 (lit "RISK & RECOMMENDATION SUMMARY") 13 45] in
  let content := content ++
    [_draw_text_line 340 (lit "5. RISK SUMMARY") 15 45;
     _draw_text_line 322 (lit "Overall Risk Exposure: " ++ risk_level) 11 55;
     _draw_text_line 306
       (lit "Total Findings Identified: " ++ str_of_nat (length vuln_lines)) 11 55;
     _draw_text_line 288
       (lit "CVSS Guidance: LOW (0.1-3.9), MEDIUM (4.0-6.9), HIGH (7.0-8.9), CRITICAL (9.0-10)")
       10 55] in
  let content := content ++
    [_draw_text_line 258 (lit "6. OBSERVATIONS AND LIMITATIONS") 15 45;
     _draw_text_line 240
       (lit "- Results are point-in-time from selected tools and mode.") 11 55;
     _draw_text_line 224
       (lit "- Firewall/IDS/IPS may reduce visibility and depth.") 11 55;
     _draw_text_line 208
       (lit "- Some tool outputs may be simulated if binaries are unavailable.") 11 55] in
  let content := content ++
    [_draw_text_line 178 (lit "7. RECOMMENDATIONS") 15 45;
     _draw_text_line 160
       (lit "- Patch exposed services and verify versions regularly.") 11 55;
     _draw_text_line 144
       (lit "- Run scheduled scans in balanced/deep mode for better coverage.") 11 55;
     _draw_text_line 128
       (lit "- Use authenticated scans and correlate with CVE/CVSS sources.") 11 55] in
  Ok content.

Definition build_pdf_report (scan : ScanRecord) : outcome bytes :=
  content ← report_content scan;
  let stream_data := encode_latin1_replace (str_join nl content) in
  objects ← pdf_objects stream_data;
  pdf_assemble objects.

End Report.

End App.

(** ** Vocabulary of the specification

    The notions the properties below are stated with: what the
    specification calls a matched line, an issue count, a label grammar, a
    cross-reference entry, and so on. They follow the specification's
    words; the theorems relate them to the code above. *)

Module NumSpec.

(** Value of a string of decimal digits, most significant first. *)
Definition decimal_value (s : pystr) : option N :=
  foldl (λ acc c, n ← acc;
           if (48 <=? c)%N && (c <=? 57)%N then Some (10 * n + (c - 48))%N
           else None)
        (Some 0%N) s.

(** Value of a string of decimal digits, least significant first. *)
Fixpoint value_rev (ds : pystr) : N :=
  match ds with
  | [] => 0
  | d :: r => (d - 48) + 10 * value_rev r
  end%N.

Definition is_ascii (s : pystr) : Prop := Forall (λ c, (c < 128)%N) s.

End NumSpec.

Module ScannerSpec.

Import Re Scanner.

(** The adapters the orchestrator handed over to, in order. *)
Definition invoked (evs : list event) : list pystr :=
  omap (λ ev, match ev with EAdapter tool => Some tool | _ => None end) evs.

(** The tool names the orchestrator knows, in its fixed order. *)
Definition recognized : list pystr := [lit "nmap"; lit "zap"; lit "arachni"].

(** [m] adds nothing to the trace but calls into the surroundings. *)
Definition only_external {W A} (m : M (W:=W) A) : Prop :=
  ∀ (s : Sys W) r s', m s = (r, s') →
    ∃ evs, trace s' = trace s ++ evs ∧ invoked evs = [].

Definition tool_requested (config : ScanConfig) (tool : pystr) : list pystr :=
  if bool_decide (tool ∈ tools config) then [tool] else [].




(** Applying [g] to the value a computation returns. *)
Definition map_result {W A B} (g : A → B) (x : outcome A * Sys W)
  : outcome B * Sys W :=
  (match x.1 with Ok a => Ok (g a) | Raise e => Raise e end, x.2).

(** The surroundings never fail in a way the program has no handler for:
    a subprocess completes or times out, and a name resolves or fails with
    an [OSError]. *)
Definition well_behaved {W} (env : Env W) : Prop :=
  (∀ cmd w e, (subprocess_run env cmd w).1 = Raise e → e = TimeoutExpired)
  ∧ (∀ host w e, (gethostbyname env host w).1 = Raise e → e = OSError).

Definition is_letter (c : N) : Prop := (65 ≤ c ≤ 90 ∨ 97 ≤ c ≤ 122)%N.
Definition is_ldh (c : N) : Prop := (is_letter c ∨ 48 ≤ c ≤ 57 ∨ c = 45)%N.

(** A label before the last: 1 to 63 letters, digits or hyphens. *)
Definition label_ok (label : pystr) : Prop :=
  (1 ≤ length label ≤ 63)%nat ∧ Forall is_ldh label.

(** The last label: 2 to 63 letters. *)
Definition tld_ok (label : pystr) : Prop :=
  (2 ≤ length label ≤ 63)%nat ∧ Forall is_letter label.

(** Every label followed by a dot. *)
Definition dotted (labels : list pystr) : pystr :=
  mjoin ((λ label, label ++ [46%N]) <$> labels).

(** The label grammar of [DOMAIN_PATTERN]: at most 253 characters, no
    hyphen at the very start, one or more labels each followed by a dot,
    then a last label of letters. *)
Definition domain_form (t : pystr) : Prop :=
  (length t ≤ 253)%nat ∧ head t ≠ Some 45%N
  ∧ ∃ labels tld, labels ≠ [] ∧ t = dotted labels ++ tld
      ∧ Forall label_ok labels ∧ tld_ok tld.

(** A machine with nmap installed and no web scanner, on which host
    discovery times out and name resolution fails. *)
Definition sample_env : Env () := {|
  ip_address := λ _, Ok ();
  urlparse := λ _, Raise (ValueError []);
  which := λ name w,
    (if bool_decide (name = lit "nmap") then Some (lit "/usr/bin/nmap") else None, w);
  subprocess_run := λ cmd w,
    (if bool_decide (cmd !! 1%nat = Some (lit "-sn")) then Raise TimeoutExpired
     else Ok {| returncode := 0; stdout := lit "22/tcp open ssh"; stderr := [] |}, w);
  gethostbyname := λ _ w, (Raise OSError, w);
  utcnow_isoformat := λ w, (lit "2024-01-01T00:00:00+00:00", w);
|}.

Definition sample_sys : Sys () := {| world := (); trace := [] |}.

Definition sample_config : ScanConfig := {|
  target := lit "192.0.2.7";
  target_type := lit "ip";
  scan_mode := lit "quick";
  tools := [lit "zap"; lit "burp"; lit "nmap"];
|}.

(** The same request without the name the orchestrator does not know. *)
Definition sample_config_known : ScanConfig := {|
  target := lit "192.0.2.7";
  target_type := lit "ip";
  scan_mode := lit "quick";
  tools := [lit "nmap"; lit "zap"];
|}.

Definition sample_result : gmap pystr pyval :=
  match run_scan sample_env sample_config sample_sys with
  | (Ok result, _) => result
  | _ => ∅
  end.

Definition sample_final : Sys () :=
  (run_scan sample_env sample_config sample_sys).2.



End ScannerSpec.

Module AppSpec.

Import App NumSpec.

(** The lines of the nmap phases' output, in order. *)
Definition stdout_lines (outs : list pystr) : list pystr :=
  mjoin (splitlines <$> outs).

(** A line that contains both "/tcp" and "open". *)
Definition mentions_open_port (line : pystr) : bool :=
  str_in (lit "/tcp") line && str_in (lit "open") line.

Definition open_port_lines (outs : list pystr) : list pystr :=
  List.filter mentions_open_port (stdout_lines outs).

(** Matched lines count up to 8; an available web scanner counts 2. *)
Definition issue_count (matched : nat) (zap_available arachni_available : bool) : Z :=
  Z.of_nat (Nat.min matched 8)
  + (if zap_available then 2 else 0) + (if arachni_available then 2 else 0).

Definition risk_level (issue_count : Z) : pystr :=
  if 6 <=? issue_count then lit "HIGH"
  else if 3 <=? issue_count then lit "MEDIUM"
  else lit "LOW".

(** The label of the finding with 1-based index [idx], as the
    specification has it and as the code has it. *)
Definition severity_claimed (idx : Z) : pystr :=
  if Z.odd idx then lit "MEDIUM" else lit "LOW".
Definition severity_coded (idx : Z) : pystr :=
  if Z.odd idx then lit "LOW" else lit "MEDIUM".

(** The first four port lines, each behind its label. *)
Definition labelled (severity : Z → pystr) (ports : list pystr) : list pystr :=
  imap (λ i line, lit "[" ++ severity (Z.of_nat i + 1) ++ lit "] " ++ line)
    (take 4 ports).

Definition no_finding : pystr :=
  lit "No obvious high-risk service found from available scan output".

(** The record holds nmap phases whose outputs are [outs]. A missing key
    counts as the code's default for it. *)
Definition nmap_outputs (scan : ScanRecord) (outs : list pystr) : Prop :=
  ∃ findings nmap phases,
    py_get (result scan) (lit "findings") (VDict ∅) = Ok findings
    ∧ py_get findings (lit "nmap") (VDict ∅) = Ok nmap
    ∧ py_get nmap (lit "phases") (VList []) = Ok (VList phases)
    ∧ Forall2 (λ phase out, py_get phase (lit "stdout") (VStr []) = Ok (VStr out))
        phases outs.

(** The status the record holds for [tool]. *)
Definition finding_status (scan : ScanRecord) (tool : pystr) (status : pyval) : Prop :=
  ∃ findings finding,
    py_get (result scan) (lit "findings") (VDict ∅) = Ok findings
    ∧ py_get findings tool (VDict ∅) = Ok finding
    ∧ py_get finding (lit "status") VNone = Ok status.

(** Where each object begins when the objects are laid out one after the
    other from byte [start]. *)
Fixpoint offsets_from (start : nat) (objects : list bytes) : list nat :=
  match objects with
  | [] => []
  | obj :: rest => start :: offsets_from (start + length obj) rest
  end.

(** The bytes of an ASCII string. *)
Definition ascii_bytes (s : pystr) : bytes := encode_latin1_replace s.

(** The first entry of every cross-reference section. *)
Definition free_entry : pystr := lit "0000000000 65535 f " ++ nl.

Definition xref_entry (offset : nat) : pystr :=
  format_010d offset ++ lit " 00000 n " ++ nl.

(** The offset bookkeeping of a rendered report [pdf]: it is the header,
    the objects, the cross-reference section and the trailer; the last
    object declares the length of its stream; every offset is written
    with ten digits and is where its object begins; the trailer gives the
    size, the root and where the cross-reference section begins. *)
Definition offset_contract (pdf : bytes) : Prop :=
  ∃ (stream_data : bytes) (objects : list bytes) (offsets : list nat)
    (xref_offset : nat),
    pdf = pdf_header ++ mjoin objects
          ++ ascii_bytes (lit "xref" ++ nl ++ lit "0 "
                            ++ str_of_nat (length objects + 1) ++ nl
                            ++ mjoin (free_entry :: (xref_entry <$> offsets)))
          ++ ascii_bytes (lit "trailer" ++ nl ++ lit "<< /Size "
                            ++ str_of_nat (length objects + 1)
                            ++ lit " /Root 1 0 R >>" ++ nl
                            ++ lit "startxref" ++ nl ++ str_of_nat xref_offset ++ nl
                            ++ lit "%%EOF" ++ nl)
    ∧ length objects = 5%nat
    ∧ objects !! 4%nat =
        Some (ascii_bytes (lit "5 0 obj << /Length "
                             ++ str_of_nat (length stream_data)
                             ++ lit " >> stream" ++ nl)
              ++ stream_data ++ ascii_bytes (nl ++ lit "endstream endobj" ++ nl))
    ∧ length (free_entry :: (xref_entry <$> offsets)) = (length objects + 1)%nat
    ∧ (∀ n offset, offsets !! n = Some offset →
         length (format_010d offset) = 10%nat
         ∧ decimal_value (format_010d offset) = Some (N.of_nat offset)
         ∧ ∃ obj, objects !! n = Some obj
             ∧ ascii_bytes (str_of_nat (S n) ++ lit " 0 obj") `prefix_of` obj
             ∧ obj `prefix_of` drop offset pdf)
    ∧ xref_offset = length (pdf_header ++ mjoin objects)
    ∧ ascii_bytes (lit "xref") `prefix_of` drop xref_offset pdf.

(** [str.upper] on ASCII letters, for the examples. *)
Definition ascii_upper (s : pystr) : pystr :=
  (λ c, if (97 <=? c) && (c <=? 122) then c - 32 else c)%N <$> s.

(** One phase with five open ports among its lines. *)
Definition sample_stdout : pystr :=
  lit "Starting Nmap" ++ nl
  ++ lit "22/tcp   open  ssh" ++ nl
  ++ lit "  80/tcp   open  http  " ++ [13%N; 10%N]
  ++ lit "81/tcp   closed hosts2-ns" ++ nl
  ++ lit "443/tcp  open  https" ++ nl
  ++ lit "3306/tcp open  mysql" ++ nl
  ++ lit "8080/tcp open  http-proxy" ++ nl.

Definition sample_findings (with_zap : bool) : gmap pystr pyval :=
  let nmap := VDict (list_to_map
    [(lit "status", VStr (lit "completed"));
     (lit "phases", VList [VDict (list_to_map
        [(lit "phase", VStr (lit "port_service_detection"));
         (lit "stdout", VStr sample_stdout)])])]) in
  let zap := VDict (list_to_map [(lit "status", VStr (lit "available"))]) in
  if with_zap then list_to_map [(lit "nmap", nmap); (lit "zap", zap)]
  else list_to_map [(lit "nmap", nmap)].

Definition sample_scan (with_zap : bool) : ScanRecord := {|
  scan_id := 7;
  target := lit "example.com";
  target_type := lit "domain";
  scan_mode := lit "quick";
  tools := [lit "nmap"; lit "zap"];
  created_at := lit "2024-01-01T00:00:00";
  result := VDict (list_to_map [(lit "findings", VDict (sample_findings with_zap))]);
|}.

(** A record with a single open port. *)
Definition one_port_scan : ScanRecord := {|
  scan_id := 8;
  target := lit "192.0.2.7";
  target_type := lit "ip";
  scan_mode := lit "quick";
  tools := [lit "nmap"];
  created_at := lit "2024-01-01T00:00:00";
  result := VDict (list_to_map [(lit "findings", VDict (list_to_map
    [(lit "nmap", VDict (list_to_map
       [(lit "phases", VList [VDict (list_to_map
          [(lit "stdout", VStr (lit "22/tcp open ssh"))])])]))]))]);
|}.

Definition sample_pdf : bytes :=
  match build_pdf_report ascii_upper (sample_scan true) with
  | Ok pdf => pdf
  | Raise _ => []
  end.

End AppSpec.

(** ** The record as Python holds it

    A [dict] keeps its keys in the order they were inserted, and two
    dicts are equal when they hold the same keys with equal values, in
    whatever order; [True == 1] and [False == 0]. The readers of [app.py]
    are embedded once more on values that keep the order of the keys, so
    that what they do with it can be stated. The layout and the assembly
    of the document are those of [App]. *)

Module Ordered.

Import App.

Inductive oval :=
| ONone
| OBool (b : bool)
| OInt (z : Z)
| OStr (s : pystr)
| OList (l : list oval)
| ODict (items : list (pystr * oval)).

(** The value under key [k] among the items of a dict. *)
Fixpoint assoc (k : pystr) (items : list (pystr * oval)) : option oval :=
  match items with
  | [] => None
  | (k', v) :: rest => if bool_decide (k' = k) then Some v else assoc k rest
  end.

(** [v.get(k, default)]: only a [dict] has the method. *)
Definition py_get (v : oval) (k : pystr) (dflt : oval) : outcome oval :=
  match v with
  | ODict items => Ok (default dflt (assoc k items))
  | _ => Raise AttributeError
  end.

(** [for phase in v]: a list yields its items, a dict its keys in the
    order of insertion, a string its characters; anything else is not
    iterable. *)
Definition py_iter (v : oval) : outcome (list oval) :=
  match v with
  | OList l => Ok l
  | ODict items => Ok (OStr ∘ fst <$> items)
  | OStr s => Ok ((λ c, OStr [c]) <$> s)
  | _ => Raise TypeError
  end.

(** [v.splitlines()]: only a [str] has the method. *)
Definition py_splitlines (v : oval) : outcome (list pystr) :=
  match v with
  | OStr s => Ok (splitlines s)
  | _ => Raise AttributeError
  end.

(** [v == "..."] for a string literal. *)
Definition py_eq_str (v : oval) (s : pystr) : bool :=
  match v with
  | OStr s' => bool_decide (s' = s)
  | _ => false
  end.

(** The dict returned by [storage.get_scan], with the result as
    [json.loads] read it. *)
Record ScanRecord := {
  scan_id : Z;
  target : pystr;
  target_type : pystr;
  scan_mode : pystr;
  tools : list pystr;
  created_at : pystr;
  result : oval;
}.

Definition _extract_port_lines (scan : ScanRecord) : outcome (list pystr) :=
  findings ← py_get (result scan) (lit "findings") (ODict []);
  nmap ← py_get findings (lit "nmap") (ODict []);
  phases ← py_get nmap (lit "phases") (OList []) ≫= py_iter;
  ports ← for_each (λ ports phase,
      stdout ← py_get phase (lit "stdout") (OStr []);
      lines ← py_splitlines stdout;
      Ok (fold_left (λ ports line,
            let stripped := strip line in
            if is_port_line stripped then ports ++ [stripped] else ports)
          lines ports))
    phases [];
  Ok (take 8 ports).

Definition _estimate_risk (scan : ScanRecord) : outcome (pystr * list pystr) :=
  ports ← _extract_port_lines scan;
  findings ← py_get (result scan) (lit "findings") (ODict []);
  let issue_count := Z.of_nat (length ports) in
  zap_status ← py_get findings (lit "zap") (ODict [])
                 ≫= λ zap, py_get zap (lit "status") ONone;
  let issue_count :=
    if py_eq_str zap_status (lit "available") then issue_count + 2
    else issue_count in
  arachni_status ← py_get findings (lit "arachni") (ODict [])
                     ≫= λ arachni, py_get arachni (lit "status") ONone;
  let issue_count :=
    if py_eq_str arachni_status (lit "available") then issue_count + 2
    else issue_count in
  let level :=
    if 6 <=? issue_count then lit "HIGH"
    else if 3 <=? issue_count then lit "MEDIUM"
    else lit "LOW" in
  let vulns :=
    fold_left (λ vulns '(idx, port_line),
        let severity :=
          if negb (idx mod 2 =? 0) then lit "LOW" else lit "MEDIUM" in
        vulns ++ [lit "[" ++ severity ++ lit "] " ++ port_line])
      (enumerate 1 (take 4 ports)) [] in
  let vulns :=
    match vulns with
    | [] => vulns ++ [lit "No obvious high-risk service found from available scan output"]
    | _ => vulns
    end in
  Ok (level, vulns).

Section Report.

(** [str.upper], as in [App]. *)
Variable upper : pystr → pystr.

(** The instructions of the content stream, in the order the code appends
    them. *)
Definition report_content (scan : ScanRecord) : outcome (list pystr) :=
  let target := target scan in
  let scan_id := scan_id scan in
  let created := created_at scan in
  let status := lit "COMPLETED" in
  let mode := upper (scan_mode scan) in
  '(risk_level, vuln_lines) ← _estimate_risk scan;
  port_lines ← _extract_port_lines scan;
  let content := [] in
  (* Header block *)
  let content := content ++
    [lit "0.05 0.10 0.22 rg";
     lit "30 770 535 45 re f";
     lit "0 0 0 rg";
     _draw_text_line 795 (lit "CYBERSECURITY ASSESSMENT REPORT") 18 45;
     _draw_text_line 778 (lit "CONFIDENTIAL SECURITY DOCUMENT") 10 45] in
  (* Table of contents *)
  let content := content ++
    [_draw_text_line 745 (lit "Table of Contents (Sarabany / TOC)") 14 45;
     _draw_text_line 728 (lit "1. Scan Information") 11 55;
     _draw_text_line 712 (lit "2. Host Discovery Results") 11 55;
     _draw_text_line 696 (lit "3. Port & Service Detection Results") 11 55;
     _draw_text_line 680 (lit "4. Vulnerability Findings") 11 55;
     _draw_text_line 664 (lit "5. Risk Summary") 11 55;
     _draw_text_line 648 (lit "6. Observations and Limitations") 11 55;
     _draw_text_line 632 (lit "7. Recommendations") 11 55] in
  (* Section 1 *)
  let content := content ++
    [_draw_text_line 602 (lit "1. SCAN INFORMATION") 15 45;
     _draw_text_line 584 (lit "Target: " ++ target) 11 55;
     _draw_text_line 568 (lit "Scan ID: " ++ str_of_Z scan_id) 11 55;
     _draw_text_line 584 (lit "Date: " ++ created) 11 300;
     _draw_text_line 568 (lit "Status: " ++ status) 11 300;
     _draw_text_line 552 (lit "Mode: " ++ mode) 11 300] in
  (* Section 2 *)
  let content := content ++
    [_draw_text_line 524 (lit "2. HOST DISCOVERY RESULTS") 15 45;
     _draw_text_line 506
       (lit "System checked host " ++ target
          ++ lit ". Reachability depends on network policy/firewall.") 11 55] in
  (* Section 3 *)
  let content := content ++
    [_draw_text_line 478 (lit "3. PORT & SERVICE DETECTION RESULTS") 15 45] in
  let y := 460 in
  let '(content, y) :=
    match port_lines with
    | _ :: _ =>
      let content := content ++
        [_draw_text_line y (lit "Open ports and services:") 11 55] in
      let y := y - 16 in
      fold_left (λ '(content, y) line,
          (content ++ [_draw_text_line y (lit "- " ++ line) 10 68], y - 14))
        (take 6 port_lines) (content, y)
    | [] =>
      let content := content ++
        [_draw_text_line y (lit "No open-port line parsed from current output.") 11 55] in
      (content, y - 16)
    end in
  (* Section 4 *)
  let y := y - 8 in
  let content := content ++
    [_draw_text_line y (lit "4. VULNERABILITY FINDINGS") 15 45] in
  let y := y - 20 in
  let '(content, y) :=
    fold_left (λ '(content, y) line,
        (content ++ [_draw_text_line y (lit "- " ++ line) 10 55], y - 14))
      (take 6 vuln_lines) (content, y) in
  (* Page 2 style continuation *)
  let content := content ++
    [lit "0.05 0.10 0.22 rg";
     lit "30 365 535 30 re f";
     _draw_text_line 375 (lit "RISK & RECOMMENDATION SUMMARY") 13 45] in
  let content := content ++
    [_draw_text_line 340 (lit "5. RISK SUMMARY") 15 45;
     _draw_text_line 322 (lit "Overall Risk Exposure: " ++ risk_level) 11 55;
     _draw_text_line 306
       (lit "Total Findings Identified: " ++ str_of_nat (length vuln_lines)) 11 55;
     _draw_text_line 288
       (lit "CVSS Guidance: LOW (0.1-3.9), MEDIUM (4.0-6.9), HIGH (7.0-8.9), CRITICAL (9.0-10)")
       10 55] in
  let content := content ++
    [_draw_text_line 258 (lit "6. OBSERVATIONS AND LIMITATIONS") 15 45;
     _draw_text_line 240
       (lit "- Results are point-in-time from selected tools and mode.") 11 55;
     _draw_text_line 224
       (lit "- Firewall/IDS/IPS may reduce visibility and depth.") 11 55;
     _draw_text_line 208
       (lit "- Some tool outputs may be simulated if binaries are unavailable.") 11 55] in
  let content := content ++
    [_draw_text_line 178 (lit "7. RECOMMENDATIONS") 15 45;
     _draw_text_line 160
       (lit "- Patch exposed services and verify versions regularly.") 11 55;
     _draw_text_line 144
       (lit "- Run scheduled scans in balanced/deep mode for better coverage.") 11 55;
     _draw_text_line 128
       (lit "- Use authenticated scans and correlate with CVE/CVSS sources.") 11 55] in
  Ok content.

Definition build_pdf_report (scan : ScanRecord) : outcome bytes :=
  content ← report_content scan;
  let stream_data := encode_latin1_replace (str_join nl content) in
  objects ← pdf_objects stream_data;
  pdf_assemble objects.

End Report.

End Ordered.

Module OrderedSpec.

Import Ordered.

(** The number a [bool] or an [int] stands for. *)
Definition number (v : oval) : option Z :=
  match v with
  | OBool b => Some (Z.b2z b)
  | OInt z => Some z
  | _ => None
  end.

(** [a == b] *)
Inductive py_equal : oval → oval → Prop :=
| equal_none : py_equal ONone ONone
| equal_number a b z : number a = Some z → number b = Some z → py_equal a b
| equal_str s : py_equal (OStr s) (OStr s)
| equal_list l1 l2 : Forall2 py_equal l1 l2 → py_equal (OList l1) (OList l2)
| equal_dict items1 items2 :
    (∀ k, option_Forall2 py_equal (assoc k items1) (assoc k items2)) →
    py_equal (ODict items1) (ODict items2).

(** Two records that are equal as Python values. *)
Definition record_equal (scan1 scan2 : ScanRecord) : Prop :=
  scan_id scan1 = scan_id scan2
  ∧ target scan1 = target scan2
  ∧ target_type scan1 = target_type scan2
  ∧ scan_mode scan1 = scan_mode scan2
  ∧ tools scan1 = tools scan2
  ∧ created_at scan1 = created_at scan2
  ∧ py_equal (result scan1) (result scan2).

(** The value with the order of its keys forgotten. *)
Fixpoint unordered (v : oval) : pyval :=
  match v with
  | ONone => VNone
  | OBool b => VBool b
  | OInt z => VInt z
  | OStr s => VStr s
  | OList l => VList (unordered <$> l)
  | ODict items =>
    VDict (list_to_map ((λ item, (item.1, unordered item.2)) <$> items))
  end.

(** The record as the unordered embedding holds it. *)
Definition unordered_record (scan : ScanRecord) : App.ScanRecord := {|
  App.scan_id := scan_id scan;
  App.target := target scan;
  App.target_type := target_type scan;
  App.scan_mode := scan_mode scan;
  App.tools := tools scan;
  App.created_at := created_at scan;
  App.result := unordered (result scan);
|}.
(** Two outcomes that are equal: equal values, or the same exception. *)
Definition outcome_equal (a b : outcome oval) : Prop :=
  match a, b with
  | Ok x, Ok y => py_equal x y
  | Raise e1, Raise e2 => e1 = e2
  | _, _ => False
  end.

(** One scan as the storage may return it at two times: the same keys
    and values, the keys of its dicts in two orders. *)
Definition ordered_phase (first_key_phase : bool) : oval :=
  let phase := (lit "phase", OStr (lit "port_service_detection")) in
  let stdout := (lit "stdout", OStr (lit "22/tcp open ssh")) in
  ODict (if first_key_phase then [phase; stdout] else [stdout; phase]).

Definition ordered_findings (first_key_nmap : bool) : oval :=
  let nmap := (lit "nmap", ODict [(lit "phases", OList [ordered_phase first_key_nmap])]) in
  let zap := (lit "zap", ODict [(lit "status", OStr (lit "available"))]) in
  ODict (if first_key_nmap then [nmap; zap] else [zap; nmap]).

Definition ordered_scan (first_key_nmap : bool) : ScanRecord := {|
  scan_id := 9;
  target := lit "192.0.2.7";
  target_type := lit "ip";
  scan_mode := lit "quick";
  tools := [lit "nmap"; lit "zap"];
  created_at := lit "2024-01-01T00:00:00";
  result := ODict [(lit "findings", ordered_findings first_key_nmap)];
|}.

End OrderedSpec.

(** ** [storage.py]: the [tools] column

    [save_scan] writes the requested tools to one TEXT column and
    [get_scan] reads the column back; the database in between keeps the
    text as it is. *)

Module Storage.

(** [s.split(sep)] for a one-character separator. *)
Fixpoint split_char (sep : N) (s : pystr) : list pystr :=
  match s with
  | [] => [[]]
  | c :: rest =>
    if (c =? sep)%N then [] :: split_char sep rest
    else match split_char sep rest with
         | field :: fields => (c :: field) :: fields
         | [] => [[c]]
         end
  end.

(** [save_scan]: [",".join(tools)] *)
Definition save_scan_tools (tools : list pystr) : pystr :=
  str_join (lit ",") tools.

(** [get_scan]: [row["tools"].split(",") if row["tools"] else []] *)
Definition get_scan_tools (column : pystr) : list pystr :=
  match column with
  | [] => []
  | _ :: _ => split_char 44 column
  end.

End Storage.

(** ** [app.py]: the run id of a request path *)

Module Handler.

(** [s.removeprefix(p)] *)
Definition removeprefix (p s : pystr) : pystr :=
  if startswith p s then drop (length p) s else s.

(** [s.endswith(suffix)] *)
Definition endswith (suffix s : pystr) : bool :=
  startswith (rev suffix) (rev s).

(** [s.strip(c)] for one character [c] *)
Fixpoint lstrip_char (c : N) (s : pystr) : pystr :=
  match s with
  | [] => []
  | x :: rest => if (x =? c)%N then lstrip_char c rest else s
  end.

Definition strip_char (c : N) (s : pystr) : pystr :=
  rev (lstrip_char c (rev (lstrip_char c s))).

(** What the handler answers on its own: [self.send_error(status, message)]. *)
Inductive response := SendError (status : Z) (message : pystr).

Section RunId.

(** [str.isdigit] and [int] on a string are library functions that go by
    the Unicode tables and the interpreter's limit on digits; they are
    left open here, and the properties below say what they assume. *)
Variable isdigit : pystr → bool.
Variable int_of_str : pystr → outcome Z.

(** The method returns the id, or [None] after it has answered 400. *)
Definition _extract_run_id (path suffix : pystr)
  : outcome (option Z) * list response :=
  let token := removeprefix (lit "/results/") path in
  let token :=
    if negb (bool_decide (suffix = [])) && endswith suffix token
    then take (length token - length suffix) token
    else token in
  let token := strip_char 47 token in
  if negb (isdigit token) then
    (Ok None, [SendError 400 (lit "Invalid run id")])
  else
    (run_id ← int_of_str token; Ok (Some run_id), []).

End RunId.

End Handler.

Module HandlerSpec.

Import Handler.

(** [str.isdigit] on an ASCII string: not empty, and digits only. *)
Definition ascii_isdigit (s : pystr) : bool :=
  negb (bool_decide (s = [])) && forallb (λ c, (48 <=? c) && (c <=? 57))%N s.

(** [int] on a string of ASCII digits. *)
Definition ascii_int (s : pystr) : outcome Z :=
  match NumSpec.decimal_value s with
  | Some n => if ascii_isdigit s then Ok (Z.of_N n) else Raise (ValueError [])
  | None => Raise (ValueError [])
  end.

(** What is assumed of the two library functions: on ASCII strings
    [isdigit] holds of the non-empty strings of digits, and [int] reads a
    string of up to 640 digits, which no setting of the interpreter's
    limit refuses, as a decimal number. *)
Definition ascii_library (isdigit : pystr → bool) (int_of_str : pystr → outcome Z)
  : Prop :=
  (∀ s, NumSpec.is_ascii s → isdigit s = ascii_isdigit s)
  ∧ (∀ s n, ascii_isdigit s = true → (length s ≤ 640)%nat →
       NumSpec.decimal_value s = Some n → int_of_str s = Ok (Z.of_N n)).

End HandlerSpec.

(** ** Vocabulary of the further properties

    What the adapters record, what the report can read, and how the text
    of a PDF literal string reads back. *)

Module TextSpec.

(** [str.lower] on one character, as far as the validated alphabet goes. *)
Definition lower_char (c : N) : N :=
  (if (65 <=? c) && (c <=? 90) then c + 32 else c)%N.

(** A character that ends, opens or escapes inside a PDF literal string. *)
Definition is_special (c : N) : bool := ((c =? 92) || (c =? 40) || (c =? 41))%N.

(** Reading the body of a PDF literal string written with the three
    escapes "\\", "\(" and "\)" only: a bare parenthesis, a backslash
    before anything else and a backslash at the end are refused. *)
Fixpoint pdf_unescape (s : pystr) : option pystr :=
  match s with
  | [] => Some []
  | c :: r =>
    if (c =? 92)%N then
      match r with
      | d :: r' => if is_special d then (d ::.) <$> pdf_unescape r' else None
      | [] => None
      end
    else if is_special c then None
    else (c ::.) <$> pdf_unescape r
  end.

End TextSpec.

Module AdapterSpec.

Import Scanner ScannerSpec.

(** The names of the nmap phases for a scan mode, in order. *)
Definition phase_names (scan_mode : pystr) : list pystr :=
  [lit "host_discovery"; lit "port_service_detection"]
  ++ (if bool_decide (scan_mode ∈ [lit "balanced"; lit "deep"])
      then [lit "vulnerability_nse"] else []).

(** The nmap command lines for a scan mode, in order. *)
Definition phase_argvs (nmap_bin host scan_mode : pystr) : list (list pystr) :=
  [[nmap_bin; lit "-sn"; host];
   [nmap_bin; lit "-sV"; lit "--top-ports"; lit "100"; host]]
  ++ (if bool_decide (scan_mode ∈ [lit "balanced"; lit "deep"])
      then [[nmap_bin; lit "-sV"; lit "--script"; lit "vulners"; host]] else []).

(** A phase entry: a dict with its name and the captured output. *)
Definition phase_entry (name : pystr) (phase : pyval) : Prop :=
  ∃ d out, phase = VDict d ∧ d !! lit "phase" = Some (VStr name)
           ∧ d !! lit "stdout" = Some (VStr out).

(** The status of a web-scanner finding and what comes with it. *)
Definition web_finding (finding : gmap pystr pyval) : Prop :=
  (finding !! lit "status" = Some (VStr (lit "skipped"))
   ∧ finding !! lit "binary" = None)
  ∨ (finding !! lit "status" = Some (VStr (lit "simulated"))
     ∧ finding !! lit "binary" = None
     ∧ ∃ checks, finding !! lit "simulated_checks" = Some (VList checks) ∧ checks ≠ [])
  ∨ (finding !! lit "status" = Some (VStr (lit "available"))
     ∧ ∃ path, finding !! lit "binary" = Some (VStr path) ∧ path ≠ []).

(** A PATH lookup. *)
Definition is_which (ev : event) : Prop := ∃ name, ev = EWhich name.

(** Every value [m] returns satisfies [P]. *)
Definition ensures {W A} (P : A → Prop) (m : M (W:=W) A) : Prop :=
  ∀ (s : Sys W) a s', m s = (Ok a, s') → P a.

(** A phase the report can read: a dict whose [stdout] is a string. *)
Definition readable_phase (phase : pyval) : Prop :=
  ∃ d out, phase = VDict d ∧ d !! lit "stdout" = Some (VStr out).

(** An nmap finding the report can read: no phases, or a list of
    readable ones. *)
Definition readable_nmap (finding : gmap pystr pyval) : Prop :=
  finding !! lit "phases" = None
  ∨ ∃ phases, finding !! lit "phases" = Some (VList phases)
              ∧ Forall readable_phase phases.

(** Findings the report can read: every finding is a dict, and the nmap
    one is readable. *)
Definition readable (findings : gmap pystr pyval) : Prop :=
  (∀ tool v, findings !! tool = Some v → ∃ d, v = VDict d)
  ∧ (∀ v, findings !! lit "nmap" = Some v → ∃ d, v = VDict d ∧ readable_nmap d).

(** A machine without any scanner installed. *)
Definition bare_env : Env () := {|
  ip_address := λ _, Ok ();
  urlparse := λ _, Raise (ValueError []);
  which := λ _ w, (None, w);
  subprocess_run := λ _ w, (Raise OtherError, w);
  gethostbyname := λ _ w, (Raise OtherError, w);
  utcnow_isoformat := λ w, (lit "2024-01-01T00:00:00+00:00", w);
|}.

(** A machine with nmap installed on which every URL parses to the
    given host. *)
Definition url_env (host : option pystr) : Env () := {|
  ip_address := λ _, Ok ();
  urlparse := λ _,
    Ok {| scheme := lit "https"; netloc := lit "example.com:8443"; hostname := host |};
  which := λ name w,
    (if bool_decide (name = lit "nmap") then Some (lit "/usr/bin/nmap") else None, w);
  subprocess_run := λ _ w,
    (Ok {| returncode := 0; stdout := lit "443/tcp open https"; stderr := [] |}, w);
  gethostbyname := λ _ w, (Ok (lit "192.0.2.7"), w);
  utcnow_isoformat := λ w, (lit "2024-01-01T00:00:00+00:00", w);
|}.

(** A request whose target is blank. *)
Definition blank_config : ScanConfig := {|
  target := lit "   ";
  target_type := lit "ip";
  scan_mode := lit "quick";
  tools := [lit "nmap"];
|}.

End AdapterSpec.

Module RecordSpec.

Import ScannerSpec.

(** The record the storage returns for the sample scan. *)
Definition stored_scan : App.ScanRecord := {|
  App.scan_id := 1;
  App.target := lit "192.0.2.7";
  App.target_type := lit "ip";
  App.scan_mode := lit "quick";
  App.tools := [lit "zap"; lit "burp"; lit "nmap"];
  App.created_at := lit "2024-01-01T00:00:00";
  App.result := VDict sample_result;
|}.

(** Records whose result has no findings, and is no dict. *)
Definition empty_scan : App.ScanRecord := {|
  App.scan_id := 2;
  App.target := lit "192.0.2.7";
  App.target_type := lit "ip";
  App.scan_mode := lit "quick";
  App.tools := [];
  App.created_at := lit "2024-01-01T00:00:00";
  App.result := VDict ∅;
|}.

Definition broken_scan : App.ScanRecord := {|
  App.scan_id := 3;
  App.target := lit "192.0.2.7";
  App.target_type := lit "ip";
  App.scan_mode := lit "quick";
  App.tools := [];
  App.created_at := lit "2024-01-01T00:00:00";
  App.result := VList [];
|}.

End RecordSpec.

(** * Proofs *)

#[local] Set Warnings "-clear-no-such-hyp".
#[local] Arguments lit : simpl never.

Import NumSpec.

(** [lia] after abstracting the quotient and remainder by 10. *)
Ltac lia10 n :=
  let q := fresh "q" in let r := fresh "r" in
  assert (n = 10 * (n / 10) + n mod 10)%N by (by apply N.div_mod);
  assert (n mod 10 < 10)%N by (by apply N.mod_upper_bound);
  set (q := (n / 10)%N) in *; set (r := (n mod 10)%N) in *;
  clearbody q r; cbv beta; lia.

(** Two different literals. *)
Ltac lit_neq := let H := fresh in intros H; vm_compute in H; discriminate H.

Lemma bind_Ok {A B} (a : A) (f : A → outcome B) : (Ok a ≫= f) = f a.
Proof. reflexivity. Qed.

Lemma bind_Raise {A B} e (f : A → outcome B) : (Raise e ≫= f) = Raise e.
Proof. reflexivity. Qed.

Lemma Ok_inj {A} (a b : A) : Ok a = Ok b → a = b.
Proof. by intros [= ->]. Qed.

(** ** Facts about the string primitives *)

(** ** Facts about the string primitives *)

Section StringFacts.
Implicit Types (s t p sub : pystr) (c : N).

Lemma rev_reverse {A} (l : list A) : rev l = reverse l.
Proof. apply rev_alt. Qed.

Lemma startswith_spec p s : startswith p s = true ↔ ∃ t, s = p ++ t.
Proof.
  revert s. induction p as [|a p IH]; intros s; simpl.
  - split; eauto.
  - destruct s as [|b s].
    + split; [done | intros [t Ht]; done].
    + rewrite andb_true_iff, N.eqb_eq, IH. split.
      * intros [-> [t ->]]. eauto.
      * intros [t Ht]. simplify_eq. eauto.
Qed.

Lemma str_in_spec sub s : str_in sub s = true ↔ ∃ a b, s = a ++ sub ++ b.
Proof.
  induction s as [|c s IH]; simpl.
  - rewrite orb_false_r, startswith_spec. split.
    + intros [t Ht]. exists [], t. done.
    + intros (a & b & H). symmetry in H.
      apply app_eq_nil in H as [-> H]. exists b. done.
  - rewrite orb_true_iff, startswith_spec, IH. split.
    + intros [[t Ht] | (a & b & ->)].
      * exists [], t. done.
      * exists (c :: a), b. done.
    + intros (a & b & H). destruct a as [|x a].
      * left. exists b. done.
      * right. simplify_eq/=. eauto.
Qed.

Lemma lstrip_spec s :
  ∃ ws, s = ws ++ lstrip s ∧ Forall (λ c, isspace c = true) ws.
Proof.
  induction s as [|c s (ws & IH & Hws)]; simpl.
  - exists []. done.
  - destruct (isspace c) eqn:Hc.
    + exists (c :: ws). split; [simpl; congruence | by constructor].
    + exists []. done.
Qed.

Lemma lstrip_head s c t : lstrip s = c :: t → isspace c = false.
Proof.
  induction s as [|x s IH]; simpl; [done|].
  destruct (isspace x) eqn:Hx; [done|]. intros; simplify_eq. done.
Qed.

Lemma strip_spec s :
  ∃ ws1 ws2, s = ws1 ++ strip s ++ ws2
    ∧ Forall (λ c, isspace c = true) ws1 ∧ Forall (λ c, isspace c = true) ws2.
Proof.
  destruct (lstrip_spec s) as (ws1 & H1 & Hw1).
  destruct (lstrip_spec (rev (lstrip s))) as (ws2 & H2 & Hw2).
  exists ws1, (rev ws2). split; [|split; [done|]].
  - rewrite H1 at 1. f_equal. unfold strip, rstrip.
    rewrite <- rev_app_distr, <- H2, rev_involutive. done.
  - by apply Forall_rev.
Qed.

(** The last character of a stripped string is no whitespace. *)
Lemma strip_last s c : last (strip s) = Some c → isspace c = false.
Proof.
  unfold strip, rstrip. rewrite rev_reverse, last_reverse.
  destruct (lstrip (rev (lstrip s))) eqn:H; simpl; [done|].
  intros ?; simplify_eq. eapply lstrip_head; eauto.
Qed.

Lemma strip_head s c t : strip s = c :: t → isspace c = false.
Proof.
  destruct (lstrip_spec (rev (lstrip s))) as (ws & H & Hws).
  unfold strip, rstrip. intros Hs.
  assert (lstrip s = (c :: t) ++ rev ws) as Hl.
  { rewrite <- Hs, <- rev_app_distr, <- H, rev_involutive. done. }
  eapply lstrip_head. exact Hl.
Qed.

Lemma space_prefix_split ws t a c r :
  Forall (λ c, isspace c = true) ws → isspace c = false →
  ws ++ t = a ++ c :: r → ∃ a', a = ws ++ a' ∧ t = a' ++ c :: r.
Proof.
  intros Hws Hc. revert a. induction Hws as [|w ws Hw _ IH]; intros a H.
  - exists a. done.
  - destruct a as [|x a]; simplify_eq/=; [congruence|].
    destruct (IH a) as (a' & -> & ->); [done|]. eauto.
Qed.

Lemma space_suffix_split ws t b c r :
  Forall (λ c, isspace c = true) ws → isspace c = false →
  t ++ ws = r ++ c :: b → ∃ b', b = b' ++ ws ∧ t = r ++ c :: b'.
Proof.
  intros Hws Hc H.
  apply (f_equal (@rev N)) in H. rewrite !rev_app_distr in H. simpl in H.
  rewrite <- app_assoc in H. simpl in H.
  destruct (space_prefix_split (rev ws) (rev t) (rev b) c (rev r))
    as (a' & Hb & Ht); [by apply Forall_rev | done | done |].
  exists (rev a'). split.
  - apply (f_equal (@rev N)) in Hb. rewrite rev_app_distr, !rev_involutive in Hb. done.
  - apply (f_equal (@rev N)) in Ht.
    rewrite rev_app_distr, rev_involutive in Ht. simpl in Ht.
    rewrite rev_involutive, <- app_assoc in Ht. done.
Qed.

(** Stripping a line does not change whether it contains a word that
    neither begins nor ends with whitespace. *)
Lemma str_in_strip sub s x y :
  head sub = Some x → last sub = Some y →
  isspace x = false → isspace y = false →
  str_in sub (strip s) = str_in sub s.
Proof.
  intros Hx Hy Hsx Hsy.
  destruct (strip_spec s) as (ws1 & ws2 & Hs & Hw1 & Hw2).
  generalize dependent (strip s). intros core Hs.
  apply eq_true_iff_eq. rewrite !str_in_spec. split.
  - intros (a & b & Hab). exists (ws1 ++ a), (b ++ ws2).
    rewrite Hs, Hab, <- !app_assoc. done.
  - intros (a & b & Hab).
    destruct sub as [|x' sub']; [done|]. simpl in Hx. injection Hx as ->.
    destruct (proj1 (last_Some (x :: sub') y) Hy) as [m Hm].
    subst s. simpl in Hab.
    destruct (space_prefix_split ws1 _ a x (sub' ++ b) Hw1 Hsx Hab) as (a' & -> & Hs').
    assert (core ++ ws2 = (a' ++ m) ++ y :: b) as Hs''.
    { rewrite Hs'. rewrite (app_comm_cons sub' b x), Hm, <- !app_assoc. done. }
    destruct (space_suffix_split ws2 _ b y (a' ++ m) Hw2 Hsy Hs'') as (b' & -> & Hfin).
    exists a', b'. rewrite Hfin. simpl. rewrite (app_comm_cons sub' b' x), Hm, <- !app_assoc. done.
Qed.

End StringFacts.

(** ** Decimal numbers and encodings *)

Section NumberFacts.

Lemma digits_rev_length fuel n : (length (digits_rev fuel n) ≤ fuel)%nat.
Proof.
  revert n. induction fuel as [|f IH]; intros n; cbn [digits_rev]; [simpl; lia|].
  destruct (n <? 10)%N; cbn [length]; [lia|]. specialize (IH (n / 10)%N). lia.
Qed.

Lemma digits_rev_digit fuel n :
  Forall (λ c, (48 ≤ c ≤ 57)%N) (digits_rev fuel n).
Proof.
  revert n. induction fuel as [|f IH]; intros n; cbn [digits_rev]; [constructor|].
  destruct (N.ltb_spec n 10).
  - constructor; [cbv beta; lia | constructor].
  - constructor; [|apply IH].
    lia10 n.
Qed.

Lemma digits_rev_value fuel n :
  (N.size_nat n ≤ fuel)%nat → (0 < fuel)%nat → value_rev (digits_rev fuel n) = n.
Proof.
  revert n. induction fuel as [|f IH]; intros n Hsz Hpos; [lia|].
  cbn [digits_rev]. destruct (N.ltb_spec n 10).
  - cbn [value_rev]. lia.
  - cbn [value_rev]. rewrite IH.
    + lia10 n.
    + assert (n / 10 ≤ N.div2 n)%N as Hle.
      { rewrite N.div2_div. apply N.div_le_compat_l. lia. }
      assert (N.size_nat (n / 10) ≤ N.size_nat (N.div2 n))%nat.
      { destruct (n / 10)%N eqn:E1; [simpl; lia|].
        destruct (N.div2 n) eqn:E2; [lia|]. simpl.
        clear -Hle. revert p0 Hle. induction p; intros [q|q|] Hle; simpl; try lia.
        all: try (specialize (IHp q); lia).
        all: destruct p; simpl; lia. }
      destruct n as [|[p|p|]]; simpl in *; lia.
    + destruct f; [|lia]. destruct n as [|[p|p|]]; simpl in *; try lia.
      all: destruct p; simpl in *; lia.
Qed.

Lemma digits_rev_short fuel n k :
  (n < 10 ^ N.of_nat (S k))%N → (length (digits_rev fuel n) ≤ S k)%nat.
Proof.
  revert n k. induction fuel as [|f IH]; intros n k Hn; cbn [digits_rev]; [simpl; lia|].
  destruct (N.ltb_spec n 10); cbn [length]; [lia|].
  destruct k as [|k].
  - change (10 ^ N.of_nat 1)%N with 10%N in Hn. lia.
  - apply le_n_S, IH.
    rewrite Nat2N.inj_succ, N.pow_succ_r' in Hn.
    apply N.Div0.div_lt_upper_bound. done.
Qed.

Lemma decimal_value_snoc s c n :
  decimal_value s = Some n → (48 ≤ c ≤ 57)%N →
  decimal_value (s ++ [c]) = Some (10 * n + (c - 48))%N.
Proof.
  unfold decimal_value. intros Hs Hc. rewrite foldl_app, Hs. cbn.
  destruct (N.leb_spec 48 c), (N.leb_spec c 57); try lia. done.
Qed.

Lemma decimal_value_rev ds :
  Forall (λ c, (48 ≤ c ≤ 57)%N) ds → decimal_value (rev ds) = Some (value_rev ds).
Proof.
  induction 1 as [|d ds Hd _ IH]; [done|].
  cbn [rev value_rev]. rewrite (decimal_value_snoc _ _ _ IH Hd). f_equal. lia.
Qed.

Lemma decimal_value_zeros k s :
  decimal_value (replicate k 48%N ++ s) = decimal_value s.
Proof.
  unfold decimal_value. rewrite foldl_app. f_equal.
  induction k as [|k IH]; [done|]. cbn [replicate foldl]. exact IH.
Qed.

(** [str(n)] reads back as [n]. *)
Lemma str_of_N_value n : decimal_value (str_of_N n) = Some n.
Proof.
  unfold str_of_N. rewrite decimal_value_rev by apply digits_rev_digit.
  f_equal. apply digits_rev_value; lia.
Qed.

Lemma str_of_N_digits n : Forall (λ c, (48 ≤ c ≤ 57)%N) (str_of_N n).
Proof. unfold str_of_N. apply Forall_rev, digits_rev_digit. Qed.

Lemma str_of_N_nonempty n : str_of_N n ≠ [].
Proof.
  unfold str_of_N. cbn [digits_rev]. destruct (n <? 10)%N; cbn [rev]; intros H.
  all: by apply app_eq_nil in H as [_ ?].
Qed.

Lemma str_of_N_length n k :
  (n < 10 ^ N.of_nat (S k))%N → (length (str_of_N n) ≤ S k)%nat.
Proof. intros. unfold str_of_N. rewrite length_rev. by apply digits_rev_short. Qed.

Lemma str_of_N_length_bits n : (length (str_of_N n) ≤ S (N.size_nat n))%nat.
Proof. unfold str_of_N. rewrite length_rev. apply digits_rev_length. Qed.

Lemma digits_ascii s : Forall (λ c, (48 ≤ c ≤ 57)%N) s → is_ascii s.
Proof. intros H. eapply Forall_impl; [exact H|]. intros c ?. cbv beta in *. lia. Qed.

(** A ten-digit cross-reference offset. *)
Lemma format_010d_small n :
  (N.of_nat n < 10 ^ 10)%N →
  length (format_010d n) = 10%nat
  ∧ Forall (λ c, (48 ≤ c ≤ 57)%N) (format_010d n)
  ∧ decimal_value (format_010d n) = Some (N.of_nat n).
Proof.
  intros Hn. unfold format_010d, str_of_nat.
  pose proof (str_of_N_length (N.of_nat n) 9 Hn) as Hl.
  split; [|split].
  - rewrite length_app, length_replicate. lia.
  - apply Forall_app. split; [|apply str_of_N_digits].
    apply Forall_replicate. lia.
  - rewrite decimal_value_zeros. apply str_of_N_value.
Qed.

End NumberFacts.

Section EncodingFacts.

Lemma encode_ascii_ok s : is_ascii s → encode_ascii s = Ok (encode_latin1_replace s).
Proof.
  induction 1 as [|c s Hc _ IH]; [done|].
  cbn [encode_ascii]. destruct (N.ltb_spec c 128); [|lia].
  unfold encode_latin1_replace. cbn [fmap list_fmap].
  destruct (Byte.of_N c) as [b|] eqn:Hb.
  - rewrite IH. done.
  - apply Byte.of_N_None_iff in Hb. lia.
Qed.

Lemma encode_latin1_length s : length (encode_latin1_replace s) = length s.
Proof. apply length_fmap. Qed.

Lemma encode_latin1_app s t :
  encode_latin1_replace (s ++ t) = encode_latin1_replace s ++ encode_latin1_replace t.
Proof. apply fmap_app. Qed.

Lemma is_ascii_app s t : is_ascii s → is_ascii t → is_ascii (s ++ t).
Proof. intros. by apply Forall_app. Qed.

Lemma is_ascii_check s : forallb (λ c, c <? 128)%N s = true → is_ascii s.
Proof.
  rewrite forallb_forall. intros H. apply List.Forall_forall. intros c Hc.
  apply N.ltb_lt. by apply H.
Qed.

End EncodingFacts.

(** ** scanner.py *)

Module ScannerFacts.

Import Re Scanner ScannerSpec.

(** *** The trace of a scan *)

Section TraceFacts.
Context {W : Type} (env : Env W).

Lemma only_external_ret {A} (a : A) : only_external (ret (W:=W) a).
Proof. intros s r s' [= <- <-]. exists []. by rewrite app_nil_r. Qed.

Lemma only_external_lift {A} (o : outcome A) : only_external (lift (W:=W) o).
Proof. intros s r s' [= <- <-]. exists []. by rewrite app_nil_r. Qed.

Lemma invoked_app evs1 evs2 : invoked (evs1 ++ evs2) = invoked evs1 ++ invoked evs2.
Proof. apply omap_app. Qed.

Lemma only_external_bind {A B} (m : M (W:=W) A) (f : A → M (W:=W) B) :
  only_external m → (∀ a, only_external (f a)) → only_external (bind m f).
Proof.
  intros Hm Hf s r s'. unfold bind.
  destruct (m s) as [[a|e] s1] eqn:E1.
  - intros E2. destruct (Hm _ _ _ E1) as (evs1 & H1 & I1).
    destruct (Hf a _ _ _ E2) as (evs2 & H2 & I2).
    exists (evs1 ++ evs2). rewrite H2, H1, <- app_assoc, invoked_app, I1, I2. done.
  - intros [= <- <-]. exact (Hm _ _ _ E1).
Qed.

Lemma only_external_call {A} ev (f : W → outcome A * W) :
  is_external ev = true → only_external (call ev f).
Proof.
  intros Hev s r s'. unfold call. destruct (f (world s)) as [r' w].
  intros [= <- <-]. exists [ev]. split; [done|].
  destruct ev; try done.
Qed.

Lemma only_external_try {A} (m : M (W:=W) A) handler :
  only_external m → (∀ e h, handler e = Some h → only_external h) →
  only_external (try_except m handler).
Proof.
  intros Hm Hh s r s'. unfold try_except.
  destruct (m s) as [[a|e] s1] eqn:E1.
  - intros [= <- <-]. exact (Hm _ _ _ E1).
  - destruct (Hm _ _ _ E1) as (evs1 & H1 & I1).
    destruct (handler e) as [h|] eqn:Eh.
    + intros E2. destruct (Hh e h Eh _ _ _ E2) as (evs2 & H2 & I2).
      exists (evs1 ++ evs2). rewrite H2, H1, <- app_assoc, invoked_app, I1, I2. done.
    + intros [= <- <-]. eauto.
Qed.

Lemma only_external_for_each {A B} (body : A → B → M (W:=W) A) xs acc :
  (∀ a x, only_external (body a x)) → only_external (for_each_M body xs acc).
Proof.
  intros Hb. revert acc. induction xs as [|x xs IH]; intros acc; cbn [for_each_M].
  - apply only_external_ret.
  - apply only_external_bind; [apply Hb | apply IH].
Qed.

Lemma only_external_which name : only_external (shutil_which env name).
Proof. by apply only_external_call. Qed.

Lemma only_external_run_command cmd : only_external (_run_command env cmd).
Proof.
  apply only_external_try.
  - apply only_external_bind; [by apply only_external_call|].
    intros. apply only_external_ret.
  - intros e h. destruct e; try done. intros [= <-]. apply only_external_ret.
Qed.

Lemma only_external_resolve target : only_external (resolve_target env target).
Proof.
  apply only_external_try.
  - by apply only_external_call.
  - intros e h. destruct e; try done. intros [= <-]. apply only_external_ret.
Qed.

Lemma only_external_phases nmap_bin target scan_mode :
  only_external (run_nmap_phases env nmap_bin target scan_mode).
Proof.
  unfold run_nmap_phases. cbv zeta.
  apply only_external_bind.
  - apply only_external_for_each. intros phases [phase cmd].
    apply only_external_bind; [apply only_external_run_command|].
    intros. apply only_external_ret.
  - intros phases. apply only_external_bind; [apply only_external_resolve|].
    intros. apply only_external_ret.
Qed.

Lemma only_external_nmap target target_type scan_mode :
  only_external (run_nmap env target target_type scan_mode).
Proof.
  unfold run_nmap. apply only_external_bind; [apply only_external_which|].
  intros [[|c b]|]; try apply only_external_ret.
  cbv zeta. case_bool_decide.
  - apply only_external_bind; [apply only_external_lift|].
    intros parsed. destruct (hostname parsed) as [[|h ost]|];
      first [apply only_external_ret | apply only_external_phases].
  - apply only_external_phases.
Qed.

Lemma only_external_zap target target_type scan_mode :
  only_external (run_zap env target target_type scan_mode).
Proof.
  unfold run_zap. destruct (negb _); [apply only_external_ret|].
  apply only_external_bind.
  - apply only_external_bind; [apply only_external_which|].
    intros first. destruct (truthy first);
      [apply only_external_ret | apply only_external_which].
  - intros [[|c b]|]; apply only_external_ret.
Qed.

Lemma only_external_arachni target target_type scan_mode :
  only_external (run_arachni env target target_type scan_mode).
Proof.
  unfold run_arachni. destruct (negb _); [apply only_external_ret|].
  apply only_external_bind; [apply only_external_which|].
  intros [[|c b]|]; apply only_external_ret.
Qed.

End TraceFacts.

Section OrchestratorFacts.
Context {W : Type} (env : Env W).

(** One guarded adapter call: the adapter is entered exactly when its tool
    is requested, and then its finding is stored under the tool's name. *)
Lemma run_adapter_spec config tool adapter findings (s : Sys W) r s' :
  only_external adapter →
  run_adapter config tool adapter findings s = (r, s') →
  ∃ evs, trace s' = trace s ++ evs
    ∧ invoked evs = tool_requested config tool
    ∧ ∀ findings', r = Ok findings' →
        dom findings' = list_to_set (tool_requested config tool) ∪ dom findings.
Proof.
  intros Hext. unfold run_adapter, tool_requested. case_bool_decide.
  - unfold bind, emit.
    destruct (adapter _) as [[f|e] s1] eqn:E.
    + intros [= <- <-]. destruct (Hext _ _ _ E) as (evs & Ht & Hi).
      exists (EAdapter tool :: evs). cbn [trace] in Ht.
      split; [by rewrite Ht, <- app_assoc|]. split.
      * change (invoked (EAdapter tool :: evs)) with (tool :: invoked evs).
        by rewrite Hi.
      * intros ? [= <-]. rewrite dom_insert_L. set_solver.
    + intros [= <- <-]. destruct (Hext _ _ _ E) as (evs & Ht & Hi).
      exists (EAdapter tool :: evs). cbn [trace] in Ht.
      split; [by rewrite Ht, <- app_assoc|]. split; [|done].
      change (invoked (EAdapter tool :: evs)) with (tool :: invoked evs).
      by rewrite Hi.
  - intros [= <- <-]. exists []. rewrite app_nil_r. split; [done|]. split; [done|].
    intros ? [= <-]. set_solver.
Qed.

Lemma utc_now_spec (s : Sys W) :
  ∃ t w, utc_now env s = (Ok t, {| world := w; trace := trace s ++ [ENow] |}).
Proof.
  unfold utc_now, call. destruct (utcnow_isoformat env (world s)) as [t w]. eauto.
Qed.

(** What a returning scan has done and what it returns. *)
Lemma run_scan_spec config (s : Sys W) result s' :
  run_scan env config s = (Ok result, s') →
  ∃ evs findings,
    trace s' = trace s ++ evs
    ∧ invoked evs = tool_requested config (lit "nmap")
                    ++ tool_requested config (lit "zap")
                    ++ tool_requested config (lit "arachni")
    ∧ result !! lit "findings" = Some (VDict findings)
    ∧ result !! lit "tools" = Some (VList (VStr <$> tools config))
    ∧ dom findings = list_to_set (invoked evs).
Proof.
  unfold run_scan. unfold bind at 1.
  destruct (utc_now_spec s) as (t0 & w0 & ->).
  unfold bind at 1. unfold lift at 1.
  destruct (validate_target env _ _) as [target|e]; [|discriminate].
  cbv zeta. unfold bind at 1.
  destruct (run_adapter _ _ _ _ _) as [[f1|e] s1] eqn:E1; [|discriminate].
  unfold bind at 1.
  destruct (run_adapter _ _ _ _ s1) as [[f2|e] s2] eqn:E2; [|discriminate].
  unfold bind at 1.
  destruct (run_adapter _ _ _ _ s2) as [[f3|e] s3] eqn:E3; [|discriminate].
  unfold bind at 1.
  destruct (utc_now_spec s3) as (t1 & w1 & ->).
  unfold ret. intros [= <- <-].
  destruct (run_adapter_spec _ _ _ _ _ _ _ (only_external_nmap env _ _ _) E1)
    as (ev1 & T1 & I1 & D1).
  destruct (run_adapter_spec _ _ _ _ _ _ _ (only_external_zap env _ _ _) E2)
    as (ev2 & T2 & I2 & D2).
  destruct (run_adapter_spec _ _ _ _ _ _ _ (only_external_arachni env _ _ _) E3)
    as (ev3 & T3 & I3 & D3).
  cbn [trace] in *.
  exists ([ENow] ++ ev1 ++ ev2 ++ ev3 ++ [ENow]), f3.
  split; [rewrite T3, T2, T1, <- !app_assoc; done|].
  assert (invoked ([ENow] ++ ev1 ++ ev2 ++ ev3 ++ [ENow])
          = tool_requested config (lit "nmap") ++ tool_requested config (lit "zap")
            ++ tool_requested config (lit "arachni")) as Hinv.
  { rewrite !invoked_app, I1, I2, I3. cbn. by rewrite app_nil_r. }
  split; [exact Hinv|].
  split; [vm_compute; reflexivity|].
  split; [set (x := VStr <$> tools config); vm_compute; reflexivity|].
  rewrite Hinv, (D3 _ eq_refl), (D2 _ eq_refl), (D1 _ eq_refl).
  rewrite !list_to_set_app_L. set_solver.
Qed.

Lemma tool_requested_filter config :
  tool_requested config (lit "nmap") ++ tool_requested config (lit "zap")
    ++ tool_requested config (lit "arachni")
  = List.filter (λ t, bool_decide (t ∈ tools config)) recognized.
Proof.
  unfold tool_requested, recognized. cbn [List.filter].
  repeat case_bool_decide; reflexivity.
Qed.

Lemma bind_map_result {A B C} (m : M (W:=W) A) (f : A → M (W:=W) B) (g : B → C)
    (h : A → M (W:=W) C) s :
  (∀ a s1, h a s1 = map_result g (f a s1)) →
  bind m h s = map_result g (bind m f s).
Proof.
  intros H. unfold bind. destruct (m s) as [[a|e] s1]; [apply H | done].
Qed.

Lemma run_adapter_ext config config' tool (adapter : M (W:=W) _) findings :
  (tool ∈ tools config' ↔ tool ∈ tools config) →
  run_adapter config' tool adapter findings = run_adapter config tool adapter findings.
Proof.
  intros H. unfold run_adapter. by rewrite (bool_decide_ext _ _ H).
Qed.

(** Names outside nmap, zap and arachni change nothing but the echoed
    [tools] entry of the result. *)
Lemma run_scan_unrecognized config config' (s : Sys W) :
  target config' = target config →
  target_type config' = target_type config →
  scan_mode config' = scan_mode config →
  (∀ tool, tool ∈ recognized → tool ∈ tools config' ↔ tool ∈ tools config) →
  run_scan env config' s
  = map_result (λ result, <[lit "tools" := VList (VStr <$> tools config')]> result)
      (run_scan env config s).
Proof.
  intros Ht Hk Hm Htools. unfold run_scan. rewrite Ht, Hk, Hm.
  do 6 (try rewrite (run_adapter_ext config config')
                by (apply Htools; unfold recognized; set_solver);
          apply bind_map_result; intros ? ?).
  unfold ret, map_result. cbn [fst snd].
  refine (f_equal (λ x, (Ok x, _)) _).
  cbn [list_to_map foldr uncurry fst snd].
  set (T := VList (VStr <$> tools config)). set (T' := VList (VStr <$> tools config')).
  rewrite (insert_insert_ne _ (lit "tools") (lit "target")) by lit_neq.
  rewrite (insert_insert_ne _ (lit "tools") (lit "target_type")) by lit_neq.
  rewrite (insert_insert_ne _ (lit "tools") (lit "scan_mode")) by lit_neq.
  rewrite insert_insert_eq. reflexivity.
Qed.






End OrchestratorFacts.

(** *** The domain pattern *)

Section RegexFacts.
Implicit Types (s t : pystr) (i n lo m : nat) (k : pos → bool) (p : N → bool).

Lemma one_true p i s k :
  one p (i, s) k = true ↔ ∃ c t, s = c :: t ∧ p c = true ∧ k (S i, t) = true.
Proof.
  unfold one. destruct s as [|c t].
  - split; [done | intros (? & ? & ? & _); done].
  - rewrite andb_true_iff. split.
    + intros [? ?]. eauto.
    + intros (? & ? & [= <- <-] & ? & ?). done.
Qed.

(** Repeating a one-character class: some [m] characters of the class,
    with [lo ≤ m ≤ n]. *)
Lemma rep_one p n : ∀ lo i s k,
  rep_loop (one p) n lo (i, s) k = true ↔
  ∃ m, (lo ≤ m ≤ n)%nat ∧ (m ≤ length s)%nat
       ∧ forallb p (take m s) = true ∧ k ((i + m)%nat, drop m s) = true.
Proof.
  induction n as [|n IH]; intros lo i s k; cbn [rep_loop].
  - rewrite orb_false_r. split.
    + destruct lo; [|done]. intros Hk. exists 0%nat.
      rewrite Nat.add_0_r. cbn. repeat split; try lia; done.
    + intros (m & Hm & _ & _ & Hk). assert (m = 0)%nat as -> by lia.
      assert (lo = 0)%nat as -> by lia. rewrite Nat.add_0_r in Hk. done.
  - rewrite orb_true_iff, one_true. split.
    + intros [Hk | (c & t & -> & Hc & Hrep)].
      * destruct lo; [|done]. exists 0%nat.
        rewrite Nat.add_0_r. cbn. repeat split; try lia; done.
      * apply IH in Hrep as (m & Hm & Hlen & Hall & Hk).
        exists (S m). cbn [take drop forallb length].
        rewrite Hc, Hall. replace (i + S m)%nat with (S i + m)%nat by lia.
        repeat split; try lia; done.
    + intros (m & Hm & Hlen & Hall & Hk). destruct m as [|m].
      * left. assert (lo = 0)%nat as -> by lia. rewrite Nat.add_0_r in Hk. done.
      * right. destruct s as [|c t]; [cbn in Hlen; lia|].
        cbn [take drop forallb length] in *. apply andb_true_iff in Hall as [Hc Hall].
        exists c, t. split; [done|]. split; [done|].
        apply IH. exists m. replace (S i + m)%nat with (i + S m)%nat by lia.
        repeat split; try lia; done.
Qed.

Lemma in_letter c : in_ranges letter c = true ↔ is_letter c.
Proof.
  unfold in_ranges, letter, is_letter. cbn [existsb].
  rewrite !orb_true_iff, !andb_true_iff, !N.leb_le. intuition lia.
Qed.

Lemma in_ldh c : in_ranges letter_digit_hyphen c = true ↔ is_ldh c.
Proof.
  unfold in_ranges, letter_digit_hyphen, is_ldh, is_letter. cbn [existsb].
  rewrite !orb_true_iff, !andb_true_iff, !N.leb_le. intuition lia.
Qed.

Lemma forallb_Forall_iff {A} (f : A → bool) (P : A → Prop) (l : list A) :
  (∀ x, f x = true ↔ P x) → forallb f l = true ↔ Forall P l.
Proof.
  intros H. induction l as [|x l IH]; cbn [forallb].
  - split; [constructor | done].
  - rewrite andb_true_iff, H, IH, Forall_cons. done.
Qed.

(** One label and its dot. *)
Lemma run_label i s k :
  run (Cat (Rep (Cls letter_digit_hyphen) 1 (Some 63%nat)) (Chr 46)) (i, s) k = true ↔
  ∃ label rest, s = label ++ 46%N :: rest ∧ label_ok label
    ∧ k ((i + length label + 1)%nat, rest) = true.
Proof.
  cbn [run]. rewrite rep_one. split.
  - intros (m & Hm & Hlen & Hall & Hdot).
    apply one_true in Hdot as (c & t & Hs & Hc & Hk).
    apply N.eqb_eq in Hc as ->.
    exists (take m s), t. split; [|split].
    + rewrite <- Hs. by rewrite take_drop.
    + split; [rewrite length_take; lia|].
      by apply (forallb_Forall_iff _ _ _ in_ldh).
    + rewrite length_take, Nat.min_l by lia.
      replace (i + m + 1)%nat with (S (i + m)) by lia. done.
  - intros (label & rest & -> & [Hlen Hall] & Hk).
    exists (length label). rewrite length_app, take_app_length, drop_app_length.
    split; [lia|]. split; [lia|]. split.
    + by apply (forallb_Forall_iff _ _ _ in_ldh).
    + apply one_true. exists 46%N, rest. split; [done|]. split; [done|].
      replace (S (i + length label)) with (i + length label + 1)%nat by lia. done.
Qed.

Lemma dotted_cons label labels :
  dotted (label :: labels) = label ++ 46%N :: dotted labels.
Proof. unfold dotted. cbn. by rewrite <- app_assoc. Qed.

(** One or more labels, each with its dot. *)
Lemma rep_labels n : ∀ lo i s k,
  rep_loop (run (Cat (Rep (Cls letter_digit_hyphen) 1 (Some 63%nat)) (Chr 46)))
    n lo (i, s) k = true ↔
  ∃ labels rest, (lo ≤ length labels ≤ n)%nat ∧ s = dotted labels ++ rest
    ∧ Forall label_ok labels
    ∧ k ((i + length (dotted labels))%nat, rest) = true.
Proof.
  induction n as [|n IH]; intros lo i s k; cbn [rep_loop].
  - rewrite orb_false_r. split.
    + destruct lo; [|done]. intros Hk. exists [], s.
      cbn. rewrite Nat.add_0_r. repeat split; try lia; done.
    + intros (labels & rest & Hl & -> & _ & Hk).
      destruct labels; [|cbn in Hl; lia]. destruct lo; [|cbn in Hl; lia].
      cbn in Hk. rewrite Nat.add_0_r in Hk. done.
  - rewrite orb_true_iff, run_label. split.
    + intros [Hk | (label & rest & -> & Hok & Hrep)].
      * destruct lo; [|done]. exists [], s.
        cbn. rewrite Nat.add_0_r. repeat split; try lia; done.
      * apply IH in Hrep as (labels & rest' & Hl & -> & Hall & Hk).
        exists (label :: labels), rest'. rewrite dotted_cons.
        split; [cbn; lia|]. split; [by rewrite <- app_assoc|].
        split; [by constructor|].
        rewrite length_app. cbn [length].
        replace (i + (length label + S (length (dotted labels))))%nat
          with (i + length label + 1 + length (dotted labels))%nat by lia. done.
    + intros (labels & rest & Hl & -> & Hall & Hk). destruct labels as [|label labels].
      * left. destruct lo; [|cbn in Hl; lia]. cbn in Hk.
        rewrite Nat.add_0_r in Hk. done.
      * right. apply Forall_cons in Hall as [Hok Hall].
        exists label, (dotted labels ++ rest). rewrite dotted_cons.
        split; [by rewrite <- app_assoc|]. split; [done|].
        apply IH. exists labels, rest. cbn in Hl.
        split; [lia|]. split; [done|]. split; [done|].
        rewrite dotted_cons, length_app in Hk. cbn [length] in Hk.
        replace (i + length label + 1 + length (dotted labels))%nat
          with (i + (length label + S (length (dotted labels))))%nat by lia. done.
Qed.

Lemma run_eol i s :
  run Eol (i, s) (λ _, true) = true ↔ s = [] ∨ s = [10%N].
Proof.
  cbn [run snd]. destruct s as [|c [|d t]].
  - split; [by left | done].
  - destruct (decide (c = 10%N)) as [->|Hc].
    + split; [by right | done].
    + split; [|intros [?|[= ?]]; done].
      destruct c as [|p]; [done|].
      do 4 (destruct p as [p|p|]; try done).
  - split; [|intros [?|?]; done].
    destruct c as [|p]; [done|]. do 4 (destruct p as [p|p|]; try done).
Qed.

Lemma run_length_check s :
  run (Cat (Rep Any 1 (Some 253%nat)) Eol) (0%nat, s) (λ _, true) = true ↔
  ∃ m, (1 ≤ m ≤ 253)%nat ∧ (m ≤ length s)%nat
       ∧ forallb (λ c, negb (c =? 10)%N) (take m s) = true
       ∧ (drop m s = [] ∨ drop m s = [10%N]).
Proof.
  change (run (Cat (Rep Any 1 (Some 253%nat)) Eol) (0%nat, s) (λ _, true))
    with (rep_loop (one (λ c, negb (c =? 10)%N)) 253 1 (0%nat, s)
            (λ st, run Eol st (λ _, true))).
  rewrite rep_one. split.
  - intros (m & ? & ? & ? & He). apply run_eol in He. eauto 10.
  - intros (m & ? & ? & ? & He). apply (run_eol (0 + m)) in He. eauto 10.
Qed.

Lemma run_tld i s :
  run (Cat (Rep (Cls letter) 2 (Some 63%nat)) Eol) (i, s) (λ _, true) = true ↔
  ∃ m, (2 ≤ m ≤ 63)%nat ∧ (m ≤ length s)%nat
       ∧ Forall is_letter (take m s)
       ∧ (drop m s = [] ∨ drop m s = [10%N]).
Proof.
  change (run (Cat (Rep (Cls letter) 2 (Some 63%nat)) Eol) (i, s) (λ _, true))
    with (rep_loop (one (in_ranges letter)) 63 2 (i, s)
            (λ st, run Eol st (λ _, true))).
  rewrite rep_one. split.
  - intros (m & ? & ? & Ha & He). apply run_eol in He.
    apply (forallb_Forall_iff _ _ _ in_letter) in Ha. eauto 10.
  - intros (m & ? & ? & Ha & He). apply (run_eol (i + m)) in He.
    apply (forallb_Forall_iff _ _ _ in_letter) in Ha. eauto 10.
Qed.

Lemma matches_domain_unfold s :
  matches DOMAIN_PATTERN s
  = run (Cat (Rep Any 1 (Some 253%nat)) Eol) (0%nat, s) (λ _, true)
    && (negb (one (λ x, (x =? 45)%N) (0%nat, s) (λ _, true))
        && rep_loop
             (run (Cat (Rep (Cls letter_digit_hyphen) 1 (Some 63%nat)) (Chr 46)))
             (1 + length s) 1 (0%nat, s)
             (λ st, run (Cat (Rep (Cls letter) 2 (Some 63%nat)) Eol) st (λ _, true))).
Proof. reflexivity. Qed.

Lemma dotted_length labels : (length labels ≤ length (dotted labels))%nat.
Proof.
  induction labels as [|l labels IH]; [cbn; lia|].
  rewrite dotted_cons, length_app. cbn [length]. lia.
Qed.

Lemma dotted_no_newline labels :
  Forall label_ok labels → Forall (λ c, c ≠ 10%N) (dotted labels).
Proof.
  induction 1 as [|l labels [_ Hl] _ IH]; [constructor|].
  rewrite dotted_cons. apply Forall_app. split; [|constructor; [done|done]].
  eapply Forall_impl; [exact Hl|]. unfold is_ldh, is_letter. intros c ?. lia.
Qed.

Lemma drop_nil_length {A} (l : list A) m : drop m l = [] → (length l ≤ m)%nat.
Proof. intros H. apply (f_equal length) in H. rewrite length_drop in H. cbn in H. lia. Qed.

(** [DOMAIN_PATTERN], read as a grammar. *)
Lemma domain_pattern_matches s :
  last s ≠ Some 10%N → matches DOMAIN_PATTERN s = true ↔ domain_form s.
Proof.
  intros Hlast. rewrite matches_domain_unfold, !andb_true_iff, negb_true_iff.
  rewrite run_length_check, rep_labels.
  assert (∀ (a : pystr), s = a ++ [10%N] → False) as Hno.
  { intros a ->. apply Hlast, last_snoc. }
  split.
  - intros ((m & Hm & Hlen & _ & Hend) & Hhead &
            (labels & rest & Hl & Hs & Hall & Htld)).
    apply run_tld in Htld as (j & Hj & Hjl & Hlet & Hend').
    destruct Hend as [Hend|Hend];
      [|destruct (Hno (take m s)); by rewrite <- Hend, take_drop].
    apply drop_nil_length in Hend.
    destruct Hend' as [Hend'|Hend'].
    2:{ destruct (Hno (dotted labels ++ take j rest)).
        rewrite <- app_assoc, <- Hend', take_drop. done. }
    split; [lia|]. split.
    + destruct s as [|c t]; [done|]. cbn in Hhead.
      intros [= ->]. done.
    + exists labels, rest. split; [destruct labels; [cbn in Hl; lia | done]|].
      split; [done|]. split; [done|].
      apply drop_nil_length in Hend'.
      rewrite take_ge in Hlet by done. split; [lia | done].
  - intros (Hlen & Hhead & labels & tld & Hne & Hs & Hall & [Htl Hlet]).
    pose proof (dotted_length labels) as Hdl.
    assert (length s = length (dotted labels) + length tld)%nat as Hls
      by (by rewrite Hs, length_app).
    assert (0 < length labels)%nat by (destruct labels; [done | cbn; lia]).
    split; [|split].
    + exists (length s). rewrite take_ge, drop_ge by lia.
      split; [lia|]. split; [lia|]. split; [|by left].
      apply (forallb_Forall_iff _ (λ c, c ≠ 10%N)).
      { intros c. rewrite negb_true_iff, N.eqb_neq. done. }
      rewrite Hs. apply Forall_app. split; [by apply dotted_no_newline|].
      eapply Forall_impl; [exact Hlet|]. unfold is_letter. intros c ?. lia.
    + destruct s as [|c t]; [done|]. cbn. rewrite andb_true_r.
      apply N.eqb_neq. intros ->. by apply Hhead.
    + exists labels, tld. split; [lia|]. split; [done|]. split; [done|].
      apply run_tld. exists (length tld). rewrite take_ge, drop_ge by lia.
      split; [lia|]. split; [lia|]. split; [done | by left].
Qed.

End RegexFacts.

Section ValidationFacts.
Context {W : Type} (env : Env W).

Lemma validate_domain_unfold s :
  validate_target env s (lit "domain") =
    if bool_decide (strip s = []) then Raise (ValueError (lit "กรุณาระบุเป้าหมาย"))
    else if matches DOMAIN_PATTERN (strip s) then Ok (lower (strip s))
    else Raise (ValueError (lit "โดเมนไม่ถูกต้อง")).
Proof.
  unfold validate_target. cbv zeta.
  destruct (bool_decide (strip s = [])); [done|].
  rewrite (bool_decide_eq_false_2 (lit "domain" = lit "ip")) by lit_neq.
  rewrite (bool_decide_eq_true_2 (lit "domain" = lit "domain")) by reflexivity.
  by destruct (matches DOMAIN_PATTERN (strip s)).
Qed.

Lemma strip_no_final_newline s : last (strip s) ≠ Some 10%N.
Proof. intros H. by apply strip_last in H. Qed.

Lemma domain_form_nonempty t : domain_form t → t ≠ [].
Proof.
  intros (_ & _ & labels & tld & Hne & -> & _ & [Hl _]) H.
  apply app_eq_nil in H as [_ ->]. cbn in Hl. lia.
Qed.

Lemma domain_form_dot t : domain_form t → 46%N ∈ t.
Proof.
  intros (_ & _ & labels & tld & Hne & -> & _ & _).
  destruct labels as [|l labels]; [done|]. rewrite dotted_cons. set_solver.
Qed.

(** Domain validation, as the pattern decides it. *)
Lemma validate_domain_iff s r :
  validate_target env s (lit "domain") = Ok r
  ↔ domain_form (strip s) ∧ r = lower (strip s).
Proof.
  rewrite validate_domain_unfold. case_bool_decide as Hs.
  - split; [done|]. intros [Hf _]. by apply domain_form_nonempty in Hf.
  - pose proof (domain_pattern_matches (strip s) (strip_no_final_newline s)) as Hm.
    destruct (matches DOMAIN_PATTERN (strip s)).
    + split.
      * intros [= <-]. split; [by apply Hm | done].
      * intros [_ ->]. done.
    + split; [done|]. intros [Hf _]. apply Hm in Hf. done.
Qed.

Lemma validate_domain_no_dot s :
  46%N ∉ s → ∃ msg, validate_target env s (lit "domain") = Raise (ValueError msg).
Proof.
  intros Hdot.
  destruct (validate_target env s (lit "domain")) as [r|e] eqn:E.
  - apply validate_domain_iff in E as [Hf _]. apply domain_form_dot in Hf.
    destruct (strip_spec s) as (ws1 & ws2 & Hs & _). rewrite Hs in Hdot.
    set_solver.
  - rewrite validate_domain_unfold in E.
    destruct (bool_decide _); [injection E as <-; eauto|].
    destruct (matches _ _); [done|]. injection E as <-. eauto.
Qed.

End ValidationFacts.

(** ** The claims about [scanner.py] *)

Section ScannerClaims.
Context {W : Type} (env : Env W).


(** C7. The command runner never raises on a timeout: it returns exit
    code -1, empty stdout and a non-empty stderr message that names the
    timeout. When the process completes it returns its exit code, with
    stdout cut to its last 6000 characters and stderr to its last 3000.
    Any other failure of the call is passed on. *)
Theorem run_command_outcome cmd (s : Sys W) :
  let after w := {| world := w; trace := trace s ++ [ERun cmd] |} in
  match subprocess_run env cmd (world s) with
  | (Raise TimeoutExpired, w) =>
    ∃ out msg, _run_command env cmd s = (Ok out, after w)
      ∧ out !! lit "return_code" = Some (VInt (-1))
      ∧ out !! lit "stdout" = Some (VStr [])
      ∧ out !! lit "stderr" = Some (VStr msg)
      ∧ msg ≠ [] ∧ str_in (lit "timeout") msg = true
  | (Raise e, w) => _run_command env cmd s = (Raise e, after w)
  | (Ok completed, w) =>
    ∃ out out_stdout out_stderr, _run_command env cmd s = (Ok out, after w)
      ∧ out !! lit "return_code" = Some (VInt (returncode completed))
      ∧ out !! lit "stdout" = Some (VStr out_stdout)
      ∧ out !! lit "stderr" = Some (VStr out_stderr)
      ∧ out_stdout `suffix_of` stdout completed
      ∧ Z.of_nat (length out_stdout) = Z.min 6000 (Z.of_nat (length (stdout completed)))
      ∧ out_stderr `suffix_of` stderr completed
      ∧ Z.of_nat (length out_stderr) = Z.min 3000 (Z.of_nat (length (stderr completed)))
  end.
Proof.
  intros after. unfold _run_command, try_except, bind, call, ret.
  destruct (subprocess_run env cmd (world s)) as [[c|e] w].
  - eexists _, (slice_last 6000 (stdout c)), (slice_last 3000 (stderr c)).
    split; [reflexivity|].
    set (x := slice_last 6000 _). set (y := slice_last 3000 _).
    split; [vm_compute; reflexivity|].
    split; [vm_compute; reflexivity|].
    split; [vm_compute; reflexivity|].
    unfold x, y, slice_last. rewrite !length_drop.
    split; [apply suffix_drop|]. split; [lia|].
    split; [apply suffix_drop | lia].
  - destruct e; try reflexivity.
    eexists _, _. split; [reflexivity|].
    split; [vm_compute; reflexivity|]. split; [vm_compute; reflexivity|].
    split; [vm_compute; reflexivity|].
    split; [discriminate | vm_compute; reflexivity].
Qed.

(** C8. For a target kind other than url, both web-scanner adapters
    return a finding with status "skipped" and a reason, and leave the
    world and the trace as they found them: no call is made. *)
Theorem web_scanners_skip_non_url target target_type scan_mode (s : Sys W) :
  target_type ≠ lit "url" →
  (∃ finding reason,
     run_zap env target target_type scan_mode s = (Ok finding, s)
     ∧ finding !! lit "status" = Some (VStr (lit "skipped"))
     ∧ finding !! lit "reason" = Some (VStr reason) ∧ reason ≠ [])
  ∧ (∃ finding reason,
       run_arachni env target target_type scan_mode s = (Ok finding, s)
       ∧ finding !! lit "status" = Some (VStr (lit "skipped"))
       ∧ finding !! lit "reason" = Some (VStr reason) ∧ reason ≠ []).
Proof.
  intros Hk. split.
  - unfold run_zap. rewrite bool_decide_eq_false_2 by exact Hk. cbn [negb].
    eexists _, _. split; [reflexivity|].
    split; [vm_compute; reflexivity|]. split; [vm_compute; reflexivity|].
    discriminate.
  - unfold run_arachni. rewrite bool_decide_eq_false_2 by exact Hk. cbn [negb].
    eexists _, _. split; [reflexivity|].
    split; [vm_compute; reflexivity|]. split; [vm_compute; reflexivity|].
    discriminate.
Qed.

(** C9. Tool names other than nmap, zap and arachni are ignored: the keys
    of the findings are the requested names among these three, the
    [tools] entry of the result is the request as it came, and a request
    that differs only in other names runs the same way, raises under the
    same conditions and returns the same result but for that entry. *)
Theorem scan_ignores_unrecognized_tools config (s : Sys W) :
  (∀ result s', run_scan env config s = (Ok result, s') →
     ∃ findings,
       result !! lit "findings" = Some (VDict findings)
       ∧ dom findings = list_to_set (tools config) ∩ list_to_set recognized
       ∧ result !! lit "tools" = Some (VList (VStr <$> tools config)))
  ∧ (∀ config',
       target config' = target config →
       target_type config' = target_type config →
       scan_mode config' = scan_mode config →
       (∀ tool, tool ∈ recognized → tool ∈ tools config' ↔ tool ∈ tools config) →
       run_scan env config' s
       = map_result
           (λ result, <[lit "tools" := VList (VStr <$> tools config')]> result)
           (run_scan env config s)).
Proof.
  split.
  - intros result s' Hrun.
    destruct (run_scan_spec env _ _ _ _ Hrun) as (evs & findings & _ & Hi & Hf & Ht & Hd).
    exists findings. split; [done|]. split; [|done].
    rewrite Hd, Hi, tool_requested_filter. apply set_eq. intros tool.
    rewrite elem_of_intersection, !elem_of_list_to_set, list_elem_of_In, filter_In.
    rewrite <- list_elem_of_In, bool_decide_eq_true. tauto.
  - intros config'. apply run_scan_unrecognized.
Qed.

(** C3, as the code has it. Domain validation succeeds exactly when the
    trimmed string has the form of [domain_form]: at most 253 characters,
    no hyphen at its very start, two or more labels, every label but the
    last of 1 to 63 letters, digits and hyphens, the last of 2 to 63
    letters; the value returned is the trimmed string in lower case. A
    hyphen at the start of a later label is not looked at. *)
Theorem validate_domain_grammar s r :
  validate_target env s (lit "domain") = Ok r
  ↔ domain_form (strip s) ∧ r = lower (strip s).
Proof. apply validate_domain_iff. Qed.

(** C10. A string without a dot never validates as a domain. *)
Theorem validate_domain_single_label s :
  46%N ∉ s → ∃ msg, validate_target env s (lit "domain") = Raise (ValueError msg).
Proof. apply validate_domain_no_dot. Qed.

End ScannerClaims.

(** *** The claims on a sample machine *)

Lemma sample_run :
  run_scan sample_env sample_config sample_sys = (Ok sample_result, sample_final).
Proof. vm_compute. reflexivity. Qed.



(** The request "zap, burp, nmap" runs nmap and then zap. *)
Example sample_invocation_order :
  invoked (trace sample_final) = [lit "nmap"; lit "zap"].
Proof. vm_compute. reflexivity. Qed.

Lemma web_scanners_skip_non_url_witness :
  lit "ip" ≠ lit "url"
  ∧ (∃ finding reason,
       run_zap sample_env (lit "192.0.2.7") (lit "ip") (lit "deep") sample_sys
         = (Ok finding, sample_sys)
       ∧ finding !! lit "status" = Some (VStr (lit "skipped"))
       ∧ finding !! lit "reason" = Some (VStr reason) ∧ reason ≠ [])
  ∧ (∃ finding reason,
       run_arachni sample_env (lit "192.0.2.7") (lit "ip") (lit "deep") sample_sys
         = (Ok finding, sample_sys)
       ∧ finding !! lit "status" = Some (VStr (lit "skipped"))
       ∧ finding !! lit "reason" = Some (VStr reason) ∧ reason ≠ []).
Proof.
  assert (lit "ip" ≠ lit "url") as H by lit_neq.
  split; [exact H|].
  exact (web_scanners_skip_non_url sample_env (lit "192.0.2.7") (lit "ip")
           (lit "deep") sample_sys H).
Defined.

Lemma scan_ignores_unrecognized_tools_witness :
  run_scan sample_env sample_config sample_sys = (Ok sample_result, sample_final)
  ∧ (∃ findings,
       sample_result !! lit "findings" = Some (VDict findings)
       ∧ dom findings = list_to_set (tools sample_config) ∩ list_to_set recognized
       ∧ sample_result !! lit "tools" = Some (VList (VStr <$> tools sample_config)))
  ∧ run_scan sample_env sample_config_known sample_sys
    = map_result
        (λ result, <[lit "tools" := VList (VStr <$> tools sample_config_known)]> result)
        (run_scan sample_env sample_config sample_sys).
Proof.
  split; [exact sample_run|].
  destruct (scan_ignores_unrecognized_tools sample_env sample_config sample_sys)
    as [Hkeys Hsame].
  split; [exact (Hkeys _ _ sample_run)|].
  apply Hsame; try reflexivity.
  intros tool Htool. unfold recognized in Htool.
  apply elem_of_cons in Htool as [->|Htool]; [vm_compute; split; intros _; set_solver|].
  apply elem_of_cons in Htool as [->|Htool]; [vm_compute; split; intros _; set_solver|].
  apply elem_of_cons in Htool as [->|Htool]; [|by apply elem_of_nil in Htool].
  split; intros Hin; exfalso; revert Hin; cbn [tools sample_config sample_config_known];
    rewrite !elem_of_cons, elem_of_nil; intros Hin;
    repeat (destruct Hin as [Hin|Hin]; [vm_compute in Hin; discriminate Hin|]); done.
Defined.

Lemma validate_domain_grammar_witness :
  validate_target sample_env (lit "UPPER.EXAMPLE.com") (lit "domain")
    = Ok (lit "upper.example.com")
  ∧ domain_form (strip (lit "UPPER.EXAMPLE.com")).
Proof.
  assert (validate_target sample_env (lit "UPPER.EXAMPLE.com") (lit "domain")
          = Ok (lit "upper.example.com")) as H by (vm_compute; reflexivity).
  split; [exact H|].
  exact (proj1 (proj1 (validate_domain_grammar sample_env _ _) H)).
Defined.

(** The examples of the specification. *)
Example validate_domain_leading_hyphen :
  ∃ msg, validate_target sample_env (lit "-bad.com") (lit "domain")
         = Raise (ValueError msg).
Proof. eexists. vm_compute. reflexivity. Qed.

(** C3, as stated, fails: "a.-b.com" has a label that starts with a
    hyphen, and it is accepted. *)
Lemma validate_domain_inner_hyphen_accepted :
  validate_target sample_env (lit "a.-b.com") (lit "domain") = Ok (lit "a.-b.com")
  ∧ lit "a.-b.com" = dotted [lit "a"; lit "-b"] ++ lit "com"
  ∧ head (lit "-b") = Some 45%N.
Proof. repeat split; vm_compute; reflexivity. Qed.

Lemma validate_domain_single_label_witness :
  46%N ∉ (lit "localhost")
  ∧ ∃ msg, validate_target sample_env (lit "localhost") (lit "domain")
           = Raise (ValueError msg).
Proof.
  assert (46%N ∉ (lit "localhost")) as H.
  { intros Hin. apply list_elem_of_In in Hin. vm_compute in Hin.
    repeat (destruct Hin as [Hin|Hin]; [discriminate Hin|]). exact Hin. }
  split; [exact H|].
  exact (validate_domain_single_label sample_env (lit "localhost") H).
Defined.

End ScannerFacts.

(** ** app.py *)

Module AppFacts.

Import App AppSpec.

Ltac ascii_lit := apply is_ascii_check; vm_compute; reflexivity.

(** *** Port lines and the risk estimate *)

Lemma mentions_open_port_strip line :
  is_port_line (strip line) = mentions_open_port line.
Proof.
  unfold is_port_line, mentions_open_port. f_equal.
  - eapply str_in_strip; by vm_compute.
  - eapply str_in_strip; by vm_compute.
Qed.

Lemma collect_lines lines (ports : list pystr) :
  fold_left (λ ports line,
      let stripped := strip line in
      if is_port_line stripped then ports ++ [stripped] else ports) lines ports
  = ports ++ (strip <$> List.filter mentions_open_port lines).
Proof.
  revert ports. induction lines as [|l lines IH]; intros ports; simpl.
  - by rewrite app_nil_r.
  - rewrite IH, mentions_open_port_strip.
    destruct (mentions_open_port l); simpl; [by rewrite <- app_assoc | done].
Qed.

Lemma filter_mjoin {A} (p : A → bool) (ls : list (list A)) :
  List.filter p (mjoin ls) = mjoin (List.filter p <$> ls).
Proof.
  induction ls as [|l ls IH]; simpl; [done|].
  by rewrite List.filter_app, IH.
Qed.

Lemma collect_phases phases outs (ports : list pystr) :
  Forall2 (λ phase out, py_get phase (lit "stdout") (VStr []) = Ok (VStr out))
    phases outs →
  for_each (λ ports phase,
      stdout ← py_get phase (lit "stdout") (VStr []);
      lines ← py_splitlines stdout;
      Ok (fold_left (λ ports line,
            let stripped := strip line in
            if is_port_line stripped then ports ++ [stripped] else ports)
          lines ports))
    phases ports
  = Ok (ports ++ (strip <$> open_port_lines outs)).
Proof.
  intros H. revert ports. induction H as [|ph out phases outs Hph _ IH]; intros ports.
  - simpl. by rewrite app_nil_r.
  - cbn [for_each]. rewrite Hph, bind_Ok. cbn [py_splitlines].
    rewrite !bind_Ok, collect_lines, IH. f_equal.
    unfold open_port_lines, stdout_lines. cbn [fmap list_fmap mjoin list_join].
    rewrite List.filter_app, fmap_app, <- app_assoc. done.
Qed.

Lemma extract_port_lines_outputs scan outs :
  nmap_outputs scan outs →
  _extract_port_lines scan = Ok (take 8 (strip <$> open_port_lines outs)).
Proof.
  intros (findings & nmap & phases & Hf & Hn & Hp & Hs).
  unfold _extract_port_lines.
  rewrite Hf, bind_Ok, Hn, bind_Ok, Hp, !bind_Ok. cbn [py_iter].
  rewrite bind_Ok, (collect_phases _ _ _ Hs), bind_Ok. done.
Qed.

Lemma severity_coded_mod idx :
  (if negb (idx mod 2 =? 0) then lit "LOW" else lit "MEDIUM") = severity_coded idx.
Proof.
  unfold severity_coded. rewrite Zmod_odd. by destruct (Z.odd idx).
Qed.

Lemma label_loop (ports acc : list pystr) (start : Z) :
  fold_left (λ vulns '(idx, port_line),
      let severity :=
        if negb (idx mod 2 =? 0) then lit "LOW" else lit "MEDIUM" in
      vulns ++ [lit "[" ++ severity ++ lit "] " ++ port_line])
    (enumerate start ports) acc
  = acc ++ imap (λ i line,
        lit "[" ++ severity_coded (Z.of_nat i + start) ++ lit "] " ++ line) ports.
Proof.
  revert acc start. induction ports as [|p ports IH]; intros acc start.
  - simpl. by rewrite app_nil_r.
  - cbn [enumerate fold_left imap]. rewrite IH, severity_coded_mod.
    rewrite <- app_assoc. cbn [app]. f_equal. f_equal.
    apply imap_ext. intros i line _. cbn. do 3 f_equal. lia.
Qed.

Lemma estimate_risk_outputs scan outs zap_status arachni_status :
  nmap_outputs scan outs →
  finding_status scan (lit "zap") zap_status →
  finding_status scan (lit "arachni") arachni_status →
  let ports := take 8 (strip <$> open_port_lines outs) in
  _estimate_risk scan =
    Ok (risk_level (issue_count (length (open_port_lines outs))
                      (py_eq_str zap_status (lit "available"))
                      (py_eq_str arachni_status (lit "available"))),
        match ports with
        | [] => [no_finding]
        | _ => labelled severity_coded ports
        end).
Proof.
  intros Hout (f1 & z & Hf1 & Hz & Hzs) (f2 & a & Hf2 & Ha & Has) ports.
  rewrite Hf1 in Hf2. injection Hf2 as <-.
  unfold _estimate_risk.
  rewrite (extract_port_lines_outputs _ _ Hout), bind_Ok, Hf1, bind_Ok.
  rewrite Hz, bind_Ok, Hzs, bind_Ok, Ha, bind_Ok, Has, bind_Ok.
  fold ports. rewrite label_loop. cbn [app].
  f_equal. f_equal.
  - unfold risk_level, issue_count.
    assert (Z.of_nat (length ports)
            = Z.of_nat (Nat.min (length (open_port_lines outs)) 8)) as ->.
    { unfold ports. rewrite length_take, length_fmap. lia. }
    destruct (py_eq_str zap_status _), (py_eq_str arachni_status _);
      rewrite ?Z.add_0_r; reflexivity.
  - unfold labelled, no_finding.
    destruct ports as [|p ps]; reflexivity.
Qed.

(** *** The layout of the report *)

Lemma concat_join_compat_aux {A} (l : list (list A)) : concat l = mjoin l.
Proof. induction l as [|x l IH]; [done|]. cbn. by rewrite IH. Qed.

Section LayoutFacts.

Lemma fold_left_snoc {A B} (f : B → A) (l : list B) (acc : list A) :
  fold_left (λ acc x, acc ++ [f x]) l acc = acc ++ (f <$> l).
Proof.
  revert acc. induction l as [|x l IH]; intros acc; cbn [fold_left fmap list_fmap].
  - by rewrite app_nil_r.
  - rewrite IH, <- app_assoc. done.
Qed.

Lemma place_objects_spec objects pdf offsets :
  place_objects objects pdf offsets
  = (pdf ++ mjoin objects, offsets ++ offsets_from (length pdf) objects).
Proof.
  unfold place_objects. revert pdf offsets.
  induction objects as [|obj rest IH]; intros pdf offsets; cbn [fold_left mjoin list_join offsets_from].
  - by rewrite !app_nil_r.
  - rewrite IH, length_app, <- !app_assoc. done.
Qed.

Lemma offsets_from_length start objects :
  length (offsets_from start objects) = length objects.
Proof.
  revert start. induction objects as [|o r IH]; intros start; cbn; [done|].
  by rewrite IH.
Qed.

(** The [n]-th offset is the total length of what precedes object [n]. *)
Lemma offsets_from_lookup start objects n off :
  offsets_from start objects !! n = Some off →
  ∃ obj, objects !! n = Some obj
         ∧ off = (start + length (mjoin (take n objects)))%nat.
Proof.
  revert start n. induction objects as [|o r IH]; intros start n H; [done|].
  destruct n as [|n]; cbn in H.
  - injection H as <-. exists o. split; [done|].
    simpl. lia.
  - destruct (IH _ _ H) as (obj & Hobj & ->). exists obj. split; [done|].
    simpl. rewrite length_app. lia.
Qed.

(** An object is found in the file at its recorded offset. *)
Lemma object_at_offset (header rest : bytes) objects n off :
  offsets_from (length header) objects !! n = Some off →
  ∃ obj, objects !! n = Some obj
         ∧ obj `prefix_of` drop off (header ++ mjoin objects ++ rest).
Proof.
  intros H. destruct (offsets_from_lookup _ _ _ _ H) as (obj & Hobj & ->).
  exists obj. split; [done|].
  rewrite <- (take_drop_middle objects n obj Hobj) at 2.
  rewrite join_app. cbn [mjoin list_join].
  rewrite <- (length_app header), !app_assoc, <- (app_assoc _ obj).
  rewrite <- (app_assoc _ (obj ++ _)), drop_app_length, <- !app_assoc.
  by eexists.
Qed.

Lemma str_of_nat_ascii n : is_ascii (str_of_nat n).
Proof. apply digits_ascii, str_of_N_digits. Qed.

Lemma format_010d_digits n : Forall (λ c, (48 ≤ c ≤ 57)%N) (format_010d n).
Proof.
  unfold format_010d. apply Forall_app. split; [|apply str_of_N_digits].
  apply Forall_replicate. lia.
Qed.

Lemma xref_entry_ascii off : is_ascii (xref_entry off).
Proof.
  unfold xref_entry. apply is_ascii_app; [|ascii_lit].
  apply digits_ascii, format_010d_digits.
Qed.

Lemma is_ascii_join (parts : list pystr) :
  Forall is_ascii parts → is_ascii (mjoin parts).
Proof.
  induction 1 as [|p parts Hp _ IH]; [constructor|].
  cbn [mjoin list_join]. by apply is_ascii_app.
Qed.

Lemma xref_lines_spec objects offsets :
  xref_lines objects offsets
  = [lit "xref" ++ nl ++ lit "0 " ++ str_of_nat (length objects + 1) ++ nl; free_entry]
    ++ (xref_entry <$> drop 1 offsets).
Proof. unfold xref_lines. rewrite fold_left_snoc. reflexivity. Qed.

Lemma trailer_text_ascii objects off : is_ascii (trailer_text objects off).
Proof.
  unfold trailer_text.
  repeat (apply is_ascii_app; [first [apply str_of_nat_ascii | ascii_lit]|]).
  ascii_lit.
Qed.

(** [pdf_assemble] never raises, and lays the file out as header, objects,
    cross-reference section, trailer. *)
Lemma pdf_assemble_spec objects :
  let offsets := offsets_from (length pdf_header) objects in
  let xref_offset := length (pdf_header ++ mjoin objects) in
  pdf_assemble objects =
    Ok (pdf_header ++ mjoin objects
        ++ ascii_bytes (lit "xref" ++ nl ++ lit "0 "
                          ++ str_of_nat (length objects + 1) ++ nl
                          ++ mjoin (free_entry :: (xref_entry <$> offsets)))
        ++ ascii_bytes (trailer_text objects xref_offset)).
Proof.
  intros offsets xref_offset. unfold pdf_assemble.
  rewrite place_objects_spec. cbv beta iota zeta.
  rewrite xref_lines_spec. cbn [drop app].
  fold offsets. fold xref_offset.
  rewrite (encode_ascii_ok (trailer_text objects xref_offset))
    by apply trailer_text_ascii.
  rewrite encode_ascii_ok, !bind_Ok.
  2:{ cbn [concat]. rewrite concat_join_compat_aux.
      rewrite <- !app_assoc.
      repeat (apply is_ascii_app; [first [apply str_of_nat_ascii | ascii_lit]|]).
      apply is_ascii_join, Forall_fmap, Forall_true. intros off. apply xref_entry_ascii. }
  f_equal. rewrite <- !app_assoc. do 2 f_equal.
  unfold ascii_bytes. f_equal. cbn [concat]. rewrite concat_join_compat_aux.
  cbn [mjoin list_join]. rewrite <- !app_assoc. done.
Qed.

End LayoutFacts.

Section ContentFacts.

Lemma pdf_objects_spec stream_data :
  ∃ o1 o2 o3 o4 o5,
    pdf_objects stream_data = Ok [o1; o2; o3; o4; o5]
    ∧ o5 = ascii_bytes (lit "5 0 obj << /Length " ++ str_of_nat (length stream_data)
                         ++ lit " >> stream" ++ nl)
            ++ stream_data ++ ascii_bytes (nl ++ lit "endstream endobj" ++ nl)
    ∧ ascii_bytes (str_of_nat 1 ++ lit " 0 obj") `prefix_of` o1
    ∧ ascii_bytes (str_of_nat 2 ++ lit " 0 obj") `prefix_of` o2
    ∧ ascii_bytes (str_of_nat 3 ++ lit " 0 obj") `prefix_of` o3
    ∧ ascii_bytes (str_of_nat 4 ++ lit " 0 obj") `prefix_of` o4
    ∧ ascii_bytes (str_of_nat 5 ++ lit " 0 obj") `prefix_of` o5
    ∧ (length o1 + length o2 + length o3 + length o4 = 302)%nat.
Proof.
  unfold pdf_objects. cbn [app].
  rewrite encode_ascii_ok, bind_Ok.
  2:{ repeat (apply is_ascii_app; [first [apply str_of_nat_ascii | ascii_lit]|]).
      ascii_lit. }
  eexists _, _, _, _, _. split; [reflexivity|]. split; [reflexivity|].
  do 4 (split; [eexists; vm_compute; reflexivity|]).
  split; [|vm_compute; reflexivity].
  change (lit "5 0 obj << /Length ")
    with ((str_of_nat 5 ++ lit " 0 obj") ++ lit " << /Length ").
  unfold ascii_bytes. rewrite <- (app_assoc (str_of_nat 5 ++ lit " 0 obj")).
  rewrite (encode_latin1_app (str_of_nat 5 ++ lit " 0 obj")), <- app_assoc.
  by eexists.
Qed.

Lemma replace_char_length c by_ s :
  (length (replace_char c by_ s) ≤ Nat.max 1 (length by_) * length s)%nat.
Proof.
  unfold replace_char. induction s as [|x s IH]; [simpl; lia|].
  rewrite bind_cons, length_app. cbn [length].
  destruct (x =? c)%N; cbn [length]; lia.
Qed.

Lemma escape_pdf_text_length s : (length (_escape_pdf_text s) ≤ 8 * length s)%nat.
Proof.
  unfold _escape_pdf_text.
  pose proof (replace_char_length 92 (lit "\\") s) as H1.
  pose proof (replace_char_length 40 (lit "\(") (replace_char 92 (lit "\\") s)) as H2.
  pose proof (replace_char_length 41 (lit "\)")
                (replace_char 40 (lit "\(") (replace_char 92 (lit "\\") s))) as H3.
  change (length (lit "\\")) with 2%nat in H1.
  change (length (lit "\(")) with 2%nat in H2.
  change (length (lit "\)")) with 2%nat in H3.
  lia.
Qed.

Lemma str_of_Z_length z : -100000 < z < 100000 → (length (str_of_Z z) ≤ 6)%nat.
Proof.
  intros Hz. unfold str_of_Z. destruct (Z.ltb_spec z 0); cbn [length].
  - pose proof (str_of_N_length (Z.to_N (- z)) 4). 
    change (10 ^ N.of_nat 5)%N with 100000%N in *. lia.
  - pose proof (str_of_N_length (Z.to_N z) 4).
    change (10 ^ N.of_nat 5)%N with 100000%N in *. lia.
Qed.

Lemma draw_text_line_length y text size x :
  -100000 < y < 100000 → -100000 < size < 100000 → -100000 < x < 100000 →
  (length (_draw_text_line y text size x) ≤ 1400)%nat.
Proof.
  intros Hy Hs Hx. unfold _draw_text_line. rewrite !length_app.
  pose proof (str_of_Z_length y Hy). pose proof (str_of_Z_length size Hs).
  pose proof (str_of_Z_length x Hx).
  pose proof (escape_pdf_text_length (take 160 text)) as He.
  rewrite length_take in He.
  change (length (lit "BT /F1 ")) with 7%nat.
  change (length (lit " Tf ")) with 4%nat.
  change (length (lit " ")) with 1%nat.
  change (length (lit " Td (")) with 5%nat.
  change (length (lit ") Tj ET")) with 7%nat.
  lia.
Qed.

Lemma draw_rows size x rows content y :
  fold_left (λ '(content, y) line,
      (content ++ [_draw_text_line y (lit "- " ++ line) size x], y - 14))
    rows (content, y)
  = (content ++ imap (λ i line,
        _draw_text_line (y - 14 * Z.of_nat i) (lit "- " ++ line) size x) rows,
     y - 14 * Z.of_nat (length rows)).
Proof.
  revert content y. induction rows as [|r rows IH]; intros content y.
  - cbn [fold_left imap length]. rewrite app_nil_r. f_equal. lia.
  - cbn [fold_left imap length]. rewrite IH, <- app_assoc. cbn [app].
    f_equal.
    + f_equal. f_equal; [f_equal; lia|].
      apply imap_ext. intros i line _. cbn. f_equal. lia.
    + lia.
Qed.

End ContentFacts.

Ltac line_ok :=
  first [ apply draw_text_line_length; lia
        | apply Nat.leb_le; vm_compute; reflexivity ].

Lemma Forall_imap_lookup {A B} (P : B → Prop) (f : nat → A → B) (l : list A) :
  (∀ i x, l !! i = Some x → P (f i x)) → Forall P (imap f l).
Proof.
  revert f. induction l as [|a l IH]; intros f H; cbn [imap]; constructor.
  - by apply (H 0%nat).
  - apply IH. intros i x Hi. by apply (H (S i)).
Qed.

Lemma draw_rows_bound (y size x : Z) (rows : list pystr) :
  -90000 < y < 90000 → -100000 < size < 100000 → -100000 < x < 100000 →
  (length rows ≤ 6)%nat →
  Forall (λ l : pystr, (length l ≤ 1400)%nat)
    (imap (λ i line,
       _draw_text_line (y - 14 * Z.of_nat i) (lit "- " ++ line) size x) rows).
Proof.
  intros Hy Hs Hx Hr. apply Forall_imap_lookup. intros i line Hi.
  apply lookup_lt_Some in Hi. apply draw_text_line_length; lia.
Qed.

Section ContentBound.
Variable upper : pystr → pystr.

Lemma report_content_bound scan content :
  report_content upper scan = Ok content →
  (length content ≤ 51)%nat ∧ Forall (λ l : pystr, (length l ≤ 1400)%nat) content.
Proof.
  unfold report_content.
  destruct (_estimate_risk scan) as [[risk_level vuln_lines]|e]; [|discriminate].
  rewrite bind_Ok.
  destruct (_extract_port_lines scan) as [port_lines|e]; [|discriminate].
  rewrite bind_Ok. cbv zeta.
  assert (length (take 6 port_lines) ≤ 6)%nat as Hp by (rewrite length_take; lia).
  assert (length (take 6 vuln_lines) ≤ 6)%nat as Hv by (rewrite length_take; lia).
  destruct port_lines as [|p ps].
  - cbv beta iota zeta. rewrite draw_rows. cbv beta iota zeta. intros H%Ok_inj; subst content.
    split.
    + rewrite !length_app, length_imap. cbn [length]. lia.
    + repeat apply Forall_app_2.
      all: try (repeat (apply Forall_cons_2; [line_ok|]); apply Forall_nil_2).
      apply draw_rows_bound; lia.
  - cbv beta iota zeta. rewrite draw_rows. cbv beta iota zeta.
    rewrite draw_rows. cbv beta iota zeta. intros H%Ok_inj; subst content.
    set (rows := take 6 (p :: ps)) in *.
    split.
    + rewrite !length_app, !length_imap. cbn [length]. lia.
    + repeat apply Forall_app_2.
      all: try (repeat (apply Forall_cons_2; [line_ok|]); apply Forall_nil_2).
      all: apply draw_rows_bound; lia.
Qed.

End ContentBound.

Lemma str_join_length sep (parts : list pystr) bound :
  Forall (λ l : pystr, (length l ≤ bound)%nat) parts →
  (length (str_join sep parts) ≤ length parts * (bound + length sep))%nat.
Proof.
  induction 1 as [|p parts Hp _ IH]; [simpl; lia|].
  destruct parts as [|q parts]; [simpl; lia|].
  change (str_join sep (p :: q :: parts)) with (p ++ sep ++ str_join sep (q :: parts)).
  rewrite !length_app. cbn [length] in *. lia.
Qed.

Lemma join_take_length {A} (l : list (list A)) n :
  (length (mjoin (take n l)) ≤ length (mjoin l))%nat.
Proof.
  rewrite <- (take_drop n l) at 2. rewrite join_app, length_app. lia.
Qed.

Section Bookkeeping.
Variable upper : pystr → pystr.

(** C4. The rendered report keeps the offset bookkeeping contract: the
    content-stream object declares the exact length of its stream; the
    cross-reference section has one entry more than there are objects,
    the free-list entry first and then the ten-digit decimal offsets;
    each offset is where the "<n> 0 obj" line of its object begins; and
    the trailer names the object count plus one as Size, object 1 as Root
    and the offset of the cross-reference section. *)
Theorem report_offset_bookkeeping scan pdf :
  build_pdf_report upper scan = Ok pdf → offset_contract pdf.
Proof.
  unfold offset_contract, build_pdf_report. intros H.
  destruct (report_content upper scan) as [content|e] eqn:Hc; [|discriminate].
  rewrite bind_Ok in H. cbv zeta in H.
  set (stream_data := encode_latin1_replace (str_join nl content)) in *.
  destruct (report_content_bound upper scan content Hc) as [Hn Hl].
  assert (Z.of_nat (length stream_data) ≤ 71451) as Hlen.
  { unfold stream_data. rewrite encode_latin1_length.
    pose proof (str_join_length nl content 1400 Hl) as Hj.
    change (length nl) with 1%nat in Hj. nia. }
  destruct (pdf_objects_spec stream_data)
    as (o1 & o2 & o3 & o4 & o5 & Hobj & Ho5 & P1 & P2 & P3 & P4 & P5 & Hfix).
  rewrite Hobj, bind_Ok, pdf_assemble_spec in H. apply Ok_inj in H. subst pdf.
  set (objects := [o1; o2; o3; o4; o5]) in *.
  assert (Z.of_nat (length o5) ≤ 71600) as Hl5.
  { rewrite Ho5. unfold ascii_bytes.
    rewrite !length_app, !encode_latin1_length, !length_app.
    pose proof (str_of_N_length (N.of_nat (length stream_data)) 9) as Hd.
    change (10 ^ N.of_nat 10)%N with 10000000000%N in Hd.
    fold (str_of_nat (length stream_data)) in Hd.
    change (length (lit "5 0 obj << /Length ")) with 19%nat.
    change (length (lit " >> stream")) with 10%nat.
    change (length nl) with 1%nat.
    change (length (lit "endstream endobj")) with 16%nat. lia. }
  assert (Z.of_nat (length (mjoin objects)) ≤ 72000) as Hall.
  { unfold objects. cbn [mjoin list_join]. rewrite !length_app. cbn [length]. lia. }
  exists stream_data, objects, (offsets_from (length pdf_header) objects),
    (length (pdf_header ++ mjoin objects)).
  split; [reflexivity|]. split; [reflexivity|].
  split; [unfold objects; cbn; by rewrite Ho5|].
  split; [cbn [length]; rewrite length_fmap, offsets_from_length; lia|].
  split; [|split; [reflexivity|]].
  - intros n offset Hoff.
    destruct (offsets_from_lookup _ _ _ _ Hoff) as (obj & Hn' & Hval).
    assert (N.of_nat offset < 10 ^ 10)%N as Hsmall.
    { pose proof (join_take_length objects n).
      change (length pdf_header) with 15%nat in Hval.
      change (10 ^ 10)%N with 10000000000%N. lia. }
    destruct (format_010d_small offset Hsmall) as (Hten & _ & Hdec).
    split; [done|]. split; [done|].
    exists obj. split; [done|]. split.
    + unfold objects in Hn'.
      do 5 (destruct n as [|n]; [injection Hn' as <-; assumption|]).
      discriminate.
    + edestruct (object_at_offset pdf_header) as (obj' & Hobj' & Hpre); [exact Hoff|].
      rewrite Hn' in Hobj'. injection Hobj' as <-. exact Hpre.
  - rewrite (app_assoc pdf_header), drop_app_length.
    unfold ascii_bytes.
    rewrite (encode_latin1_app (lit "xref")), <- !app_assoc. by eexists.
Qed.

Lemma report_content_returns scan r :
  _estimate_risk scan = Ok r → ∃ content, report_content upper scan = Ok content.
Proof.
  intros Hr. unfold report_content. rewrite Hr, bind_Ok.
  destruct r as [risk_level vuln_lines].
  unfold _estimate_risk in Hr.
  destruct (_extract_port_lines scan) as [ports|e]; [|discriminate].
  rewrite bind_Ok. cbv zeta.
  destruct ports as [|p ps]; cbv beta iota zeta.
  - rewrite draw_rows. cbv beta iota zeta. eexists. reflexivity.
  - rewrite draw_rows. cbv beta iota zeta. rewrite draw_rows. cbv beta iota zeta.
    eexists. reflexivity.
Qed.

(** The renderer returns a document for every record the risk estimator
    accepts. *)
Lemma build_pdf_report_returns scan r :
  _estimate_risk scan = Ok r → ∃ pdf, build_pdf_report upper scan = Ok pdf.
Proof.
  intros Hr. destruct (report_content_returns scan r Hr) as [content Hc].
  unfold build_pdf_report. rewrite Hc, bind_Ok. cbv zeta.
  destruct (pdf_objects_spec (encode_latin1_replace (str_join nl content)))
    as (o1 & o2 & o3 & o4 & o5 & -> & _).
  rewrite bind_Ok, pdf_assemble_spec. eauto.
Qed.

End Bookkeeping.

(** ** The claims about the risk estimate and the report *)

Section RiskClaims.

(** C2. The issue count is the number of lines of the nmap phases'
    output that contain both "/tcp" and "open", capped at 8, plus 2 for
    an available zap finding and plus 2 for an available arachni finding;
    the level is HIGH from 6, MEDIUM from 3 and LOW below. Five port
    lines alone give MEDIUM, and HIGH with an available zap finding. *)
Theorem estimate_risk_level scan outs zap_status arachni_status :
  nmap_outputs scan outs →
  finding_status scan (lit "zap") zap_status →
  finding_status scan (lit "arachni") arachni_status →
  let issues :=
    issue_count (length (open_port_lines outs))
      (py_eq_str zap_status (lit "available"))
      (py_eq_str arachni_status (lit "available")) in
  (∃ vulns, _estimate_risk scan = Ok (risk_level issues, vulns))
  ∧ (6 ≤ issues → risk_level issues = lit "HIGH")
  ∧ (3 ≤ issues < 6 → risk_level issues = lit "MEDIUM")
  ∧ (issues < 3 → risk_level issues = lit "LOW")
  ∧ risk_level (issue_count 5 false false) = lit "MEDIUM"
  ∧ risk_level (issue_count 5 true false) = lit "HIGH".
Proof.
  intros Hn Hz Ha issues.
  split; [eexists; exact (estimate_risk_outputs _ _ _ _ Hn Hz Ha)|].
  unfold risk_level.
  split; [intros H; destruct (Z.leb_spec 6 issues); [reflexivity | lia]|].
  split.
  { intros H. destruct (Z.leb_spec 6 issues); [lia|].
    destruct (Z.leb_spec 3 issues); [reflexivity | lia]. }
  split.
  { intros H. destruct (Z.leb_spec 6 issues); [lia|].
    destruct (Z.leb_spec 3 issues); [lia | reflexivity]. }
  split; reflexivity.
Qed.

(** C1, as the code has it. The findings are the first four matched port
    lines (stripped, 1-indexed), each behind a label that is LOW for an
    odd index and MEDIUM for an even one; with no matched line the
    findings are the one placeholder string. *)
Theorem estimate_risk_findings scan outs zap_status arachni_status :
  nmap_outputs scan outs →
  finding_status scan (lit "zap") zap_status →
  finding_status scan (lit "arachni") arachni_status →
  let ports := take 8 (strip <$> open_port_lines outs) in
  ∃ level vulns,
    _estimate_risk scan = Ok (level, vulns)
    ∧ (ports = [] → vulns = [no_finding])
    ∧ (ports ≠ [] →
         length vulns = Nat.min 4 (length ports)
         ∧ ∀ i line, take 4 ports !! i = Some line →
             vulns !! i
             = Some (lit "[" ++ severity_coded (Z.of_nat i + 1) ++ lit "] " ++ line)).
Proof.
  intros Hn Hz Ha ports.
  eexists _, _. split; [exact (estimate_risk_outputs _ _ _ _ Hn Hz Ha)|].
  fold ports. destruct ports as [|p ps] eqn:Hp.
  - split; [reflexivity | done].
  - split; [done|]. intros _. unfold labelled. split.
    + rewrite length_imap, length_take. lia.
    + intros i line Hi. rewrite list_lookup_imap, Hi. reflexivity.
Qed.

End RiskClaims.

Lemma sample_nmap_outputs with_zap :
  nmap_outputs (sample_scan with_zap) [sample_stdout].
Proof.
  destruct with_zap.
  all: eexists _, _, _; split; [vm_compute; reflexivity|];
    split; [vm_compute; reflexivity|]; split; [vm_compute; reflexivity|].
  all: constructor; [vm_compute; reflexivity | constructor].
Qed.

Lemma sample_status_zap :
  finding_status (sample_scan true) (lit "zap") (VStr (lit "available")).
Proof.
  eexists _, _. split; [vm_compute; reflexivity|].
  split; vm_compute; reflexivity.
Qed.

Lemma sample_status_arachni with_zap :
  finding_status (sample_scan with_zap) (lit "arachni") VNone.
Proof.
  destruct with_zap.
  all: eexists _, _; split; [vm_compute; reflexivity|];
    split; vm_compute; reflexivity.
Qed.

Lemma estimate_risk_level_witness :
  nmap_outputs (sample_scan true) [sample_stdout]
  ∧ finding_status (sample_scan true) (lit "zap") (VStr (lit "available"))
  ∧ finding_status (sample_scan true) (lit "arachni") VNone
  ∧ ∃ vulns, _estimate_risk (sample_scan true)
             = Ok (risk_level (issue_count (length (open_port_lines [sample_stdout]))
                                 true false), vulns).
Proof.
  split; [exact (sample_nmap_outputs true)|].
  split; [exact sample_status_zap|].
  split; [exact (sample_status_arachni true)|].
  exact (proj1 (estimate_risk_level (sample_scan true) [sample_stdout] _ _
                  (sample_nmap_outputs true) sample_status_zap
                  (sample_status_arachni true))).
Defined.

(** The example of the specification: five port lines give MEDIUM, and
    HIGH once zap is available. *)
Example sample_levels :
  length (open_port_lines [sample_stdout]) = 5%nat
  ∧ (∃ vulns, _estimate_risk (sample_scan false) = Ok (lit "MEDIUM", vulns))
  ∧ (∃ vulns, _estimate_risk (sample_scan true) = Ok (lit "HIGH", vulns)).
Proof.
  split; [vm_compute; reflexivity|].
  split; eexists; vm_compute; reflexivity.
Qed.

Lemma estimate_risk_findings_witness :
  nmap_outputs (sample_scan true) [sample_stdout]
  ∧ finding_status (sample_scan true) (lit "zap") (VStr (lit "available"))
  ∧ finding_status (sample_scan true) (lit "arachni") VNone
  ∧ ∃ level vulns,
      _estimate_risk (sample_scan true) = Ok (level, vulns)
      ∧ vulns !! 0%nat = Some (lit "[LOW] 22/tcp   open  ssh")
      ∧ vulns !! 1%nat = Some (lit "[MEDIUM] 80/tcp   open  http")
      ∧ length vulns = 4%nat.
Proof.
  split; [exact (sample_nmap_outputs true)|].
  split; [exact sample_status_zap|].
  split; [exact (sample_status_arachni true)|].
  destruct (estimate_risk_findings (sample_scan true) [sample_stdout] _ _
              (sample_nmap_outputs true) sample_status_zap
              (sample_status_arachni true))
    as (level & vulns & Hrun & _ & Hsome).
  exists level, vulns. split; [exact Hrun|].
  destruct Hsome as [Hlen Hat]; [vm_compute; discriminate|].
  split; [rewrite (Hat 0%nat (lit "22/tcp   open  ssh")); vm_compute; reflexivity|].
  split; [rewrite (Hat 1%nat (lit "80/tcp   open  http")); vm_compute; reflexivity|].
  rewrite Hlen. vm_compute. reflexivity.
Defined.

(** C1, as stated, fails: the first finding of a record with one open
    port is labelled LOW, where the claim has MEDIUM for index 1. *)
Lemma estimate_risk_findings_claimed_label_fails :
  _estimate_risk one_port_scan = Ok (lit "LOW", [lit "[LOW] 22/tcp open ssh"])
  ∧ [lit "[LOW] 22/tcp open ssh"] ≠ labelled severity_claimed [lit "22/tcp open ssh"].
Proof.
  split; [vm_compute; reflexivity|].
  intros H. vm_compute in H. discriminate H.
Qed.

Lemma sample_report :
  build_pdf_report ascii_upper (sample_scan true) = Ok sample_pdf.
Proof. vm_compute. reflexivity. Qed.

Lemma report_offset_bookkeeping_witness :
  build_pdf_report ascii_upper (sample_scan true) = Ok sample_pdf
  ∧ offset_contract sample_pdf.
Proof.
  split; [exact sample_report|].
  exact (report_offset_bookkeeping ascii_upper (sample_scan true) sample_pdf
           sample_report).
Defined.

End AppFacts.

(** ** The report on equal records *)

Module OrderedFacts.

Import Ordered OrderedSpec AppSpec.

(** The body of the loop over the phases. *)
#[local] Abbreviation body :=
  (λ (ports : list pystr) (phase : oval),
    stdout ← py_get phase (lit "stdout") (OStr []);
    lines ← py_splitlines stdout;
    Ok (fold_left (λ ports line,
          let stripped := strip line in
          if App.is_port_line stripped then ports ++ [stripped] else ports)
        lines ports)).

Section EqualityFacts.

Lemma number_not_dict a z : number a = Some z → ∀ k d, py_get a k d = Raise AttributeError.
Proof. by destruct a. Qed.

Lemma default_equal : py_equal (ODict []) (ODict []).
Proof. constructor. intros k. constructor. Qed.

Lemma empty_list_equal : py_equal (OList []) (OList []).
Proof. constructor. constructor. Qed.

(** [.get] on equal values gives equal values, or fails alike. *)
Lemma get_equal a b k da db :
  py_equal a b → py_equal da db → outcome_equal (py_get a k da) (py_get b k db).
Proof.
  intros Hab Hd. destruct Hab as [|a b z Ha Hb|s|l1 l2 _|items1 items2 Hk];
    try reflexivity.
  - by rewrite (number_not_dict a z Ha), (number_not_dict b z Hb).
  - cbn [py_get outcome_equal]. by destruct (Hk k).
Qed.

Lemma eq_str_equal a b s : py_equal a b → py_eq_str a s = py_eq_str b s.
Proof.
  intros [|a' b' z Ha Hb| | |]; try reflexivity.
  destruct a', b'; try discriminate; reflexivity.
Qed.

Lemma splitlines_equal a b : py_equal a b → py_splitlines a = py_splitlines b.
Proof.
  intros [|a' b' z Ha Hb| | |]; try reflexivity.
  destruct a', b'; try discriminate; reflexivity.
Qed.

Lemma items_empty items1 items2 :
  (∀ k, option_Forall2 py_equal (assoc k items1) (assoc k items2)) →
  items1 = [] ↔ items2 = [].
Proof.
  intros Hk. split; intros ->.
  - destruct items2 as [|[k v] rest]; [done|].
    specialize (Hk k). cbn [assoc] in Hk.
    rewrite bool_decide_eq_true_2 in Hk by done. inversion Hk.
  - destruct items1 as [|[k v] rest]; [done|].
    specialize (Hk k). cbn [assoc] in Hk.
    rewrite bool_decide_eq_true_2 in Hk by done. inversion Hk.
Qed.

End EqualityFacts.

Section LoopFacts.

Lemma body_equal ports phase1 phase2 :
  py_equal phase1 phase2 → body ports phase1 = body ports phase2.
Proof.
  intros H. cbv beta.
  pose proof (get_equal phase1 phase2 (lit "stdout") (OStr []) (OStr []) H
                (equal_str [])) as Hg.
  destruct (py_get phase1 _ _) as [x|e1], (py_get phase2 _ _) as [y|e2];
    cbn [outcome_equal] in Hg; try done.
  - rewrite !bind_Ok. by rewrite (splitlines_equal x y Hg).
  - by subst.
Qed.

Lemma loop_equal l1 l2 ports :
  Forall2 py_equal l1 l2 → for_each body l1 ports = for_each body l2 ports.
Proof.
  intros H. revert ports. induction H as [|x y l1 l2 Hxy _ IH]; intros ports.
  - reflexivity.
  - cbn [for_each]. pose proof (body_equal ports x y Hxy) as Hb.
    cbv beta zeta in Hb |- *. rewrite Hb.
    match goal with |- (?m ≫= _) = _ => destruct m as [ports'|e] end;
      [|reflexivity].
    rewrite !bind_Ok. apply IH.
Qed.

(** A key is a string, and the body fails on a string: a loop over the
    keys of a dict fails at its first key, whichever it is. *)
Lemma loop_keys k (rest : list oval) ports :
  for_each body (OStr k :: rest) ports = Raise AttributeError.
Proof. reflexivity. Qed.

(** The loop over equal values does the same, in whatever order a dict
    among them holds its keys. *)
Lemma iteration_equal a b ports :
  py_equal a b →
  (py_iter a ≫= λ phases, for_each body phases ports)
  = (py_iter b ≫= λ phases, for_each body phases ports).
Proof.
  intros [|a' b' z Ha Hb|s|l1 l2 Hl|items1 items2 Hk]; try reflexivity.
  - destruct a', b'; try discriminate; reflexivity.
  - cbn [py_iter]. rewrite !bind_Ok. by apply loop_equal.
  - cbn [py_iter]. rewrite !bind_Ok.
    pose proof (items_empty items1 items2 Hk) as He.
    destruct items1 as [|[k1 v1] rest1], items2 as [|[k2 v2] rest2].
    + reflexivity.
    + by destruct (proj1 He eq_refl).
    + by destruct (proj2 He eq_refl).
    + cbn [fmap list_fmap compose fst]. by rewrite !loop_keys.
Qed.

End LoopFacts.

Section ReaderFacts.

Lemma extract_port_lines_equal scan1 scan2 :
  py_equal (result scan1) (result scan2) →
  Ordered._extract_port_lines scan1 = Ordered._extract_port_lines scan2.
Proof.
  intros Hr. unfold Ordered._extract_port_lines.
  pose proof (get_equal _ _ (lit "findings") _ _ Hr default_equal) as Hf.
  destruct (py_get (result scan1) _ _) as [f1|e1],
           (py_get (result scan2) _ _) as [f2|e2];
    cbn [outcome_equal] in Hf; try done; [|by subst].
  rewrite !bind_Ok.
  pose proof (get_equal _ _ (lit "nmap") _ _ Hf default_equal) as Hn.
  destruct (py_get f1 _ _) as [n1|e1], (py_get f2 _ _) as [n2|e2];
    cbn [outcome_equal] in Hn; try done; [|by subst].
  rewrite !bind_Ok.
  pose proof (get_equal _ _ (lit "phases") _ _ Hn empty_list_equal) as Hp.
  destruct (py_get n1 _ _) as [p1|e1], (py_get n2 _ _) as [p2|e2];
    cbn [outcome_equal] in Hp; try done; [|by subst].
  rewrite !bind_Ok.
  pose proof (iteration_equal p1 p2 [] Hp) as Hloop.
  destruct (py_iter p1) as [l1|e1], (py_iter p2) as [l2|e2];
    rewrite ?bind_Ok, ?bind_Raise in *; cbv zeta in *.
  - by rewrite Hloop.
  - by rewrite Hloop.
  - by rewrite <- Hloop.
  - by rewrite Hloop.
Qed.

Lemma status_equal f1 f2 tool :
  py_equal f1 f2 →
  match py_get f1 tool (ODict []) ≫= λ finding, py_get finding (lit "status") ONone,
        py_get f2 tool (ODict []) ≫= λ finding, py_get finding (lit "status") ONone
  with
  | Ok s1, Ok s2 => py_eq_str s1 (lit "available") = py_eq_str s2 (lit "available")
  | Raise e1, Raise e2 => e1 = e2
  | _, _ => False
  end.
Proof.
  intros Hf.
  pose proof (get_equal _ _ tool _ _ Hf default_equal) as Ht.
  destruct (py_get f1 _ _) as [t1|e1], (py_get f2 _ _) as [t2|e2];
    cbn [outcome_equal] in Ht; try done.
  rewrite !bind_Ok.
  pose proof (get_equal _ _ (lit "status") _ _ Ht equal_none) as Hs.
  destruct (py_get t1 _ _) as [s1|e1], (py_get t2 _ _) as [s2|e2];
    cbn [outcome_equal] in Hs; try done.
  by apply eq_str_equal.
Qed.

Lemma estimate_risk_equal scan1 scan2 :
  py_equal (result scan1) (result scan2) →
  Ordered._estimate_risk scan1 = Ordered._estimate_risk scan2.
Proof.
  intros Hr. unfold Ordered._estimate_risk.
  rewrite (extract_port_lines_equal scan1 scan2 Hr).
  destruct (Ordered._extract_port_lines scan2) as [ports|e]; [|reflexivity].
  rewrite !bind_Ok.
  pose proof (get_equal _ _ (lit "findings") _ _ Hr default_equal) as Hf.
  destruct (py_get (result scan1) _ _) as [f1|e1],
           (py_get (result scan2) _ _) as [f2|e2];
    cbn [outcome_equal] in Hf; try done; [|by subst].
  rewrite !bind_Ok. cbv zeta.
  pose proof (status_equal f1 f2 (lit "zap") Hf) as Hz.
  destruct (py_get f1 (lit "zap") _ ≫= _) as [z1|e1],
           (py_get f2 (lit "zap") _ ≫= _) as [z2|e2]; try done; [|by subst].
  rewrite !bind_Ok, Hz.
  pose proof (status_equal f1 f2 (lit "arachni") Hf) as Ha.
  destruct (py_get f1 (lit "arachni") _ ≫= _) as [a1|e1],
           (py_get f2 (lit "arachni") _ ≫= _) as [a2|e2]; try done; [|by subst].
  rewrite !bind_Ok, Ha. reflexivity.
Qed.

End ReaderFacts.

(** *** The two embeddings of the readers agree *)

Section RefinementFacts.

Lemma lookup_unordered k items :
  (list_to_map ((λ item, (item.1, unordered item.2)) <$> items)
     : gmap pystr pyval) !! k
  = unordered <$> assoc k items.
Proof.
  induction items as [|[k' v] rest IH]; [apply lookup_empty|].
  cbn [fmap list_fmap list_to_map foldr fst snd assoc].
  change (foldr _ ∅ _) with
    (list_to_map ((λ item, (item.1, unordered item.2)) <$> rest)
       : gmap pystr pyval).
  case_bool_decide as Hk.
  - subst. by rewrite lookup_insert_eq.
  - by rewrite lookup_insert_ne.
Qed.

Lemma get_unordered v k d :
  Py.py_get (unordered v) k (unordered d)
  = (Ordered.py_get v k d ≫= λ x, Ok (unordered x)).
Proof.
  destruct v; try reflexivity. cbn [unordered Py.py_get Ordered.py_get].
  rewrite lookup_unordered, bind_Ok. by destruct (assoc k items).
Qed.

Lemma splitlines_unordered v :
  App.py_splitlines (unordered v) = Ordered.py_splitlines v.
Proof. by destruct v. Qed.

Lemma eq_str_unordered v s : App.py_eq_str (unordered v) s = Ordered.py_eq_str v s.
Proof. by destruct v. Qed.

(** The body of the loop over the phases in [App]. *)
#[local] Abbreviation body' :=
  (λ (ports : list pystr) (phase : pyval),
    stdout ← Py.py_get phase (lit "stdout") (VStr []);
    lines ← App.py_splitlines stdout;
    Ok (fold_left (λ ports line,
          let stripped := strip line in
          if App.is_port_line stripped then ports ++ [stripped] else ports)
        lines ports)).

Lemma body_unordered ports phase :
  body' ports (unordered phase) = body ports phase.
Proof.
  cbv beta. change (VStr []) with (unordered (OStr [])).
  rewrite get_unordered.
  destruct (Ordered.py_get phase _ _) as [x|e]; [|reflexivity].
  rewrite !bind_Ok. by rewrite splitlines_unordered.
Qed.

Lemma loop_unordered l ports :
  for_each body' (unordered <$> l) ports = for_each body l ports.
Proof.
  revert ports. induction l as [|x l IH]; intros ports; [reflexivity|].
  cbn [fmap list_fmap for_each]. pose proof (body_unordered ports x) as Hb.
  cbv beta zeta in Hb |- *. rewrite Hb.
  match goal with |- (?m ≫= _) = _ => destruct m as [ports'|e] end;
    [|reflexivity].
  rewrite !bind_Ok. apply IH.
Qed.

Lemma loop_strings (f : pystr → pyval) ports (l : list pystr) :
  (∀ s, ∃ s', f s = VStr s') →
  for_each body' (f <$> l) ports
  = match l with [] => Ok ports | _ => Raise AttributeError end.
Proof.
  intros Hf. destruct l as [|s l]; [reflexivity|].
  cbn [fmap list_fmap for_each]. by destruct (Hf s) as [s' ->].
Qed.

Lemma iteration_unordered v ports :
  (App.py_iter (unordered v) ≫= λ phases, for_each body' phases ports)
  = (Ordered.py_iter v ≫= λ phases, for_each body phases ports).
Proof.
  destruct v as [| | |s|l|items]; try reflexivity.
  - cbn [unordered App.py_iter Ordered.py_iter]. rewrite !bind_Ok.
    by destruct s.
  - cbn [unordered App.py_iter Ordered.py_iter]. rewrite !bind_Ok.
    apply loop_unordered.
  - cbn [unordered App.py_iter Ordered.py_iter]. rewrite !bind_Ok.
    destruct items as [|[k v] rest]; [reflexivity|].
    cbn [fmap list_fmap compose fst for_each].
    set (m := list_to_map _).
    assert (map_to_list m ≠ []) as Hne.
    { intros Hnil. apply map_to_list_empty_iff in Hnil.
      assert (m !! k = None) as Hk by (by rewrite Hnil, lookup_empty).
      unfold m in Hk. cbn [fmap list_fmap list_to_map foldr fst snd] in Hk.
      by rewrite lookup_insert_eq in Hk. }
    destruct (map_to_list m) as [|[k' v'] rest']; [done|]. reflexivity.
Qed.

Lemma extract_port_lines_unordered scan :
  App._extract_port_lines (unordered_record scan) = Ordered._extract_port_lines scan.
Proof.
  unfold App._extract_port_lines, Ordered._extract_port_lines.
  cbn [App.result unordered_record].
  change (VDict ∅) with (unordered (ODict [])).
  change (VList []) with (unordered (OList [])).
  rewrite get_unordered.
  destruct (Ordered.py_get (result scan) _ _) as [f|e]; [|reflexivity].
  rewrite !bind_Ok, get_unordered.
  destruct (Ordered.py_get f _ _) as [n|e]; [|reflexivity].
  rewrite !bind_Ok, get_unordered.
  destruct (Ordered.py_get n _ _) as [p|e]; [|reflexivity].
  rewrite !bind_Ok.
  pose proof (iteration_unordered p []) as Hloop.
  destruct (App.py_iter _) as [l1|e1], (Ordered.py_iter p) as [l2|e2];
    rewrite ?bind_Ok, ?bind_Raise in *; cbv zeta in *.
  - by rewrite Hloop.
  - by rewrite Hloop.
  - by rewrite <- Hloop.
  - by rewrite Hloop.
Qed.

Lemma status_unordered f tool :
  (Py.py_get (unordered f) tool (VDict ∅)
     ≫= λ finding, Py.py_get finding (lit "status") VNone)
  = (Ordered.py_get f tool (ODict [])
       ≫= λ finding, Ordered.py_get finding (lit "status") ONone)
      ≫= λ status, Ok (unordered status).
Proof.
  change (VDict ∅) with (unordered (ODict [])).
  change VNone with (unordered ONone).
  rewrite get_unordered.
  destruct (Ordered.py_get f _ _) as [t|e]; [|reflexivity].
  rewrite !bind_Ok. by rewrite get_unordered.
Qed.

Lemma estimate_risk_unordered scan :
  App._estimate_risk (unordered_record scan) = Ordered._estimate_risk scan.
Proof.
  unfold App._estimate_risk, Ordered._estimate_risk.
  rewrite extract_port_lines_unordered.
  destruct (Ordered._extract_port_lines scan) as [ports|e]; [|reflexivity].
  rewrite !bind_Ok. cbn [App.result unordered_record].
  change (Py.py_get (unordered (result scan)) (lit "findings") (VDict ∅))
    with (Py.py_get (unordered (result scan)) (lit "findings")
            (unordered (ODict []))).
  rewrite get_unordered.
  destruct (Ordered.py_get (result scan) _ _) as [f|e]; [|reflexivity].
  rewrite !bind_Ok. cbv zeta.
  rewrite !status_unordered.
  destruct (Ordered.py_get f (lit "zap") _ ≫= _) as [z|e]; [|reflexivity].
  rewrite !bind_Ok, eq_str_unordered.
  destruct (Ordered.py_get f (lit "arachni") _ ≫= _) as [a|e]; [|reflexivity].
  rewrite !bind_Ok, eq_str_unordered. reflexivity.
Qed.

(** The readers on ordered values do what the readers of [App] do on the
    same values with the order of the keys forgotten. *)
Lemma build_pdf_report_unordered upper scan :
  App.build_pdf_report upper (unordered_record scan)
  = Ordered.build_pdf_report upper scan.
Proof.
  unfold App.build_pdf_report, Ordered.build_pdf_report,
    App.report_content, Ordered.report_content.
  rewrite estimate_risk_unordered, extract_port_lines_unordered.
  reflexivity.
Qed.

End RefinementFacts.

Section Determinism.
Variable upper : pystr → pystr.

(** C5. Two runs on equal input give byte-identical output: records that
    are equal as Python values, their dicts holding the same keys and
    values in whatever order, render to the same bytes or fail with the
    same exception, on the ordered values and in the embedding of [App]
    alike. The renderer calls nothing outside the record (no clock, no
    random source, no file), and the one loop that may run over the keys
    of a dict fails at its first key whichever it is. *)
Theorem report_deterministic scan1 scan2 :
  record_equal scan1 scan2 →
  Ordered.build_pdf_report upper scan1 = Ordered.build_pdf_report upper scan2
  ∧ App.build_pdf_report upper (unordered_record scan1)
    = App.build_pdf_report upper (unordered_record scan2).
Proof.
  intros (Hid & Ht & _ & Hm & _ & Hc & Hr).
  assert (Ordered.build_pdf_report upper scan1
          = Ordered.build_pdf_report upper scan2) as H.
  { unfold Ordered.build_pdf_report, Ordered.report_content.
    by rewrite (estimate_risk_equal scan1 scan2 Hr),
      (extract_port_lines_equal scan1 scan2 Hr), Hid, Ht, Hm, Hc. }
  split; [exact H|]. by rewrite !build_pdf_report_unordered.
Qed.

End Determinism.

(** *** The same scan with its keys in two orders *)

Lemma single_key_equal k v w :
  py_equal v w → py_equal (ODict [(k, v)]) (ODict [(k, w)]).
Proof.
  intros H. constructor. intros k'. cbn [assoc].
  case_bool_decide; by constructor.
Qed.

Lemma swapped_keys_equal k1 k2 v1 v2 w1 w2 :
  k1 ≠ k2 → py_equal v1 w1 → py_equal v2 w2 →
  py_equal (ODict [(k1, v1); (k2, v2)]) (ODict [(k2, w2); (k1, w1)]).
Proof.
  intros Hk H1 H2. constructor. intros k. cbn [assoc].
  repeat case_bool_decide; subst; try done; by constructor.
Qed.

Lemma ordered_scans_equal : record_equal (ordered_scan true) (ordered_scan false).
Proof.
  repeat (split; [reflexivity|]).
  apply single_key_equal. apply swapped_keys_equal; [lit_neq| |].
  - apply single_key_equal. constructor. constructor; [|constructor].
    apply swapped_keys_equal; [lit_neq | constructor..].
  - apply single_key_equal. constructor.
Qed.

Lemma report_deterministic_witness :
  record_equal (ordered_scan true) (ordered_scan false)
  ∧ Ordered.build_pdf_report ascii_upper (ordered_scan true)
    = Ordered.build_pdf_report ascii_upper (ordered_scan false)
  ∧ App.build_pdf_report ascii_upper (unordered_record (ordered_scan true))
    = App.build_pdf_report ascii_upper (unordered_record (ordered_scan false)).
Proof.
  split; [exact ordered_scans_equal|].
  exact (report_deterministic ascii_upper (ordered_scan true) (ordered_scan false)
           ordered_scans_equal).
Defined.

(** The keys of the two records do come in two orders. *)
Example ordered_scans_differ : ordered_scan true ≠ ordered_scan false.
Proof. intros H. vm_compute in H. discriminate H. Qed.
End OrderedFacts.

(** * Further properties

    Properties the code shows beyond the specification: how validation
    normalises, what the adapters do to the machine, what a scan result
    looks like, and how the report reads it. *)

(** ** More facts about stripping *)

Section StripFacts.

Lemma lstrip_idem s : lstrip (lstrip s) = lstrip s.
Proof.
  induction s as [|c s IH]; [done|]. cbn [lstrip].
  destruct (isspace c) eqn:Hc; [done|]. cbn [lstrip]. by rewrite Hc.
Qed.

Lemma lstrip_nonspace_head c s : isspace c = false → lstrip (c :: s) = c :: s.
Proof. intros H. cbn [lstrip]. by rewrite H. Qed.

(** A string that neither begins nor ends with whitespace is its own
    stripped form. *)
Lemma strip_fixed s :
  (∀ c, head s = Some c → isspace c = false) →
  (∀ c, last s = Some c → isspace c = false) →
  strip s = s.
Proof.
  intros Hh Hl. unfold strip, rstrip.
  assert (lstrip s = s) as ->.
  { destruct s as [|c t]; [done|]. apply lstrip_nonspace_head, Hh. done. }
  assert (lstrip (rev s) = rev s) as ->; [|apply rev_involutive].
  destruct (rev s) as [|c t] eqn:E; [done|].
  apply lstrip_nonspace_head, Hl.
  rewrite <- (rev_involutive s), E, rev_reverse, last_reverse. done.
Qed.

Lemma strip_idem s : strip (strip s) = strip s.
Proof.
  apply strip_fixed.
  - intros c Hc. destruct (strip s) as [|x t] eqn:E; [done|].
    injection Hc as ->. by apply (strip_head s c t).
  - apply strip_last.
Qed.

End StripFacts.

(** ** The scanner *)

Module ScannerExtras.

Import Re Scanner ScannerSpec ScannerFacts TextSpec AdapterSpec.

(** *** Lower case and the domain grammar *)

Section CaseFacts.

Lemma lower_fmap s : lower s = lower_char <$> s.
Proof. reflexivity. Qed.

Lemma lower_char_letter c : is_letter c → is_letter (lower_char c).
Proof.
  unfold is_letter, lower_char. intros H.
  destruct (N.leb_spec 65 c), (N.leb_spec c 90); cbn [andb]; lia.
Qed.

Lemma lower_char_ldh c : is_ldh c → is_ldh (lower_char c).
Proof.
  unfold is_ldh. intros [H|H]; [left; by apply lower_char_letter|].
  right. unfold lower_char.
  destruct (N.leb_spec 65 c), (N.leb_spec c 90); cbn [andb]; lia.
Qed.

Lemma lower_char_hyphen c : lower_char c = 45%N → c = 45%N.
Proof.
  unfold lower_char.
  destruct (N.leb_spec 65 c), (N.leb_spec c 90); cbn [andb]; lia.
Qed.

Lemma lower_char_idem c : lower_char (lower_char c) = lower_char c.
Proof.
  unfold lower_char.
  destruct (N.leb_spec 65 c), (N.leb_spec c 90); cbn [andb];
    destruct (N.leb_spec 65 (c + 32)), (N.leb_spec (c + 32) 90); cbn [andb];
    try lia; destruct (N.leb_spec 65 c), (N.leb_spec c 90); cbn [andb]; lia.
Qed.

Lemma lower_idem s : lower (lower s) = lower s.
Proof.
  induction s as [|c s IH]; [done|].
  change (lower (c :: s)) with (lower_char c :: lower s).
  change (lower (lower_char c :: lower s))
    with (lower_char (lower_char c) :: lower (lower s)).
  by rewrite lower_char_idem, IH.
Qed.

Lemma lower_app s t : lower (s ++ t) = lower s ++ lower t.
Proof. unfold lower. apply fmap_app. Qed.

Lemma lower_length s : length (lower s) = length s.
Proof. unfold lower. apply length_fmap. Qed.

Lemma lower_dotted labels : lower (dotted labels) = dotted (lower <$> labels).
Proof.
  induction labels as [|l labels IH]; [done|].
  rewrite fmap_cons, !dotted_cons, lower_app.
  change (lower (46%N :: dotted labels)) with (46%N :: lower (dotted labels)).
  by rewrite IH.
Qed.

Lemma label_ok_lower l : label_ok l → label_ok (lower l).
Proof.
  intros [Hlen Hall]. split; [by rewrite lower_length|].
  rewrite lower_fmap. apply Forall_fmap.
  eapply Forall_impl; [exact Hall|]. intros c. apply lower_char_ldh.
Qed.

Lemma tld_ok_lower l : tld_ok l → tld_ok (lower l).
Proof.
  intros [Hlen Hall]. split; [by rewrite lower_length|].
  rewrite lower_fmap. apply Forall_fmap.
  eapply Forall_impl; [exact Hall|]. intros c. apply lower_char_letter.
Qed.

(** Lower-casing keeps a domain in the grammar. *)
Lemma domain_form_lower t : domain_form t → domain_form (lower t).
Proof.
  intros (Hlen & Hhead & labels & tld & Hne & -> & Hall & Htld).
  split; [by rewrite lower_length|]. split.
  - destruct (dotted labels ++ tld) as [|c r]; [done|].
    change (lower (c :: r)) with (lower_char c :: lower r).
    cbn [head]. intros [= Hc]. apply lower_char_hyphen in Hc as ->. done.
  - exists (lower <$> labels), (lower tld).
    split; [by destruct labels|]. split.
    + by rewrite lower_app, lower_dotted.
    + split; [|by apply tld_ok_lower].
      apply Forall_fmap. eapply Forall_impl; [exact Hall|]. apply label_ok_lower.
Qed.

Lemma dotted_alphabet labels :
  Forall label_ok labels → Forall (λ c, is_ldh c ∨ c = 46%N) (dotted labels).
Proof.
  induction 1 as [|l labels [_ Hl] _ IH]; [constructor|].
  rewrite dotted_cons. apply Forall_app. split.
  - eapply Forall_impl; [exact Hl|]. by left.
  - constructor; [by right | done].
Qed.

(** A domain in the grammar holds letters, digits, hyphens and dots only. *)
Lemma domain_form_alphabet t :
  domain_form t → Forall (λ c, is_ldh c ∨ c = 46%N) t.
Proof.
  intros (_ & _ & labels & tld & _ & -> & Hall & [_ Htld]).
  apply Forall_app. split; [by apply dotted_alphabet|].
  eapply Forall_impl; [exact Htld|]. intros c Hc. left. by left.
Qed.

Lemma ldh_not_space c : is_ldh c ∨ c = 46%N → isspace c = false.
Proof.
  intros H. apply not_true_is_false. intros Hs. unfold isspace in Hs.
  rewrite !orb_true_iff, !andb_true_iff, !N.leb_le, !N.eqb_eq in Hs.
  unfold is_ldh, is_letter in H. lia.
Qed.

Lemma domain_form_stripped t : domain_form t → strip t = t.
Proof.
  intros Hf. pose proof (domain_form_alphabet t Hf) as Ha.
  apply strip_fixed.
  - intros c Hc. apply ldh_not_space. destruct t as [|x r]; [done|].
    injection Hc as ->. by apply Forall_cons in Ha as [? _].
  - intros c Hc. apply ldh_not_space. apply last_Some in Hc as [r ->].
    apply Forall_app in Ha as [_ Ha]. by apply Forall_cons in Ha as [? _].
Qed.

End CaseFacts.

(** *** Target validation *)

Section ValidationExtras.
Context {W : Type} (env : Env W).

(** X1. A blank target is refused whatever the kind, before the kind is
    looked at. *)
Theorem validate_blank_target s kind :
  Forall (λ c, isspace c = true) s →
  validate_target env s kind = Raise (ValueError (lit "กรุณาระบุเป้าหมาย")).
Proof.
  intros Hs. unfold validate_target. cbv zeta.
  assert (lstrip s = []) as Hl.
  { induction Hs as [|c s Hc _ IH]; [done|]. cbn [lstrip]. by rewrite Hc. }
  assert (strip s = []) as -> by (unfold strip, rstrip; by rewrite Hl).
  rewrite bool_decide_eq_true_2 by done. reflexivity.
Qed.

(** X2. A kind other than ip, domain and url is refused for every target
    that is not blank. *)
Theorem validate_unknown_kind s kind :
  strip s ≠ [] → kind ∉ [lit "ip"; lit "domain"; lit "url"] →
  validate_target env s kind = Raise (ValueError (lit "ประเภทเป้าหมายไม่ถูกต้อง")).
Proof.
  intros Hs Hk. unfold validate_target. cbv zeta.
  rewrite bool_decide_eq_false_2 by done.
  rewrite !bool_decide_eq_false_2; [reflexivity|..]; intros ->; apply Hk; set_solver.
Qed.

(** X3. A validated domain validates again, to itself. *)
Theorem validate_domain_idempotent s r :
  validate_target env s (lit "domain") = Ok r →
  validate_target env r (lit "domain") = Ok r.
Proof.
  intros H. apply validate_domain_iff in H as [Hf ->].
  apply domain_form_lower in Hf.
  apply validate_domain_iff. rewrite (domain_form_stripped _ Hf).
  split; [done | by rewrite lower_idem].
Qed.

(** X4. A validated domain is in lower case: lower-case letters, digits,
    hyphens and dots. *)
Theorem validate_domain_lower_case s r :
  validate_target env s (lit "domain") = Ok r →
  Forall (λ c, (97 ≤ c ≤ 122 ∨ 48 ≤ c ≤ 57 ∨ c = 45 ∨ c = 46)%N) r.
Proof.
  intros H. apply validate_domain_iff in H as [Hf ->].
  rewrite lower_fmap. apply Forall_fmap.
  eapply Forall_impl; [exact (domain_form_alphabet _ Hf)|].
  intros c. unfold is_ldh, is_letter, lower_char. cbn.
  destruct (N.leb_spec 65 c), (N.leb_spec c 90); cbn [andb]; lia.
Qed.

(** X5. Whatever the kind, a validated target is not empty and has no
    whitespace around it. *)
Theorem validate_target_trimmed s kind r :
  validate_target env s kind = Ok r → r ≠ [] ∧ strip r = r.
Proof.
  destruct (decide (kind = lit "domain")) as [->|Hk].
  - intros H. apply validate_domain_iff in H as [Hf ->].
    apply domain_form_lower in Hf.
    split; [by apply domain_form_nonempty | by apply domain_form_stripped].
  - unfold validate_target. cbv zeta. case_bool_decide as Hs; [done|].
    case_bool_decide.
    { destruct (ip_address env (strip s)); [|done]. rewrite bind_Ok.
      intros [= <-]. split; [done | apply strip_idem]. }
    rewrite (bool_decide_eq_false_2 (kind = lit "domain")) by done.
    case_bool_decide; [|done].
    destruct (urlparse env (strip s)) as [parsed|]; [|done]. rewrite bind_Ok.
    destruct (_ || _); [done|]. intros [= <-]. split; [done | apply strip_idem].
Qed.

Lemma validate_url_parses s t :
  validate_target env s (lit "url") = Ok t → ∃ parsed, urlparse env t = Ok parsed.
Proof.
  unfold validate_target. cbv zeta. case_bool_decide; [done|].
  rewrite (bool_decide_eq_false_2 (lit "url" = lit "ip")) by lit_neq.
  rewrite (bool_decide_eq_false_2 (lit "url" = lit "domain")) by lit_neq.
  rewrite (bool_decide_eq_true_2 (lit "url" = lit "url")) by reflexivity.
  destruct (urlparse env (strip s)) as [parsed|] eqn:E; [|done].
  rewrite bind_Ok. destruct (_ || _); [done|]. intros [= <-]. eauto.
Qed.

(** X26. Only a domain is rewritten: for every other kind the value returned
    is the target as given, stripped, with its case kept. *)
Theorem validate_target_keeps_text s kind r :
  kind ≠ lit "domain" → validate_target env s kind = Ok r → r = strip s.
Proof.
  intros Hk. unfold validate_target. cbv zeta. case_bool_decide as Hs; [done|].
  case_bool_decide.
  { destruct (ip_address env (strip s)); [|done]. rewrite bind_Ok. by intros [= <-]. }
  rewrite (bool_decide_eq_false_2 (kind = lit "domain")) by done.
  case_bool_decide; [|done].
  destruct (urlparse env (strip s)) as [parsed|]; [|done]. rewrite bind_Ok.
  destruct (_ || _); [done|]. by intros [= <-].
Qed.

End ValidationExtras.

(** *** The adapters *)

Section AdapterExtras.
Context {W : Type} (env : Env W).

(** X6. A target that does not validate stops the scan at once: the error
    is passed on as it is, no adapter runs, and only the clock was read. *)
Theorem run_scan_invalid_target config (s : Sys W) e :
  validate_target env (target config) (target_type config) = Raise e →
  ∃ w, run_scan env config s
       = (Raise e, {| world := w; trace := trace s ++ [ENow] |}).
Proof.
  intros Hv. unfold run_scan. unfold bind at 1.
  destruct (utc_now_spec env s) as (t0 & w0 & ->).
  unfold bind at 1. unfold lift at 1. rewrite Hv. eauto.
Qed.

Lemma shutil_which_spec name (s : Sys W) :
  ∃ found w, which env name (world s) = (found, w)
    ∧ shutil_which env name s
      = (Ok found, {| world := w; trace := trace s ++ [EWhich name] |}).
Proof.
  unfold shutil_which, call. destruct (which env name (world s)) as [found w].
  eauto.
Qed.

(** X7. The ZAP adapter never raises and never runs a process or resolves
    a name: it only looks for binaries, at most twice, and returns a
    finding that is skipped, simulated or available. *)
Theorem run_zap_harmless target target_type scan_mode (s : Sys W) :
  ∃ finding s' evs,
    run_zap env target target_type scan_mode s = (Ok finding, s')
    ∧ trace s' = trace s ++ evs ∧ Forall is_which evs ∧ (length evs ≤ 2)%nat
    ∧ web_finding finding.
Proof.
  unfold run_zap. destruct (negb _).
  - eexists _, s, []. split; [reflexivity|]. rewrite app_nil_r.
    split; [done|]. split; [constructor|]. split; [cbn; lia|].
    left. split; vm_compute; reflexivity.
  - unfold bind at 1. unfold bind at 1.
    destruct (shutil_which_spec (lit "zap.sh") s) as (z1 & w1 & _ & ->).
    destruct z1 as [[|c b]|]; cbn [truthy].
    1,3: match goal with |- context [shutil_which env (lit "zaproxy") ?s1] =>
           destruct (shutil_which_spec (lit "zaproxy") s1) as (z2 & w2 & _ & ->) end;
         destruct z2 as [[|c2 b2]|].
    all: unfold ret; eexists _, _, _; split; [reflexivity|]; cbn [trace];
         rewrite <- ?app_assoc; split; [reflexivity|];
         split; [repeat constructor; eexists; reflexivity|]; split; [cbn; lia|].
    all: first
      [ right; right; split; [vm_compute; reflexivity|];
        eexists; split; [vm_compute; reflexivity | discriminate]
      | right; left; split; [vm_compute; reflexivity|];
        split; [vm_compute; reflexivity|];
        eexists; split; [vm_compute; reflexivity | discriminate] ].
Qed.

(** X8. The Arachni adapter never raises and never runs a process or
    resolves a name: it looks for one binary at most, and returns a
    finding that is skipped, simulated or available. *)
Theorem run_arachni_harmless target target_type scan_mode (s : Sys W) :
  ∃ finding s' evs,
    run_arachni env target target_type scan_mode s = (Ok finding, s')
    ∧ trace s' = trace s ++ evs ∧ Forall is_which evs ∧ (length evs ≤ 1)%nat
    ∧ web_finding finding.
Proof.
  unfold run_arachni. destruct (negb _).
  - eexists _, s, []. split; [reflexivity|]. rewrite app_nil_r.
    split; [done|]. split; [constructor|]. split; [cbn; lia|].
    left. split; vm_compute; reflexivity.
  - unfold bind at 1.
    destruct (shutil_which_spec (lit "arachni") s) as (z1 & w1 & _ & ->).
    destruct z1 as [[|c b]|].
    all: unfold ret; eexists _, _, _; split; [reflexivity|]; cbn [trace];
         split; [reflexivity|];
         split; [repeat constructor; eexists; reflexivity|]; split; [cbn; lia|].
    all: first
      [ right; right; split; [vm_compute; reflexivity|];
        eexists; split; [vm_compute; reflexivity | discriminate]
      | right; left; split; [vm_compute; reflexivity|];
        split; [vm_compute; reflexivity|];
        eexists; split; [vm_compute; reflexivity | discriminate] ].
Qed.

Lemma run_zap_returns target target_type scan_mode (s : Sys W) :
  ∃ finding s', run_zap env target target_type scan_mode s = (Ok finding, s').
Proof.
  unfold run_zap. destruct (negb _); [unfold ret; eauto|].
  unfold bind at 1. unfold bind at 1.
  destruct (shutil_which_spec (lit "zap.sh") s) as (z1 & w1 & _ & ->).
  destruct z1 as [[|c b]|]; cbn [truthy].
  1,3: match goal with |- context [shutil_which env (lit "zaproxy") ?s1] =>
         destruct (shutil_which_spec (lit "zaproxy") s1) as (z2 & w2 & _ & ->) end;
       destruct z2 as [[|c2 b2]|].
  all: unfold ret; eauto.
Qed.

Lemma run_arachni_returns target target_type scan_mode (s : Sys W) :
  ∃ finding s', run_arachni env target target_type scan_mode s = (Ok finding, s').
Proof.
  unfold run_arachni. destruct (negb _); [unfold ret; eauto|].
  unfold bind at 1.
  destruct (shutil_which_spec (lit "arachni") s) as (z1 & w1 & _ & ->).
  destruct z1 as [[|c b]|]; unfold ret; eauto.
Qed.

(** X9. Name resolution asks the resolver once. An address is passed on,
    an [OSError] becomes the string "unresolved", and any other failure
    is passed on. *)
Theorem resolve_target_outcome host (s : Sys W) :
  let after w := {| world := w; trace := trace s ++ [EResolve host] |} in
  match gethostbyname env host (world s) with
  | (Ok address, w) => resolve_target env host s = (Ok address, after w)
  | (Raise OSError, w) =>
    resolve_target env host s = (Ok (lit "unresolved"), after w)
  | (Raise e, w) => resolve_target env host s = (Raise e, after w)
  end.
Proof.
  intros after. unfold resolve_target, try_except, call, ret.
  destruct (gethostbyname env host (world s)) as [[address|e] w]; [reflexivity|].
  destruct e; reflexivity.
Qed.

(** X10. Without an nmap binary the adapter returns [skipped] with a
    hint, and has only looked for the binary. *)
Theorem run_nmap_absent target target_type scan_mode (s : Sys W) found w :
  which env (lit "nmap") (world s) = (found, w) → truthy found = false →
  ∃ finding hint,
    run_nmap env target target_type scan_mode s
      = (Ok finding, {| world := w; trace := trace s ++ [EWhich (lit "nmap")] |})
    ∧ finding !! lit "status" = Some (VStr (lit "skipped"))
    ∧ finding !! lit "hint" = Some (VStr hint) ∧ hint ≠ []
    ∧ finding !! lit "phases" = None.
Proof.
  intros Hw Hf. unfold run_nmap. unfold bind at 1.
  destruct (shutil_which_spec (lit "nmap") s) as (found' & w' & Hw' & ->).
  rewrite Hw in Hw'. injection Hw' as <- <-.
  destruct found as [[|c b]|]; [| discriminate Hf |].
  all: unfold ret; eexists _, _; split; [reflexivity|].
  all: split; [vm_compute; reflexivity|]; split; [vm_compute; reflexivity|].
  all: split; [discriminate | vm_compute; reflexivity].
Qed.

(** X27. A URL without a host stops nmap before any phase: the finding has
    status [error] and a reason, and only the binary was looked for. *)
Theorem run_nmap_url_without_host target scan_mode (s : Sys W) nmap_bin w parsed :
  which env (lit "nmap") (world s) = (Some nmap_bin, w) → nmap_bin ≠ [] →
  urlparse env target = Ok parsed → truthy (hostname parsed) = false →
  ∃ finding reason,
    run_nmap env target (lit "url") scan_mode s
      = (Ok finding, {| world := w; trace := trace s ++ [EWhich (lit "nmap")] |})
    ∧ finding !! lit "status" = Some (VStr (lit "error"))
    ∧ finding !! lit "reason" = Some (VStr reason) ∧ reason ≠ []
    ∧ finding !! lit "phases" = None.
Proof.
  intros Hw Hbin Hp Hh. unfold run_nmap. unfold bind at 1.
  destruct (shutil_which_spec (lit "nmap") s) as (found' & w' & Hw' & ->).
  rewrite Hw in Hw'. injection Hw' as <- <-.
  destruct nmap_bin as [|c b]; [done|]. cbv zeta.
  rewrite bool_decide_eq_true_2 by reflexivity.
  unfold bind at 1, lift at 1. rewrite Hp.
  destruct (hostname parsed) as [[|h ost]|]; [| discriminate Hh |].
  all: unfold ret; eexists _, _; split; [reflexivity|].
  all: split; [vm_compute; reflexivity|]; split; [vm_compute; reflexivity|].
  all: split; [discriminate | vm_compute; reflexivity].
Qed.

End AdapterExtras.

(** *** Nmap and the whole scan on a machine whose tools fail only by
    timing out and whose resolver fails only with [OSError] *)

Section NmapExtras.
Context {W : Type} (env : Env W).
Hypothesis Henv : well_behaved env.

Lemma run_command_returns cmd (s : Sys W) :
  ∃ out w captured,
    _run_command env cmd s
      = (Ok out, {| world := w; trace := trace s ++ [ERun cmd] |})
    ∧ out !! lit "stdout" = Some (VStr captured)
    ∧ out !! lit "phase" = None.
Proof.
  destruct Henv as [Hrun _].
  unfold _run_command, try_except, bind, call, ret.
  destruct (subprocess_run env cmd (world s)) as [[c|e] w] eqn:E.
  - eexists _, _, _. split; [reflexivity|].
    set (x := slice_last 6000 _). set (y := slice_last 3000 _).
    split; vm_compute; reflexivity.
  - rewrite (Hrun cmd (world s) e) by (by rewrite E).
    eexists _, _, _. split; [reflexivity|]. split; vm_compute; reflexivity.
Qed.

Lemma resolve_target_returns host (s : Sys W) :
  ∃ resolved w,
    resolve_target env host s
      = (Ok resolved, {| world := w; trace := trace s ++ [EResolve host] |}).
Proof.
  destruct Henv as [_ Hres].
  unfold resolve_target, try_except, call, ret.
  destruct (gethostbyname env host (world s)) as [[r|e] w] eqn:E; [eauto|].
  rewrite (Hres host (world s) e) by (by rewrite E). eauto.
Qed.

Lemma phases_loop (commands : list (pystr * list pystr)) phases (s : Sys W) :
  ∃ entries s',
    for_each_M (λ phases '(phase, cmd),
        bind (_run_command env cmd) (λ output,
          ret (phases ++ [VDict (output ∪ {[ lit "phase" := VStr phase ]})])))
      commands phases s
    = (Ok (phases ++ entries), s')
    ∧ Forall2 phase_entry commands.*1 entries
    ∧ trace s' = trace s ++ (ERun <$> commands.*2).
Proof.
  revert phases s. induction commands as [|[name cmd] commands IH]; intros phases s.
  - exists [], s. cbn. rewrite !app_nil_r. split; [done|]. split; [constructor | done].
  - cbn [for_each_M]. unfold bind at 1. unfold bind at 1.
    destruct (run_command_returns cmd s) as (out & w & captured & -> & Hout & Hph).
    unfold ret at 1.
    match goal with |- context [for_each_M _ _ ?acc ?s1] =>
      destruct (IH acc s1) as (entries & s' & -> & Hent & Htr) end.
    eexists (_ :: entries), s'. rewrite <- app_assoc. split; [reflexivity|]. split.
    + cbn [fmap list_fmap fst]. constructor; [|exact Hent].
      eexists _, captured. split; [reflexivity|]. split.
      * rewrite lookup_union_r by exact Hph. apply lookup_singleton_eq.
      * rewrite lookup_union_l' by (by eexists). exact Hout.
    + rewrite Htr. cbn [trace fmap list_fmap snd]. by rewrite <- app_assoc.
Qed.

Lemma run_nmap_phases_spec nmap_bin host scan_mode (s : Sys W) :
  ∃ finding phases resolved s',
    run_nmap_phases env nmap_bin host scan_mode s = (Ok finding, s')
    ∧ finding !! lit "status" = Some (VStr (lit "completed"))
    ∧ finding !! lit "target_resolved" = Some (VStr resolved)
    ∧ finding !! lit "phases" = Some (VList phases)
    ∧ Forall2 phase_entry (phase_names scan_mode) phases
    ∧ trace s' = trace s ++ (ERun <$> phase_argvs nmap_bin host scan_mode)
                 ++ [EResolve host].
Proof.
  unfold run_nmap_phases. cbv zeta. unfold bind at 1.
  match goal with |- context [for_each_M _ ?cmds ?acc s] =>
    destruct (phases_loop cmds acc s) as (entries & s1 & -> & Hent & Htr) end.
  unfold bind at 1.
  destruct (resolve_target_returns host s1) as (resolved & w & ->).
  unfold ret. eexists _, entries, resolved, _. split; [reflexivity|].
  cbn [app trace].
  split; [vm_compute; reflexivity|]. split; [vm_compute; reflexivity|].
  split; [vm_compute; reflexivity|].
  unfold phase_names, phase_argvs.
  case_bool_decide; cbn [fmap list_fmap fst snd app] in *;
    (split; [exact Hent|]); rewrite Htr, <- app_assoc; reflexivity.
Qed.

(** X11. With an nmap binary and a target that is no URL, the adapter
    completes: two phases, or three in balanced and deep mode, in the
    order host discovery, service detection, vulnerability scripts, each
    run on the target and recorded even when it timed out; then the
    target is resolved. *)
Theorem run_nmap_present target target_type scan_mode (s : Sys W) nmap_bin w :
  which env (lit "nmap") (world s) = (Some nmap_bin, w) → nmap_bin ≠ [] →
  target_type ≠ lit "url" →
  ∃ finding phases resolved s',
    run_nmap env target target_type scan_mode s = (Ok finding, s')
    ∧ finding !! lit "status" = Some (VStr (lit "completed"))
    ∧ finding !! lit "target_resolved" = Some (VStr resolved)
    ∧ finding !! lit "phases" = Some (VList phases)
    ∧ Forall2 phase_entry (phase_names scan_mode) phases
    ∧ trace s' = trace s ++ [EWhich (lit "nmap")]
                 ++ (ERun <$> phase_argvs nmap_bin target scan_mode)
                 ++ [EResolve target].
Proof.
  intros Hw Hbin Hkind. unfold run_nmap. unfold bind at 1.
  destruct (shutil_which_spec env (lit "nmap") s) as (found' & w' & Hw' & ->).
  rewrite Hw in Hw'. injection Hw' as <- <-.
  destruct nmap_bin as [|c b]; [done|]. cbv zeta.
  rewrite bool_decide_eq_false_2 by exact Hkind.
  match goal with |- context [run_nmap_phases env _ _ _ ?s1] =>
    destruct (run_nmap_phases_spec (c :: b) target scan_mode s1)
      as (finding & phases & resolved & s' & Hrun & H1 & H2 & H3 & H4 & Htr) end.
  exists finding, phases, resolved, s'. rewrite Hrun.
  split; [reflexivity|]. do 4 (split; [assumption|]).
  rewrite Htr. cbn [trace]. by rewrite <- app_assoc.
Qed.

(** X28. For a URL, nmap is given the host of the URL and not the URL: every
    phase runs on the host, and it is the host that is resolved. *)
Theorem run_nmap_url_host target scan_mode (s : Sys W) nmap_bin w parsed host :
  which env (lit "nmap") (world s) = (Some nmap_bin, w) → nmap_bin ≠ [] →
  urlparse env target = Ok parsed → hostname parsed = Some host → host ≠ [] →
  ∃ finding phases resolved s',
    run_nmap env target (lit "url") scan_mode s = (Ok finding, s')
    ∧ finding !! lit "status" = Some (VStr (lit "completed"))
    ∧ finding !! lit "target_resolved" = Some (VStr resolved)
    ∧ finding !! lit "phases" = Some (VList phases)
    ∧ Forall2 phase_entry (phase_names scan_mode) phases
    ∧ trace s' = trace s ++ [EWhich (lit "nmap")]
                 ++ (ERun <$> phase_argvs nmap_bin host scan_mode)
                 ++ [EResolve host].
Proof.
  intros Hw Hbin Hp Hh Hhost. unfold run_nmap. unfold bind at 1.
  destruct (shutil_which_spec env (lit "nmap") s) as (found' & w' & Hw' & ->).
  rewrite Hw in Hw'. injection Hw' as <- <-.
  destruct nmap_bin as [|c b]; [done|]. cbv zeta.
  rewrite bool_decide_eq_true_2 by reflexivity.
  unfold bind at 1, lift at 1. rewrite Hp, Hh.
  destruct host as [|h ost]; [done|].
  match goal with |- context [run_nmap_phases env _ _ _ ?s1] =>
    destruct (run_nmap_phases_spec (c :: b) (h :: ost) scan_mode s1)
      as (finding & phases & resolved & s' & Hrun & H1 & H2 & H3 & H4 & Htr) end.
  exists finding, phases, resolved, s'. rewrite Hrun.
  split; [reflexivity|]. do 4 (split; [assumption|]).
  rewrite Htr. cbn [trace]. by rewrite <- app_assoc.
Qed.

Lemma run_nmap_returns target target_type scan_mode (s : Sys W) :
  (target_type = lit "url" → ∃ parsed, urlparse env target = Ok parsed) →
  ∃ finding s', run_nmap env target target_type scan_mode s = (Ok finding, s').
Proof.
  intros Hurl. unfold run_nmap. unfold bind at 1.
  destruct (shutil_which_spec env (lit "nmap") s) as (found & w & _ & ->).
  destruct found as [[|c b]|]; [unfold ret; eauto | | unfold ret; eauto].
  cbv zeta. case_bool_decide as Hk.
  - destruct (Hurl Hk) as [parsed Hp]. unfold bind at 1, lift at 1. rewrite Hp.
    destruct (hostname parsed) as [[|h ost]|]; [unfold ret; eauto | | unfold ret; eauto].
    match goal with |- context [run_nmap_phases env ?b ?h ?m ?s1] =>
      destruct (run_nmap_phases_spec b h m s1)
        as (finding & _ & _ & s' & -> & _) end. eauto.
  - match goal with |- context [run_nmap_phases env ?b ?h ?m ?s1] =>
      destruct (run_nmap_phases_spec b h m s1)
        as (finding & _ & _ & s' & -> & _) end. eauto.
Qed.

Lemma run_adapter_returns config tool (adapter : M (W:=W) _) findings (s : Sys W) :
  (∀ s1, ∃ finding s', adapter s1 = (Ok finding, s')) →
  ∃ findings' s', run_adapter config tool adapter findings s = (Ok findings', s').
Proof.
  intros Ha. unfold run_adapter. case_bool_decide; [|unfold ret; eauto].
  unfold bind at 1, emit at 1. unfold bind at 1.
  match goal with |- context [adapter ?s1] =>
    destruct (Ha s1) as (finding & s' & ->) end.
  unfold ret. eauto.
Qed.

(** X12. A scan of a valid target returns: no failure of a tool, no
    timeout and no failed name lookup makes it raise. Its result names
    the normalised target, and the kind and mode as requested. *)
Theorem run_scan_returns config (s : Sys W) normalized :
  validate_target env (target config) (target_type config) = Ok normalized →
  ∃ result s',
    run_scan env config s = (Ok result, s')
    ∧ result !! lit "target" = Some (VStr normalized)
    ∧ result !! lit "target_type" = Some (VStr (target_type config))
    ∧ result !! lit "scan_mode" = Some (VStr (scan_mode config)).
Proof.
  intros Hv. unfold run_scan. unfold bind at 1.
  destruct (utc_now_spec env s) as (t0 & w0 & ->).
  unfold bind at 1. unfold lift at 1. rewrite Hv. cbv zeta.
  unfold bind at 1.
  match goal with |- context [run_adapter ?c ?t ?a ?f ?s1] =>
    destruct (run_adapter_returns c t a f s1) as (f1 & s1' & ->) end.
  { intros s1. apply run_nmap_returns. intros Hk. rewrite Hk in Hv.
    by apply validate_url_parses in Hv. }
  unfold bind at 1.
  match goal with |- context [run_adapter ?c ?t ?a ?f ?s1] =>
    destruct (run_adapter_returns c t a f s1) as (f2 & s2' & ->) end.
  { intros s1. destruct (run_zap_returns env normalized (target_type config)
                           (scan_mode config) s1) as (f & s' & ->). eauto. }
  unfold bind at 1.
  match goal with |- context [run_adapter ?c ?t ?a ?f ?s1] =>
    destruct (run_adapter_returns c t a f s1) as (f3 & s3' & ->) end.
  { intros s1. destruct (run_arachni_returns env normalized (target_type config)
                           (scan_mode config) s1) as (f & s' & ->). eauto. }
  unfold bind at 1.
  destruct (utc_now_spec env s3') as (t1 & w1 & ->).
  unfold ret. eexists _, _. split; [reflexivity|].
  set (x := VStr <$> tools config).
  repeat split; vm_compute; reflexivity.
Qed.

End NmapExtras.

(** *** The shape of what a scan returns *)

Section ShapeFacts.
Context {W : Type} (env : Env W).

Lemma ensures_ret {A} (P : A → Prop) a : P a → ensures P (ret (W:=W) a).
Proof. intros HP s b s' [= <- <-]. exact HP. Qed.

Lemma ensures_bind {A B} (P : A → Prop) (Q : B → Prop)
    (m : M (W:=W) A) (f : A → M (W:=W) B) :
  ensures P m → (∀ a, P a → ensures Q (f a)) → ensures Q (bind m f).
Proof.
  intros Hm Hf s b s'. unfold bind.
  destruct (m s) as [[a|e] s1] eqn:E; [|done].
  intros E2. exact (Hf a (Hm _ _ _ E) _ _ _ E2).
Qed.

Lemma ensures_true {A} (m : M (W:=W) A) : ensures (λ _, True) m.
Proof. by intros s a s' _. Qed.

Lemma ensures_for_each {A B} (I : A → Prop) (body : A → B → M (W:=W) A) xs acc :
  I acc → (∀ a x, I a → ensures I (body a x)) → ensures I (for_each_M body xs acc).
Proof.
  intros Hacc Hb. revert acc Hacc.
  induction xs as [|x xs IH]; intros acc Hacc; cbn [for_each_M].
  - by apply ensures_ret.
  - eapply ensures_bind; [by apply Hb|]. intros a Ha. by apply IH.
Qed.

Lemma run_command_stdout cmd :
  ensures (λ out, (∃ captured, out !! lit "stdout" = Some (VStr captured))
                  ∧ out !! lit "phase" = None)
    (_run_command env cmd).
Proof.
  intros s out s'. unfold _run_command, try_except, bind, call, ret.
  destruct (subprocess_run env cmd (world s)) as [[c|e] w].
  - intros [= <- <-]. set (x := slice_last 6000 _). set (y := slice_last 3000 _).
    split; [eexists|]; vm_compute; reflexivity.
  - destruct e; try done. intros [= <- <-].
    split; [eexists|]; vm_compute; reflexivity.
Qed.

Lemma run_nmap_phases_readable nmap_bin host scan_mode :
  ensures readable_nmap (run_nmap_phases env nmap_bin host scan_mode).
Proof.
  unfold run_nmap_phases. cbv zeta.
  eapply ensures_bind.
  - apply (ensures_for_each (Forall readable_phase)); [constructor|].
    intros phases [phase cmd] Hph.
    eapply ensures_bind; [apply run_command_stdout|].
    intros out [[captured Hout] Hnone]. apply ensures_ret.
    apply Forall_app. split; [exact Hph|]. constructor; [|constructor].
    eexists _, captured. split; [reflexivity|].
    rewrite lookup_union_l' by (by eexists). exact Hout.
  - intros phases Hph. eapply ensures_bind; [apply ensures_true|].
    intros resolved _. apply ensures_ret. right. exists phases.
    split; [vm_compute; reflexivity | exact Hph].
Qed.

Lemma run_nmap_readable target target_type scan_mode :
  ensures readable_nmap (run_nmap env target target_type scan_mode).
Proof.
  unfold run_nmap. eapply ensures_bind; [apply ensures_true|].
  intros [[|c b]|] _.
  1,3: apply ensures_ret; left; vm_compute; reflexivity.
  cbv zeta. case_bool_decide.
  - eapply ensures_bind; [apply ensures_true|]. intros parsed _.
    destruct (hostname parsed) as [[|h ost]|].
    1,3: apply ensures_ret; left; vm_compute; reflexivity.
    apply run_nmap_phases_readable.
  - apply run_nmap_phases_readable.
Qed.

Lemma run_adapter_readable config tool (adapter : M (W:=W) _) findings :
  readable findings →
  (tool = lit "nmap" → ensures readable_nmap adapter) →
  ensures readable (run_adapter config tool adapter findings).
Proof.
  intros [Hd Hn] Hnmap. unfold run_adapter. case_bool_decide; [|by apply ensures_ret].
  eapply ensures_bind; [apply ensures_true|]. intros _ _.
  eapply (ensures_bind (λ f, tool = lit "nmap" → readable_nmap f)).
  { intros s a s' E Ht. exact (Hnmap Ht _ _ _ E). }
  intros finding Hf. apply ensures_ret. split.
  - intros t v. rewrite lookup_insert. case_decide; [intros [= <-]; eauto | apply Hd].
  - intros v. rewrite lookup_insert. case_decide as Ht.
    + intros [= <-]. eexists. split; [reflexivity | by apply Hf].
    + apply Hn.
Qed.

Lemma run_scan_shape config :
  ensures (λ result, ∃ findings,
             result !! lit "findings" = Some (VDict findings) ∧ readable findings)
    (run_scan env config).
Proof.
  unfold run_scan.
  eapply ensures_bind; [apply ensures_true|]. intros started _.
  eapply ensures_bind; [apply ensures_true|]. intros target _. cbv zeta.
  eapply ensures_bind.
  { apply run_adapter_readable;
      [split; [intros t v Hv | intros v Hv]; by rewrite lookup_empty in Hv|].
    intros _. apply run_nmap_readable. }
  intros f1 H1. eapply ensures_bind.
  { apply run_adapter_readable; [exact H1|]. intros H. by vm_compute in H. }
  intros f2 H2. eapply ensures_bind.
  { apply run_adapter_readable; [exact H2|]. intros H. by vm_compute in H. }
  intros f3 H3. eapply ensures_bind; [apply ensures_true|]. intros finished _.
  apply ensures_ret. exists f3. split; [vm_compute; reflexivity | exact H3].
Qed.

(** X13. Whatever the machine does, the findings of a scan that returns
    are dicts, and the nmap finding has no phases or a list of phases
    that are dicts with a string under [stdout]. *)
Theorem run_scan_readable config (s : Sys W) result s' :
  run_scan env config s = (Ok result, s') →
  ∃ findings,
    result !! lit "findings" = Some (VDict findings) ∧ readable findings.
Proof. apply run_scan_shape. Qed.

End ShapeFacts.

(** *** The further properties on the sample machine *)

Lemma sample_env_well_behaved : well_behaved sample_env.
Proof.
  split.
  - intros cmd w e. unfold sample_env. cbn [subprocess_run fst].
    case_bool_decide; [by intros [= <-] | discriminate].
  - intros host w e. unfold sample_env. cbn [gethostbyname fst]. by intros [= <-].
Qed.

Lemma validate_blank_target_witness :
  Forall (λ c, isspace c = true) (lit "   ")
  ∧ validate_target sample_env (lit "   ") (lit "url")
    = Raise (ValueError (lit "กรุณาระบุเป้าหมาย")).
Proof.
  assert (Forall (λ c, isspace c = true) (lit "   ")) as H
    by (vm_compute; repeat constructor).
  split; [exact H|].
  exact (validate_blank_target sample_env (lit "   ") (lit "url") H).
Defined.

Lemma validate_unknown_kind_witness :
  strip (lit "example.com") ≠ []
  ∧ (lit "host" ∉ [lit "ip"; lit "domain"; lit "url"])
  ∧ validate_target sample_env (lit "example.com") (lit "host")
    = Raise (ValueError (lit "ประเภทเป้าหมายไม่ถูกต้อง")).
Proof.
  assert (strip (lit "example.com") ≠ []) as Hs by lit_neq.
  assert (lit "host" ∉ [lit "ip"; lit "domain"; lit "url"]) as Hk.
  { intros Hin. apply list_elem_of_In in Hin. vm_compute in Hin.
    repeat (destruct Hin as [Hin|Hin]; [discriminate Hin|]). exact Hin. }
  split; [exact Hs|]. split; [exact Hk|].
  exact (validate_unknown_kind sample_env (lit "example.com") (lit "host") Hs Hk).
Defined.

Lemma sample_domain :
  validate_target sample_env (lit " Example.COM ") (lit "domain")
  = Ok (lit "example.com").
Proof. vm_compute. reflexivity. Qed.

Lemma validate_domain_idempotent_witness :
  validate_target sample_env (lit " Example.COM ") (lit "domain")
    = Ok (lit "example.com")
  ∧ validate_target sample_env (lit "example.com") (lit "domain")
    = Ok (lit "example.com").
Proof.
  split; [exact sample_domain|].
  exact (validate_domain_idempotent sample_env _ _ sample_domain).
Defined.

Lemma validate_domain_lower_case_witness :
  validate_target sample_env (lit " Example.COM ") (lit "domain")
    = Ok (lit "example.com")
  ∧ Forall (λ c, (97 ≤ c ≤ 122 ∨ 48 ≤ c ≤ 57 ∨ c = 45 ∨ c = 46)%N)
      (lit "example.com").
Proof.
  split; [exact sample_domain|].
  exact (validate_domain_lower_case sample_env _ _ sample_domain).
Defined.

Lemma validate_target_trimmed_witness :
  validate_target sample_env (lit "  192.0.2.7 ") (lit "ip") = Ok (lit "192.0.2.7")
  ∧ lit "192.0.2.7" ≠ [] ∧ strip (lit "192.0.2.7") = lit "192.0.2.7".
Proof.
  assert (validate_target sample_env (lit "  192.0.2.7 ") (lit "ip")
          = Ok (lit "192.0.2.7")) as H by (vm_compute; reflexivity).
  split; [exact H|].
  exact (validate_target_trimmed sample_env _ _ _ H).
Defined.

Lemma run_scan_invalid_target_witness :
  validate_target sample_env (target blank_config) (target_type blank_config)
    = Raise (ValueError (lit "กรุณาระบุเป้าหมาย"))
  ∧ ∃ w, run_scan sample_env blank_config sample_sys
         = (Raise (ValueError (lit "กรุณาระบุเป้าหมาย")),
            {| world := w; trace := trace sample_sys ++ [ENow] |}).
Proof.
  assert (validate_target sample_env (target blank_config) (target_type blank_config)
          = Raise (ValueError (lit "กรุณาระบุเป้าหมาย"))) as H
    by (vm_compute; reflexivity).
  split; [exact H|].
  exact (run_scan_invalid_target sample_env blank_config sample_sys _ H).
Defined.

Lemma run_nmap_absent_witness :
  which bare_env (lit "nmap") (world sample_sys) = (None, ())
  ∧ truthy None = false
  ∧ ∃ finding hint,
      run_nmap bare_env (lit "192.0.2.7") (lit "ip") (lit "deep") sample_sys
        = (Ok finding,
           {| world := (); trace := trace sample_sys ++ [EWhich (lit "nmap")] |})
      ∧ finding !! lit "status" = Some (VStr (lit "skipped"))
      ∧ finding !! lit "hint" = Some (VStr hint) ∧ hint ≠ []
      ∧ finding !! lit "phases" = None.
Proof.
  split; [reflexivity|]. split; [reflexivity|].
  exact (run_nmap_absent bare_env (lit "192.0.2.7") (lit "ip") (lit "deep")
           sample_sys None () eq_refl eq_refl).
Defined.

Lemma run_nmap_present_witness :
  well_behaved sample_env
  ∧ which sample_env (lit "nmap") (world sample_sys) = (Some (lit "/usr/bin/nmap"), ())
  ∧ lit "/usr/bin/nmap" ≠ []
  ∧ lit "ip" ≠ lit "url"
  ∧ ∃ finding phases resolved s',
      run_nmap sample_env (lit "192.0.2.7") (lit "ip") (lit "deep") sample_sys
        = (Ok finding, s')
      ∧ finding !! lit "status" = Some (VStr (lit "completed"))
      ∧ finding !! lit "target_resolved" = Some (VStr resolved)
      ∧ finding !! lit "phases" = Some (VList phases)
      ∧ Forall2 phase_entry (phase_names (lit "deep")) phases
      ∧ trace s' = trace sample_sys ++ [EWhich (lit "nmap")]
                   ++ (ERun <$> phase_argvs (lit "/usr/bin/nmap") (lit "192.0.2.7")
                                  (lit "deep"))
                   ++ [EResolve (lit "192.0.2.7")].
Proof.
  assert (which sample_env (lit "nmap") (world sample_sys)
          = (Some (lit "/usr/bin/nmap"), ())) as Hw by (vm_compute; reflexivity).
  assert (lit "/usr/bin/nmap" ≠ []) as Hb by lit_neq.
  assert (lit "ip" ≠ lit "url") as Hk by lit_neq.
  split; [exact sample_env_well_behaved|]. split; [exact Hw|].
  split; [exact Hb|]. split; [exact Hk|].
  exact (run_nmap_present sample_env sample_env_well_behaved (lit "192.0.2.7")
           (lit "ip") (lit "deep") sample_sys (lit "/usr/bin/nmap") () Hw Hb Hk).
Defined.

Lemma validate_target_keeps_text_witness :
  lit "ip" ≠ lit "domain"
  ∧ validate_target sample_env (lit "  192.0.2.7 ") (lit "ip") = Ok (lit "192.0.2.7")
  ∧ lit "192.0.2.7" = strip (lit "  192.0.2.7 ").
Proof.
  assert (lit "ip" ≠ lit "domain") as Hk by lit_neq.
  assert (validate_target sample_env (lit "  192.0.2.7 ") (lit "ip")
          = Ok (lit "192.0.2.7")) as H by (vm_compute; reflexivity).
  split; [exact Hk|]. split; [exact H|].
  exact (validate_target_keeps_text sample_env _ _ _ Hk H).
Defined.

Lemma url_env_well_behaved host : well_behaved (url_env host).
Proof. split; intros ? w e; unfold url_env; cbn; discriminate. Qed.

Lemma run_nmap_url_without_host_witness :
  which (url_env None) (lit "nmap") (world sample_sys) = (Some (lit "/usr/bin/nmap"), ())
  ∧ lit "/usr/bin/nmap" ≠ []
  ∧ urlparse (url_env None) (lit "https://:8443")
    = Ok {| scheme := lit "https"; netloc := lit "example.com:8443"; hostname := None |}
  ∧ truthy None = false
  ∧ ∃ finding reason,
      run_nmap (url_env None) (lit "https://:8443") (lit "url") (lit "quick") sample_sys
        = (Ok finding,
           {| world := (); trace := trace sample_sys ++ [EWhich (lit "nmap")] |})
      ∧ finding !! lit "status" = Some (VStr (lit "error"))
      ∧ finding !! lit "reason" = Some (VStr reason) ∧ reason ≠ []
      ∧ finding !! lit "phases" = None.
Proof.
  assert (which (url_env None) (lit "nmap") (world sample_sys)
          = (Some (lit "/usr/bin/nmap"), ())) as Hw by (vm_compute; reflexivity).
  assert (lit "/usr/bin/nmap" ≠ []) as Hb by lit_neq.
  split; [exact Hw|]. split; [exact Hb|]. split; [reflexivity|].
  split; [reflexivity|].
  exact (run_nmap_url_without_host (url_env None) (lit "https://:8443") (lit "quick")
           sample_sys (lit "/usr/bin/nmap") () _ Hw Hb eq_refl eq_refl).
Defined.

Lemma run_nmap_url_host_witness :
  well_behaved (url_env (Some (lit "example.com")))
  ∧ which (url_env (Some (lit "example.com"))) (lit "nmap") (world sample_sys)
    = (Some (lit "/usr/bin/nmap"), ())
  ∧ lit "/usr/bin/nmap" ≠ []
  ∧ lit "example.com" ≠ []
  ∧ ∃ finding phases resolved s',
      run_nmap (url_env (Some (lit "example.com"))) (lit "https://example.com:8443/")
        (lit "url") (lit "quick") sample_sys = (Ok finding, s')
      ∧ finding !! lit "status" = Some (VStr (lit "completed"))
      ∧ finding !! lit "target_resolved" = Some (VStr resolved)
      ∧ finding !! lit "phases" = Some (VList phases)
      ∧ Forall2 phase_entry (phase_names (lit "quick")) phases
      ∧ trace s' = trace sample_sys ++ [EWhich (lit "nmap")]
                   ++ (ERun <$> phase_argvs (lit "/usr/bin/nmap") (lit "example.com")
                                  (lit "quick"))
                   ++ [EResolve (lit "example.com")].
Proof.
  assert (which (url_env (Some (lit "example.com"))) (lit "nmap") (world sample_sys)
          = (Some (lit "/usr/bin/nmap"), ())) as Hw by (vm_compute; reflexivity).
  assert (lit "/usr/bin/nmap" ≠ []) as Hb by lit_neq.
  assert (lit "example.com" ≠ []) as Hh by lit_neq.
  split; [apply url_env_well_behaved|]. split; [exact Hw|].
  split; [exact Hb|]. split; [exact Hh|].
  exact (run_nmap_url_host (url_env (Some (lit "example.com")))
           (url_env_well_behaved _) (lit "https://example.com:8443/") (lit "quick")
           sample_sys (lit "/usr/bin/nmap") () _ (lit "example.com")
           Hw Hb eq_refl eq_refl Hh).
Defined.

Lemma sample_target :
  validate_target sample_env (target sample_config) (target_type sample_config)
  = Ok (lit "192.0.2.7").
Proof. vm_compute. reflexivity. Qed.

Lemma run_scan_returns_witness :
  well_behaved sample_env
  ∧ validate_target sample_env (target sample_config) (target_type sample_config)
    = Ok (lit "192.0.2.7")
  ∧ ∃ result s',
      run_scan sample_env sample_config sample_sys = (Ok result, s')
      ∧ result !! lit "target" = Some (VStr (lit "192.0.2.7"))
      ∧ result !! lit "target_type" = Some (VStr (target_type sample_config))
      ∧ result !! lit "scan_mode" = Some (VStr (scan_mode sample_config)).
Proof.
  split; [exact sample_env_well_behaved|]. split; [exact sample_target|].
  exact (run_scan_returns sample_env sample_env_well_behaved sample_config
           sample_sys (lit "192.0.2.7") sample_target).
Defined.

Lemma run_scan_readable_witness :
  run_scan sample_env sample_config sample_sys = (Ok sample_result, sample_final)
  ∧ ∃ findings,
      sample_result !! lit "findings" = Some (VDict findings) ∧ readable findings.
Proof.
  split; [exact sample_run|].
  exact (run_scan_readable sample_env sample_config sample_sys sample_result
           sample_final sample_run).
Defined.

End ScannerExtras.

(** ** The report *)

Module AppExtras.

Import App AppSpec AppFacts TextSpec RecordSpec.

(** *** Escaping *)

Section EscapeFacts.

Lemma replace_char_app c by_ s t :
  replace_char c by_ (s ++ t) = replace_char c by_ s ++ replace_char c by_ t.
Proof. unfold replace_char. apply bind_app. Qed.

Lemma replace_char_cons c by_ x s :
  replace_char c by_ (x :: s)
  = (if (x =? c)%N then by_ else [x]) ++ replace_char c by_ s.
Proof. reflexivity. Qed.

Lemma replace_char_other c by_ x : x ≠ c → replace_char c by_ [x] = [x].
Proof.
  intros H. rewrite replace_char_cons.
  by destruct (N.eqb_spec x c).
Qed.

Lemma escape_pdf_text_app s t :
  _escape_pdf_text (s ++ t) = _escape_pdf_text s ++ _escape_pdf_text t.
Proof. unfold _escape_pdf_text. by rewrite !replace_char_app. Qed.

(** Escaping works character by character: a backslash before each
    backslash and parenthesis, nothing else changed. *)
Lemma escape_pdf_text_cons c s :
  _escape_pdf_text (c :: s)
  = (if is_special c then [92%N; c] else [c]) ++ _escape_pdf_text s.
Proof.
  change (c :: s) with ([c] ++ s). rewrite escape_pdf_text_app. f_equal.
  unfold is_special.
  destruct (N.eqb_spec c 92) as [->|H92]; [vm_compute; reflexivity|].
  destruct (N.eqb_spec c 40) as [->|H40]; [vm_compute; reflexivity|].
  destruct (N.eqb_spec c 41) as [->|H41]; [vm_compute; reflexivity|].
  unfold _escape_pdf_text. by rewrite !replace_char_other.
Qed.

Lemma unescape_escape s : pdf_unescape (_escape_pdf_text s) = Some s.
Proof.
  induction s as [|c s IH]; [reflexivity|].
  rewrite escape_pdf_text_cons. destruct (is_special c) eqn:Hc.
  - cbn [app pdf_unescape]. rewrite Hc, IH. reflexivity.
  - cbn [app pdf_unescape].
    assert ((c =? 92)%N = false) as ->.
    { unfold is_special in Hc. by destruct (c =? 92)%N. }
    rewrite Hc, IH. reflexivity.
Qed.

Lemma escape_pdf_text_bounds s :
  (length s ≤ length (_escape_pdf_text s) ≤ 2 * length s)%nat.
Proof.
  induction s as [|c s IH]; [cbn; lia|].
  rewrite escape_pdf_text_cons, length_app.
  destruct (is_special c); cbn [length]; lia.
Qed.

(** X14. What [_escape_pdf_text] writes reads back as the text it was
    given: no parenthesis is left bare and no backslash is left dangling.
    The escaped text is at most twice as long. *)
Theorem escape_pdf_text_round_trip s :
  pdf_unescape (_escape_pdf_text s) = Some s
  ∧ (length s ≤ length (_escape_pdf_text s) ≤ 2 * length s)%nat.
Proof. split; [apply unescape_escape | apply escape_pdf_text_bounds]. Qed.

(** X15. A text instruction carries the first 160 characters of its text,
    escaped, between the parentheses of one literal string. *)
Theorem draw_text_line_text y text size x :
  ∃ safe,
    _draw_text_line y text size x
    = lit "BT /F1 " ++ str_of_Z size ++ lit " Tf " ++ str_of_Z x ++ lit " "
      ++ str_of_Z y ++ lit " Td (" ++ safe ++ lit ") Tj ET"
    ∧ pdf_unescape safe = Some (take 160 text)
    ∧ (length safe ≤ 320)%nat.
Proof.
  exists (_escape_pdf_text (take 160 text)). split; [reflexivity|].
  split; [apply unescape_escape|].
  pose proof (escape_pdf_text_bounds (take 160 text)) as Hlen.
  rewrite length_take in Hlen. lia.
Qed.

End EscapeFacts.

(** *** The risk estimate on any record *)

Section RiskExtras.

Lemma for_each_invariant {A B} (I : A → Prop) (body : A → B → outcome A) xs acc r :
  I acc → (∀ a x a', I a → body a x = Ok a' → I a') →
  for_each body xs acc = Ok r → I r.
Proof.
  intros Hacc Hb. revert acc Hacc.
  induction xs as [|x xs IH]; intros acc Hacc; cbn [for_each].
  - by intros [= <-].
  - destruct (body acc x) as [a'|e] eqn:E; [|done]. rewrite bind_Ok.
    apply IH. by apply (Hb acc x).
Qed.

(** X16. Whatever the record holds, the lines the extractor returns are
    at most eight, are stripped, and contain both "/tcp" and "open". *)
Theorem extract_port_lines_sound scan ports :
  _extract_port_lines scan = Ok ports →
  (length ports ≤ 8)%nat
  ∧ Forall (λ line, strip line = line ∧ str_in (lit "/tcp") line = true
                    ∧ str_in (lit "open") line = true) ports.
Proof.
  unfold _extract_port_lines.
  destruct (py_get (result scan) _ _) as [findings|]; [|done]. rewrite bind_Ok.
  destruct (py_get findings _ _) as [nmap|]; [|done]. rewrite bind_Ok.
  destruct (py_get nmap _ _ ≫= py_iter) as [phases|]; [|done]. rewrite bind_Ok.
  destruct (for_each _ phases []) as [all|] eqn:E; [|done]. rewrite bind_Ok.
  intros [= <-]. split; [rewrite length_take; lia|].
  apply Forall_take.
  revert E. apply for_each_invariant; [constructor|].
  intros acc phase acc' Hacc.
  destruct (py_get phase _ _) as [stdout|]; [|done]. rewrite bind_Ok.
  destruct (py_splitlines stdout) as [lines|]; [|done]. rewrite bind_Ok.
  intros [= <-]. rewrite collect_lines. apply Forall_app. split; [done|].
  apply Forall_fmap, List.Forall_forall. intros line Hin.
  apply filter_In in Hin as [_ Hm]. cbn.
  split; [apply strip_idem|].
  rewrite <- mentions_open_port_strip in Hm. unfold is_port_line in Hm.
  by apply andb_true_iff in Hm.
Qed.

(** X17. Whatever the record holds, a risk estimate has one to four
    findings and one of the three levels. *)
Theorem estimate_risk_range scan level vulns :
  _estimate_risk scan = Ok (level, vulns) →
  level ∈ [lit "HIGH"; lit "MEDIUM"; lit "LOW"]
  ∧ (1 ≤ length vulns ≤ 4)%nat.
Proof.
  unfold _estimate_risk.
  destruct (_extract_port_lines scan) as [ports|]; [|done]. rewrite bind_Ok.
  destruct (py_get (result scan) _ _) as [findings|]; [|done]. rewrite bind_Ok.
  cbv zeta.
  destruct (py_get findings (lit "zap") _ ≫= _) as [zs|]; [|done]. rewrite bind_Ok.
  destruct (py_get findings (lit "arachni") _ ≫= _) as [as_|]; [|done].
  rewrite bind_Ok, label_loop. cbn [app].
  intros H. apply Ok_inj in H. injection H as <- <-. split.
  - repeat match goal with |- context [if ?b then _ else _] => destruct b end;
      set_solver.
  - pose proof (length_take ports 4) as Hl.
    destruct (take 4 ports) as [|p ps]; [cbn; lia|].
    cbn [imap length] in *. rewrite length_imap. lia.
Qed.

(** X18. Records without findings, without an nmap finding or without
    phases degrade to the lowest estimate with the placeholder finding. *)
Theorem estimate_risk_missing_keys scan stored :
  result scan = VDict stored →
  stored !! lit "findings" = None
  ∨ (∃ findings, stored !! lit "findings" = Some (VDict findings)
       ∧ findings !! lit "zap" = None ∧ findings !! lit "arachni" = None
       ∧ (findings !! lit "nmap" = None
          ∨ ∃ nmap, findings !! lit "nmap" = Some (VDict nmap)
                    ∧ nmap !! lit "phases" = None)) →
  _extract_port_lines scan = Ok []
  ∧ _estimate_risk scan = Ok (lit "LOW", [no_finding]).
Proof.
  intros Hr Hkeys.
  assert (∃ findings,
            py_get (result scan) (lit "findings") (VDict ∅) = Ok (VDict findings)
            ∧ findings !! lit "zap" = None ∧ findings !! lit "arachni" = None
            ∧ (findings !! lit "nmap" = None
               ∨ ∃ nmap, findings !! lit "nmap" = Some (VDict nmap)
                         ∧ nmap !! lit "phases" = None))
    as (findings & Hf & Hzap & Har & Hnm).
  { rewrite Hr. cbn [py_get].
    destruct Hkeys as [Hnone | (findings & Hsome & Hrest)].
    - exists ∅. rewrite Hnone. split; [reflexivity|].
      split; [apply lookup_empty|]. split; [apply lookup_empty|].
      left. apply lookup_empty.
    - exists findings. rewrite Hsome. split; [reflexivity | exact Hrest]. }
  assert (nmap_outputs scan []) as Hn.
  { destruct Hnm as [Hnm | (nmap & Hnm & Hph)].
    - exists (VDict findings), (VDict ∅), []. split; [exact Hf|].
      cbn [py_get]. rewrite Hnm. split; [reflexivity|].
      split; [reflexivity | constructor].
    - exists (VDict findings), (VDict nmap), []. split; [exact Hf|].
      cbn [py_get]. rewrite Hnm, Hph. split; [reflexivity|].
      split; [reflexivity | constructor]. }
  assert (finding_status scan (lit "zap") VNone) as Hz.
  { exists (VDict findings), (VDict ∅). split; [exact Hf|].
    cbn [py_get]. rewrite Hzap. split; reflexivity. }
  assert (finding_status scan (lit "arachni") VNone) as Ha.
  { exists (VDict findings), (VDict ∅). split; [exact Hf|].
    cbn [py_get]. rewrite Har. split; reflexivity. }
  split; [exact (extract_port_lines_outputs scan [] Hn)|].
  exact (estimate_risk_outputs scan [] VNone VNone Hn Hz Ha).
Qed.

(** X19. A stored result that is no dict makes the estimator raise
    [AttributeError]. *)
Theorem estimate_risk_not_a_dict scan :
  (∀ d, result scan ≠ VDict d) →
  _extract_port_lines scan = Raise AttributeError
  ∧ _estimate_risk scan = Raise AttributeError.
Proof.
  intros Hnd. assert (_extract_port_lines scan = Raise AttributeError) as H.
  { unfold _extract_port_lines. destruct (result scan); try reflexivity.
    by destruct (Hnd d). }
  split; [exact H|]. unfold _estimate_risk. by rewrite H.
Qed.

End RiskExtras.

(** *** The report on any record *)

Section ReportExtras.
Variable upper : pystr → pystr.

(** X20. The report fails exactly when the risk estimate fails, and with
    the same exception: laying out and assembling the document never
    raise. *)
Theorem report_fails_with_estimator scan e :
  build_pdf_report upper scan = Raise e ↔ _estimate_risk scan = Raise e.
Proof.
  destruct (_estimate_risk scan) as [r|e'] eqn:E.
  - destruct (build_pdf_report_returns upper scan r E) as [pdf ->].
    split; discriminate.
  - assert (build_pdf_report upper scan = Raise e') as ->.
    { unfold build_pdf_report, report_content. cbv zeta. by rewrite E. }
    split; intros [= ->]; reflexivity.
Qed.

(** X21. The report reads the id, the target, the mode, the date and the
    result of a record, and nothing else: the requested tools and the
    kind of target leave no mark on it, nor on the estimate. *)
Theorem report_ignores_tools scan scan' :
  scan_id scan' = scan_id scan → target scan' = target scan →
  scan_mode scan' = scan_mode scan → created_at scan' = created_at scan →
  result scan' = result scan →
  _extract_port_lines scan' = _extract_port_lines scan
  ∧ _estimate_risk scan' = _estimate_risk scan
  ∧ build_pdf_report upper scan' = build_pdf_report upper scan.
Proof.
  intros Hid Ht Hm Hc Hr.
  assert (_extract_port_lines scan' = _extract_port_lines scan) as Hp
    by (unfold _extract_port_lines; by rewrite Hr).
  assert (_estimate_risk scan' = _estimate_risk scan) as He
    by (unfold _estimate_risk; by rewrite Hp, Hr).
  split; [exact Hp|]. split; [exact He|].
  unfold build_pdf_report, report_content. by rewrite He, Hp, Hid, Ht, Hm, Hc.
Qed.

End ReportExtras.

(** *** The further properties on sample records *)

Lemma one_port_lines : _extract_port_lines one_port_scan = Ok [lit "22/tcp open ssh"].
Proof. vm_compute. reflexivity. Qed.

Lemma extract_port_lines_sound_witness :
  _extract_port_lines one_port_scan = Ok [lit "22/tcp open ssh"]
  ∧ (length [lit "22/tcp open ssh"] ≤ 8)%nat
  ∧ Forall (λ line, strip line = line ∧ str_in (lit "/tcp") line = true
                    ∧ str_in (lit "open") line = true) [lit "22/tcp open ssh"].
Proof.
  split; [exact one_port_lines|].
  exact (extract_port_lines_sound one_port_scan _ one_port_lines).
Defined.

Lemma one_port_risk :
  _estimate_risk one_port_scan = Ok (lit "LOW", [lit "[LOW] 22/tcp open ssh"]).
Proof. vm_compute. reflexivity. Qed.

Lemma estimate_risk_range_witness :
  _estimate_risk one_port_scan = Ok (lit "LOW", [lit "[LOW] 22/tcp open ssh"])
  ∧ lit "LOW" ∈ [lit "HIGH"; lit "MEDIUM"; lit "LOW"]
  ∧ (1 ≤ length [lit "[LOW] 22/tcp open ssh"] ≤ 4)%nat.
Proof.
  split; [exact one_port_risk|].
  exact (estimate_risk_range one_port_scan _ _ one_port_risk).
Defined.

Lemma estimate_risk_missing_keys_witness :
  result empty_scan = VDict ∅
  ∧ (∅ : gmap pystr pyval) !! lit "findings" = None
  ∧ _extract_port_lines empty_scan = Ok []
  ∧ _estimate_risk empty_scan = Ok (lit "LOW", [no_finding]).
Proof.
  split; [reflexivity|]. split; [apply lookup_empty|].
  exact (estimate_risk_missing_keys empty_scan ∅ eq_refl
           (or_introl (lookup_empty _))).
Defined.

Lemma estimate_risk_not_a_dict_witness :
  (∀ d, result broken_scan ≠ VDict d)
  ∧ _extract_port_lines broken_scan = Raise AttributeError
  ∧ _estimate_risk broken_scan = Raise AttributeError.
Proof.
  assert (∀ d, result broken_scan ≠ VDict d) as H
    by (intros d; discriminate).
  split; [exact H|].
  exact (estimate_risk_not_a_dict broken_scan H).
Defined.

Lemma report_fails_with_estimator_witness :
  _estimate_risk broken_scan = Raise AttributeError
  ∧ build_pdf_report ascii_upper broken_scan = Raise AttributeError.
Proof.
  assert (_estimate_risk broken_scan = Raise AttributeError) as H
    by reflexivity.
  split; [exact H|].
  exact (proj2 (report_fails_with_estimator ascii_upper broken_scan
                  AttributeError) H).
Defined.

Lemma report_ignores_tools_witness :
  _extract_port_lines
    {| scan_id := 8; target := lit "192.0.2.7"; target_type := lit "domain";
       scan_mode := lit "quick"; tools := [lit "zap"];
       created_at := lit "2024-01-01T00:00:00"; result := result one_port_scan |}
  = _extract_port_lines one_port_scan
  ∧ _estimate_risk
      {| scan_id := 8; target := lit "192.0.2.7"; target_type := lit "domain";
         scan_mode := lit "quick"; tools := [lit "zap"];
         created_at := lit "2024-01-01T00:00:00"; result := result one_port_scan |}
    = _estimate_risk one_port_scan
  ∧ build_pdf_report ascii_upper
      {| scan_id := 8; target := lit "192.0.2.7"; target_type := lit "domain";
         scan_mode := lit "quick"; tools := [lit "zap"];
         created_at := lit "2024-01-01T00:00:00"; result := result one_port_scan |}
    = build_pdf_report ascii_upper one_port_scan.
Proof.
  exact (report_ignores_tools ascii_upper one_port_scan
           {| scan_id := 8; target := lit "192.0.2.7"; target_type := lit "domain";
              scan_mode := lit "quick"; tools := [lit "zap"];
              created_at := lit "2024-01-01T00:00:00";
              result := result one_port_scan |}
           eq_refl eq_refl eq_refl eq_refl eq_refl).
Defined.

End AppExtras.

(** ** From the scan to the report *)

Module PipelineFacts.

Import Scanner ScannerSpec ScannerFacts AdapterSpec RecordSpec ScannerExtras
  App AppSpec AppFacts.

Section EndToEnd.

Lemma readable_phases_outputs phases :
  Forall readable_phase phases →
  ∃ outs, Forall2 (λ phase out,
            py_get phase (lit "stdout") (VStr []) = Ok (VStr out)) phases outs.
Proof.
  induction 1 as [|ph phases (d & out & -> & Hout) _ [outs IH]].
  - exists []. constructor.
  - exists (out :: outs). constructor; [|exact IH].
    cbn [py_get]. by rewrite Hout.
Qed.

Lemma readable_status findings tool :
  (∀ tool v, findings !! tool = Some v → ∃ d, v = VDict d) →
  ∃ finding status,
    py_get (VDict findings) tool (VDict ∅) = Ok finding
    ∧ py_get finding (lit "status") VNone = Ok status.
Proof.
  intros Hd. cbn [py_get]. destruct (findings !! tool) as [v|] eqn:E.
  - destruct (Hd _ _ E) as [d ->]. eexists _, _. split; reflexivity.
  - eexists _, _. split; reflexivity.
Qed.

(** Findings a scan returns can be read by the risk estimator. *)
Lemma readable_record (record : App.ScanRecord) stored findings :
  App.result record = VDict stored →
  stored !! lit "findings" = Some (VDict findings) →
  readable findings →
  ∃ outs zap_status arachni_status,
    nmap_outputs record outs
    ∧ finding_status record (lit "zap") zap_status
    ∧ finding_status record (lit "arachni") arachni_status.
Proof.
  intros Hr Hf [Hd Hn].
  assert (py_get (App.result record) (lit "findings") (VDict ∅) = Ok (VDict findings))
    as Hget by (rewrite Hr; cbn [py_get]; by rewrite Hf).
  destruct (readable_status findings (lit "zap") Hd) as (z & zs & Hz & Hzs).
  destruct (readable_status findings (lit "arachni") Hd) as (a & as_ & Ha & Has).
  assert (∃ outs, nmap_outputs record outs) as [outs Hout].
  { destruct (findings !! lit "nmap") as [v|] eqn:E.
    - destruct (Hn v eq_refl) as (d & -> & [Hnone | (phases & Hph & Hall)]).
      + exists []. exists (VDict findings), (VDict d), [].
        split; [done|]. split; [cbn [py_get]; by rewrite E|].
        split; [cbn [py_get]; by rewrite Hnone | constructor].
      + destruct (readable_phases_outputs phases Hall) as [outs Houts].
        exists outs. exists (VDict findings), (VDict d), phases.
        split; [done|]. split; [cbn [py_get]; by rewrite E|].
        split; [cbn [py_get]; by rewrite Hph | done].
    - exists []. exists (VDict findings), (VDict ∅), [].
      split; [done|]. split; [cbn [py_get]; by rewrite E|].
      split; [reflexivity | constructor]. }
  exists outs, zs, as_. split; [done|].
  split; eexists _, _; eauto.
Qed.

Context {W : Type} (env : Scanner.Env W).
Variable upper : pystr → pystr.

(** X22. A record that stores what a scan returned always renders:
    neither the risk estimator nor the report builder raises on it. *)
Theorem scan_result_renders config (s : Scanner.Sys W) stored s'
    (record : App.ScanRecord) :
  Scanner.run_scan env config s = (Ok stored, s') →
  App.result record = VDict stored →
  ∃ level vulns pdf,
    App._estimate_risk record = Ok (level, vulns)
    ∧ App.build_pdf_report upper record = Ok pdf.
Proof.
  intros Hrun Hrec.
  destruct (run_scan_shape env config _ _ _ Hrun) as (findings & Hf & Hshape).
  destruct (readable_record record stored findings Hrec Hf Hshape)
    as (outs & zs & as_ & Hout & Hz & Ha).
  pose proof (estimate_risk_outputs record outs zs as_ Hout Hz Ha) as Hrisk.
  cbv zeta in Hrisk.
  destruct (build_pdf_report_returns upper record _ Hrisk) as [pdf Hpdf].
  eauto.
Qed.

End EndToEnd.

Lemma scan_result_renders_witness :
  Scanner.run_scan sample_env sample_config sample_sys = (Ok sample_result, sample_final)
  ∧ App.result stored_scan = VDict sample_result
  ∧ ∃ level vulns pdf,
      App._estimate_risk stored_scan = Ok (level, vulns)
      ∧ App.build_pdf_report ascii_upper stored_scan = Ok pdf.
Proof.
  split; [exact sample_run|]. split; [reflexivity|].
  exact (scan_result_renders sample_env ascii_upper sample_config sample_sys
           sample_result sample_final stored_scan sample_run eq_refl).
Defined.

End PipelineFacts.

(** ** The tools column *)

Module StorageFacts.

Import Storage.

Section ColumnFacts.

Lemma split_char_nonempty sep s : split_char sep s ≠ [].
Proof.
  destruct s as [|c rest]; [done|]. cbn [split_char].
  destruct (c =? sep)%N; [done|]. by destruct (split_char sep rest).
Qed.

Lemma split_char_app sep s t :
  split_char sep (s ++ sep :: t) = split_char sep s ++ split_char sep t.
Proof.
  induction s as [|c s IH]; cbn [app split_char].
  - by rewrite N.eqb_refl.
  - destruct (c =? sep)%N; [by rewrite IH|]. rewrite IH.
    pose proof (split_char_nonempty sep s) as Hne.
    by destruct (split_char sep s).
Qed.

Lemma split_char_length sep s :
  length (split_char sep s) = S (length (List.filter (λ c, c =? sep)%N s)).
Proof.
  induction s as [|c s IH]; [done|]. cbn [split_char List.filter].
  destruct (c =? sep)%N; cbn [length]; [by rewrite IH|].
  rewrite <- IH. pose proof (split_char_nonempty sep s) as Hne.
  by destruct (split_char sep s).
Qed.

Lemma split_char_absent sep s : sep ∉ s → split_char sep s = [s].
Proof.
  induction s as [|c s IH]; [done|]. intros Hs. cbn [split_char].
  apply not_elem_of_cons in Hs as [Hc Hs].
  destruct (N.eqb_spec c sep) as [->|_]; [done|]. by rewrite IH.
Qed.

Lemma split_char_single sep s : length (split_char sep s) = 1%nat → sep ∉ s.
Proof.
  rewrite split_char_length. intros [= Hlen]. intros Hin.
  apply list_elem_of_In in Hin.
  assert (In sep (List.filter (λ c, c =? sep)%N s)) as Hf
    by (apply filter_In; split; [done | apply N.eqb_refl]).
  destruct (List.filter _ s); [done | discriminate Hlen].
Qed.

Lemma comma : lit "," = [44%N].
Proof. vm_compute. reflexivity. Qed.

Lemma split_join tools :
  tools ≠ [] →
  split_char 44 (save_scan_tools tools) = mjoin (split_char 44 <$> tools).
Proof.
  unfold save_scan_tools. rewrite comma.
  induction tools as [|p rest IH]; [done|]. intros _.
  destruct rest as [|q rest].
  - cbn. by rewrite app_nil_r.
  - change (str_join [44%N] (p :: q :: rest))
      with (p ++ 44%N :: str_join [44%N] (q :: rest)).
    rewrite split_char_app, IH by done. reflexivity.
Qed.

Lemma join_nonempty tools :
  tools ≠ [] → tools ≠ [[]] → save_scan_tools tools ≠ [].
Proof.
  unfold save_scan_tools. rewrite comma. intros Hne Hblank.
  destruct tools as [|p [|q rest]]; [done| |].
  - cbn. intros ->. done.
  - change (str_join [44%N] (p :: q :: rest))
      with (p ++ 44%N :: str_join [44%N] (q :: rest)).
    by destruct p.
Qed.

Lemma mjoin_singletons {A} (l : list A) : mjoin ((λ x, [x]) <$> l) = l.
Proof.
  induction l as [|x l IH]; [done|].
  change (mjoin ((λ x, [x]) <$> x :: l)) with ([x] ++ mjoin ((λ x, [x]) <$> l)).
  by rewrite IH.
Qed.

Lemma mjoin_length_fields {A B} (f : A → list B) (l : list A) :
  (∀ x, 1 ≤ length (f x))%nat → length (mjoin (f <$> l)) = length l →
  Forall (λ x, length (f x) = 1%nat) l.
Proof.
  intros Hf. assert (∀ l, length l ≤ length (mjoin (f <$> l)))%nat as Hle.
  { intros l'. induction l' as [|x l' IH]; [done|].
    change (mjoin (f <$> x :: l')) with (f x ++ mjoin (f <$> l')).
    rewrite length_app. cbn [length]. specialize (Hf x). lia. }
  induction l as [|x l IH]; [constructor|].
  change (mjoin (f <$> x :: l)) with (f x ++ mjoin (f <$> l)).
  rewrite length_app. cbn [length]. intros Hlen.
  specialize (Hf x). specialize (Hle l).
  constructor; [lia|]. apply IH. lia.
Qed.

(** X23. The tools a record is stored with are the tools read back
    exactly when no name holds a comma and the request is not the single
    empty name: a comma splits a name in two, and the list of one empty
    name comes back empty. *)
Theorem stored_tools_round_trip tools :
  get_scan_tools (save_scan_tools tools) = tools
  ↔ tools ≠ [[]] ∧ Forall (λ tool, 44%N ∉ tool) tools.
Proof.
  destruct (decide (tools = [])) as [->|Hne]; [by split; [split|]|].
  destruct (decide (tools = [[]])) as [->|Hblank].
  { split; [intros H; vm_compute in H; discriminate H | by intros [? _]]. }
  pose proof (join_nonempty tools Hne Hblank) as Hcol.
  assert (get_scan_tools (save_scan_tools tools) = mjoin (split_char 44 <$> tools))
    as ->.
  { rewrite <- split_join by done. unfold get_scan_tools.
    by destruct (save_scan_tools tools). }
  split.
  - intros Heq. split; [done|].
    apply (f_equal length) in Heq.
    apply mjoin_length_fields in Heq;
      [|intros x; rewrite split_char_length; lia].
    eapply Forall_impl; [exact Heq|]. intros tool. apply split_char_single.
  - intros [_ Hall]. rewrite <- (mjoin_singletons tools) at 2. f_equal.
    apply Forall_fmap_ext_1. eapply Forall_impl; [exact Hall|].
    intros tool. apply split_char_absent.
Qed.

End ColumnFacts.

Lemma stored_tools_round_trip_witness :
  get_scan_tools (save_scan_tools [lit "nmap"; lit "zap"]) = [lit "nmap"; lit "zap"].
Proof.
  apply (proj2 (stored_tools_round_trip [lit "nmap"; lit "zap"])).
  split; [discriminate|].
  repeat constructor; intros Hin; apply list_elem_of_In in Hin; vm_compute in Hin;
    repeat (destruct Hin as [Hin|Hin]; [discriminate Hin|]); exact Hin.
Defined.

End StorageFacts.

(** ** The run id of a request path *)

Module HandlerFacts.

Import Handler HandlerSpec.

Section PathFacts.

Lemma startswith_app p s : startswith p (p ++ s) = true.
Proof. apply startswith_spec. by exists s. Qed.

Lemma removeprefix_app p s : removeprefix p (p ++ s) = s.
Proof.
  unfold removeprefix. rewrite startswith_app. by rewrite drop_app_length.
Qed.

Lemma endswith_app suffix s : endswith suffix (s ++ suffix) = true.
Proof. unfold endswith. rewrite rev_app_distr. apply startswith_app. Qed.

Lemma lstrip_char_suffix c s : lstrip_char c s `suffix_of` s.
Proof.
  induction s as [|x s IH]; [done|]. cbn [lstrip_char].
  destruct (x =? c)%N; [by apply suffix_cons_r | done].
Qed.

Lemma lstrip_char_other c x s : x ≠ c → lstrip_char c (x :: s) = x :: s.
Proof. intros H. cbn [lstrip_char]. by destruct (N.eqb_spec x c). Qed.

Lemma lstrip_char_keeps (P : N → Prop) c s :
  Forall P s → Forall P (lstrip_char c s).
Proof.
  destruct (lstrip_char_suffix c s) as [k Hk]. intros H.
  rewrite Hk in H. by apply Forall_app in H as [_ ?].
Qed.

Lemma lstrip_char_length c s : (length (lstrip_char c s) ≤ length s)%nat.
Proof.
  destruct (lstrip_char_suffix c s) as [k Hk].
  rewrite Hk at 2. rewrite length_app. lia.
Qed.

Lemma strip_char_keeps (P : N → Prop) c s :
  Forall P s → Forall P (strip_char c s).
Proof.
  intros H. unfold strip_char. rewrite !rev_reverse.
  apply Forall_reverse, lstrip_char_keeps, Forall_reverse.
  by apply lstrip_char_keeps.
Qed.

Lemma strip_char_length c s : (length (strip_char c s) ≤ length s)%nat.
Proof.
  unfold strip_char. rewrite !rev_reverse, length_reverse.
  etrans; [apply lstrip_char_length|]. rewrite length_reverse.
  apply lstrip_char_length.
Qed.

Lemma strip_char_absent c s : c ∉ s → strip_char c s = s.
Proof.
  intros Hs. unfold strip_char.
  assert (∀ t, c ∉ t → lstrip_char c t = t) as Hl.
  { intros [|x t] Ht; [done|]. apply lstrip_char_other.
    intros ->. apply Ht. by left. }
  rewrite (Hl s Hs), Hl, rev_involutive; [done|].
  rewrite rev_reverse. by rewrite elem_of_reverse.
Qed.

Lemma ascii_isdigit_value s :
  ascii_isdigit s = true → ∃ n, decimal_value s = Some n.
Proof.
  unfold ascii_isdigit. intros [_ Hd]%andb_true_iff.
  assert (Forall (λ c, (48 ≤ c ≤ 57)%N) s) as Hall.
  { apply List.Forall_forall. intros c Hc.
    rewrite forallb_forall in Hd. specialize (Hd c Hc).
    apply andb_true_iff in Hd as [?%N.leb_le ?%N.leb_le]. lia. }
  rewrite <- (rev_involutive s). eexists. apply decimal_value_rev.
  rewrite rev_reverse. by apply Forall_reverse.
Qed.

Lemma digits_isdigit s :
  s ≠ [] → Forall (λ c, (48 ≤ c ≤ 57)%N) s → ascii_isdigit s = true.
Proof.
  intros Hne Hall. unfold ascii_isdigit.
  rewrite bool_decide_eq_false_2 by done. cbn [negb andb].
  apply forallb_forall. intros c Hc.
  rewrite List.Forall_forall in Hall. specialize (Hall c Hc).
  apply andb_true_iff. split; apply N.leb_le; lia.
Qed.

End PathFacts.

Section RunIdFacts.
Variable isdigit : pystr → bool.
Variable int_of_str : pystr → outcome Z.
Hypothesis Hlib : ascii_library isdigit int_of_str.

(** X24. The links the application hands out resolve to their run: the
    path of a run, with or without the suffix the caller names, gives
    back the id and answers nothing. *)
Theorem extract_run_id_link (run_id : N) suffix :
  (length (str_of_N run_id) ≤ 640)%nat →
  _extract_run_id isdigit int_of_str
    (lit "/results/" ++ str_of_N run_id ++ suffix) suffix
  = (Ok (Some (Z.of_N run_id)), []).
Proof.
  intros Hlen. destruct Hlib as [Hdigit Hint].
  unfold _extract_run_id. rewrite removeprefix_app. cbv zeta.
  assert ((if negb (bool_decide (suffix = []))
              && endswith suffix (str_of_N run_id ++ suffix)
           then take (length (str_of_N run_id ++ suffix) - length suffix)
                  (str_of_N run_id ++ suffix)
           else str_of_N run_id ++ suffix) = str_of_N run_id) as ->.
  { case_bool_decide as Hs; cbn [negb andb].
    - subst suffix. apply app_nil_r.
    - rewrite endswith_app, length_app, Nat.add_sub. apply take_app_length. }
  pose proof (str_of_N_digits run_id) as Hd.
  rewrite strip_char_absent.
  2: { intros Hin. rewrite List.Forall_forall in Hd.
       apply list_elem_of_In in Hin. specialize (Hd _ Hin). lia. }
  pose proof (digits_isdigit _ (str_of_N_nonempty run_id) Hd) as Hyes.
  rewrite (Hdigit _ (digits_ascii _ Hd)), Hyes. cbn [negb].
  by rewrite (Hint _ _ Hyes Hlen (str_of_N_value run_id)).
Qed.

(** X25. On an ASCII path of up to 640 characters the method does not
    raise: it returns an id that is not negative and answers nothing, or
    it answers 400 once and returns [None]. *)
Theorem extract_run_id_ascii path suffix :
  is_ascii path → (length path ≤ 640)%nat →
  (∃ run_id, _extract_run_id isdigit int_of_str path suffix
             = (Ok (Some run_id), []) ∧ 0 ≤ run_id)
  ∨ _extract_run_id isdigit int_of_str path suffix
    = (Ok None, [SendError 400 (lit "Invalid run id")]).
Proof.
  intros Hascii Hlen. destruct Hlib as [Hdigit Hint].
  unfold _extract_run_id. cbv zeta.
  set (token0 := removeprefix (lit "/results/") path).
  match goal with |- context [strip_char 47 ?t] => set (token1 := t) end.
  set (token := strip_char 47 token1).
  assert (is_ascii token0 ∧ (length token0 ≤ length path)%nat) as [Ha0 Hl0].
  { unfold token0, removeprefix. destruct (startswith _ _); [|done].
    split; [by apply Forall_drop | rewrite length_drop; lia]. }
  assert (is_ascii token1 ∧ (length token1 ≤ length token0)%nat) as [Ha1 Hl1].
  { unfold token1. destruct (_ && _); [|done].
    split; [by apply Forall_take | rewrite length_take; lia]. }
  assert (is_ascii token) as Ha by (by apply strip_char_keeps).
  assert (length token ≤ 640)%nat as Hl.
  { pose proof (strip_char_length 47 token1). unfold token. lia. }
  rewrite (Hdigit _ Ha).
  destruct (ascii_isdigit token) eqn:Hyes; cbn [negb]; [left | by right].
  destruct (ascii_isdigit_value _ Hyes) as [n Hn].
  exists (Z.of_N n). rewrite (Hint _ _ Hyes Hl Hn). split; [done | lia].
Qed.

End RunIdFacts.

Lemma ascii_library_holds : ascii_library ascii_isdigit ascii_int.
Proof.
  split; [done|]. intros s n Hyes _ Hn. unfold ascii_int. by rewrite Hn, Hyes.
Qed.

Lemma extract_run_id_link_witness :
  ascii_library ascii_isdigit ascii_int
  ∧ (length (str_of_N 42) ≤ 640)%nat
  ∧ _extract_run_id ascii_isdigit ascii_int
      (lit "/results/" ++ str_of_N 42 ++ lit "/pdf") (lit "/pdf")
    = (Ok (Some (Z.of_N 42)), []).
Proof.
  assert (length (str_of_N 42) ≤ 640)%nat as H by (vm_compute; lia).
  split; [exact ascii_library_holds|]. split; [exact H|].
  exact (extract_run_id_link ascii_isdigit ascii_int ascii_library_holds 42
           (lit "/pdf") H).
Defined.

Lemma extract_run_id_ascii_witness :
  ascii_library ascii_isdigit ascii_int
  ∧ is_ascii (lit "/results/abc")
  ∧ (length (lit "/results/abc") ≤ 640)%nat
  ∧ ((∃ run_id, _extract_run_id ascii_isdigit ascii_int (lit "/results/abc") []
                = (Ok (Some run_id), []) ∧ 0 ≤ run_id)
     ∨ _extract_run_id ascii_isdigit ascii_int (lit "/results/abc") []
       = (Ok None, [SendError 400 (lit "Invalid run id")])).
Proof.
  assert (is_ascii (lit "/results/abc")) as Ha
    by (apply is_ascii_check; vm_compute; reflexivity).
  assert (length (lit "/results/abc") ≤ 640)%nat as Hl by (vm_compute; lia).
  split; [exact ascii_library_holds|]. split; [exact Ha|]. split; [exact Hl|].
  exact (extract_run_id_ascii ascii_isdigit ascii_int ascii_library_holds
           (lit "/results/abc") [] Ha Hl).
Defined.

End HandlerFacts.
